(** * Secret Santa coordinator: group lifecycle and draw engine

    A shallow embedding of the group handlers of [src/App.tsx]
    ([shuffle], [handleCreateGroup], [handleJoinGroup], [handleRunDraw],
    [handleDeleteGroup], the join-schema loader and the selection effect)
    together with the properties of the draw, of membership and of the
    owner-only guards.

    The React state cells become one record, the Firestore collection a
    finite map from document ids to documents, and every handler a
    computation in a small state-and-exception monad that also logs the
    calls made to the store. *)

From stdpp Require Import gmap list strings sorting.

(** ** JavaScript strings

    A JavaScript string is a sequence of UTF-16 code units; [length] counts
    code units and [trim] removes the code units of the ECMAScript
    [WhiteSpace] and [LineTerminator] productions from both ends. Ids,
    names, labels and messages are therefore lists of code units. *)

Definition lit (s : string) : list N :=
  Ascii.N_of_ascii <$> String.list_ascii_of_string s.

Definition is_white_space (c : N) : bool :=
  ((9 <=? c) && (c <=? 13) || (c =? 32) || (c =? 160) || (c =? 5760)
   || (8192 <=? c) && (c <=? 8202) || (c =? 8232) || (c =? 8233)
   || (c =? 8239) || (c =? 8287) || (c =? 12288) || (c =? 65279))%N.

Fixpoint trimStart (s : list N) : list N :=
  match s with
  | c :: s' => if is_white_space c then trimStart s' else s
  | [] => []
  end.

Definition trimEnd (s : list N) : list N := reverse (trimStart (reverse s)).

Definition trim (s : list N) : list N := trimEnd (trimStart s).

(** [Array.prototype.join] on an array of strings. *)
Fixpoint join (sep : list N) (parts : list (list N)) : list N :=
  match parts with
  | [] => []
  | [p] => p
  | p :: rest => p ++ sep ++ join sep rest
  end.

(** A string is falsy exactly when it is empty. *)
Definition truthy (s : list N) : bool :=
  match s with [] => false | _ => true end.

(** [a || b] on values that are a string, [null] or [undefined]. *)
Definition or_else (a : option (list N)) (b : list N) : list N :=
  match a with
  | Some s => if truthy s then s else b
  | None => b
  end.

(** ** Data model (the [type] declarations of the source) *)

Module MemberProfile.
Record t := mk {
  displayName : list N;
  photoURL : option (list N)
}.
End MemberProfile.

Module Assignment.
Record t := mk {
  recipientId : list N;
  recipientName : list N;
  recipientPhotoURL : option (list N)
}.
End Assignment.

Module CustomField.
Record t := mk {
  id : list N;
  label : list N;
  placeholder : option (list N)
}.
End CustomField.

(** Firestore [Timestamp], in milliseconds. *)
Definition Timestamp := N.

(** The client-side view of a group, as built by the snapshot listener. *)
Module Group.
Record t := mk {
  id : list N;
  name : list N;
  description : option (list N);
  ownerId : list N;
  ownerName : list N;
  ownerPhotoURL : option (list N);
  memberIds : list (list N);
  members : gmap (list N) MemberProfile.t;
  assignments : option (gmap (list N) Assignment.t);
  customFields : list CustomField.t;
  memberResponses : gmap (list N) (gmap (list N) (list N));
  createdAt : option Timestamp;
  drawRunAt : option Timestamp
}.
End Group.

(** A stored group document. Firestore documents are schemaless and every
    read in the source goes through [??], which treats a missing field and
    [null] alike, so each field is optional and [None] stands for both. *)
Module GroupDoc.
Record t := mk {
  name : option (list N);
  description : option (list N);
  ownerId : option (list N);
  ownerName : option (list N);
  ownerPhotoURL : option (list N);
  memberIds : option (list (list N));
  members : option (gmap (list N) MemberProfile.t);
  assignments : option (gmap (list N) Assignment.t);
  customFields : option (list CustomField.t);
  memberResponses : option (gmap (list N) (gmap (list N) (list N)));
  createdAt : option Timestamp;
  drawRunAt : option Timestamp
}.
End GroupDoc.

(** The authenticated identity ([User] of firebase/auth), reduced to the
    attributes the handlers read. *)
Module User.
Record t := mk {
  uid : list N;
  displayName : option (list N);
  email : option (list N);
  phoneNumber : option (list N);
  photoURL : option (list N)
}.
End User.

(** [user.displayName || user.email || user.phoneNumber || 'Anonymous gifter'] *)
Definition getDisplayName (user : User.t) : list N :=
  or_else user.(User.displayName)
    (or_else user.(User.email)
       (or_else user.(User.phoneNumber) (lit "Anonymous gifter"))).

(** The document-to-group mapping of the snapshot listener. *)
Definition toGroup (docId : list N) (data : GroupDoc.t) : Group.t :=
  {| Group.id := docId;
     Group.name := default (lit "Untitled group") data.(GroupDoc.name);
     Group.description := data.(GroupDoc.description);
     Group.ownerId := default [] data.(GroupDoc.ownerId);
     Group.ownerName :=
       default (lit "Unknown organizer") data.(GroupDoc.ownerName);
     Group.ownerPhotoURL := data.(GroupDoc.ownerPhotoURL);
     Group.memberIds := default [] data.(GroupDoc.memberIds);
     Group.members := default ∅ data.(GroupDoc.members);
     Group.assignments := data.(GroupDoc.assignments);
     Group.customFields := default [] data.(GroupDoc.customFields);
     Group.memberResponses := default ∅ data.(GroupDoc.memberResponses);
     Group.createdAt := data.(GroupDoc.createdAt);
     Group.drawRunAt := data.(GroupDoc.drawRunAt) |}.

(** ** React state: one field per [useState] cell the handlers touch *)

Module UI.
Record t := mk {
  user : option User.t;
  groups : list Group.t;
  selectedGroupId : option (list N);
  newGroupName : list N;
  newGroupDescription : list N;
  customFields : list CustomField.t;
  isCreatingGroup : bool;
  createError : option (list N);
  createSuccess : option (list N);
  joinCode : list N;
  joinGroupFields : list CustomField.t;
  joinResponses : gmap (list N) (list N);
  isJoining : bool;
  joinError : option (list N);
  joinSuccess : option (list N);
  isRunningDraw : bool;
  drawError : option (list N);
  drawSuccess : option (list N);
  isDeletingGroup : bool;
  deleteError : option (list N)
}.

Definition setSelectedGroupId (v : option (list N)) (s : t) : t :=
  mk (s.(user)) (s.(groups)) v (s.(newGroupName)) (s.(newGroupDescription))
     (s.(customFields)) (s.(isCreatingGroup)) (s.(createError))
     (s.(createSuccess)) (s.(joinCode)) (s.(joinGroupFields))
     (s.(joinResponses)) (s.(isJoining)) (s.(joinError)) (s.(joinSuccess))
     (s.(isRunningDraw)) (s.(drawError)) (s.(drawSuccess))
     (s.(isDeletingGroup)) (s.(deleteError)).
Definition setNewGroupName (v : list N) (s : t) : t :=
  mk (s.(user)) (s.(groups)) (s.(selectedGroupId)) v
     (s.(newGroupDescription)) (s.(customFields)) (s.(isCreatingGroup))
     (s.(createError)) (s.(createSuccess)) (s.(joinCode))
     (s.(joinGroupFields)) (s.(joinResponses)) (s.(isJoining))
     (s.(joinError)) (s.(joinSuccess)) (s.(isRunningDraw)) (s.(drawError))
     (s.(drawSuccess)) (s.(isDeletingGroup)) (s.(deleteError)).
Definition setNewGroupDescription (v : list N) (s : t) : t :=
  mk (s.(user)) (s.(groups)) (s.(selectedGroupId)) (s.(newGroupName)) v
     (s.(customFields)) (s.(isCreatingGroup)) (s.(createError))
     (s.(createSuccess)) (s.(joinCode)) (s.(joinGroupFields))
     (s.(joinResponses)) (s.(isJoining)) (s.(joinError)) (s.(joinSuccess))
     (s.(isRunningDraw)) (s.(drawError)) (s.(drawSuccess))
     (s.(isDeletingGroup)) (s.(deleteError)).
Definition setCustomFields (v : list CustomField.t) (s : t) : t :=
  mk (s.(user)) (s.(groups)) (s.(selectedGroupId)) (s.(newGroupName))
     (s.(newGroupDescription)) v (s.(isCreatingGroup)) (s.(createError))
     (s.(createSuccess)) (s.(joinCode)) (s.(joinGroupFields))
     (s.(joinResponses)) (s.(isJoining)) (s.(joinError)) (s.(joinSuccess))
     (s.(isRunningDraw)) (s.(drawError)) (s.(drawSuccess))
     (s.(isDeletingGroup)) (s.(deleteError)).
Definition setIsCreatingGroup (v : bool) (s : t) : t :=
  mk (s.(user)) (s.(groups)) (s.(selectedGroupId)) (s.(newGroupName))
     (s.(newGroupDescription)) (s.(customFields)) v (s.(createError))
     (s.(createSuccess)) (s.(joinCode)) (s.(joinGroupFields))
     (s.(joinResponses)) (s.(isJoining)) (s.(joinError)) (s.(joinSuccess))
     (s.(isRunningDraw)) (s.(drawError)) (s.(drawSuccess))
     (s.(isDeletingGroup)) (s.(deleteError)).
Definition setCreateError (v : option (list N)) (s : t) : t :=
  mk (s.(user)) (s.(groups)) (s.(selectedGroupId)) (s.(newGroupName))
     (s.(newGroupDescription)) (s.(customFields)) (s.(isCreatingGroup)) v
     (s.(createSuccess)) (s.(joinCode)) (s.(joinGroupFields))
     (s.(joinResponses)) (s.(isJoining)) (s.(joinError)) (s.(joinSuccess))
     (s.(isRunningDraw)) (s.(drawError)) (s.(drawSuccess))
     (s.(isDeletingGroup)) (s.(deleteError)).
Definition setCreateSuccess (v : option (list N)) (s : t) : t :=
  mk (s.(user)) (s.(groups)) (s.(selectedGroupId)) (s.(newGroupName))
     (s.(newGroupDescription)) (s.(customFields)) (s.(isCreatingGroup))
     (s.(createError)) v (s.(joinCode)) (s.(joinGroupFields))
     (s.(joinResponses)) (s.(isJoining)) (s.(joinError)) (s.(joinSuccess))
     (s.(isRunningDraw)) (s.(drawError)) (s.(drawSuccess))
     (s.(isDeletingGroup)) (s.(deleteError)).
Definition setJoinCode (v : list N) (s : t) : t :=
  mk (s.(user)) (s.(groups)) (s.(selectedGroupId)) (s.(newGroupName))
     (s.(newGroupDescription)) (s.(customFields)) (s.(isCreatingGroup))
     (s.(createError)) (s.(createSuccess)) v (s.(joinGroupFields))
     (s.(joinResponses)) (s.(isJoining)) (s.(joinError)) (s.(joinSuccess))
     (s.(isRunningDraw)) (s.(drawError)) (s.(drawSuccess))
     (s.(isDeletingGroup)) (s.(deleteError)).
Definition setJoinGroupFields (v : list CustomField.t) (s : t) : t :=
  mk (s.(user)) (s.(groups)) (s.(selectedGroupId)) (s.(newGroupName))
     (s.(newGroupDescription)) (s.(customFields)) (s.(isCreatingGroup))
     (s.(createError)) (s.(createSuccess)) (s.(joinCode)) v
     (s.(joinResponses)) (s.(isJoining)) (s.(joinError)) (s.(joinSuccess))
     (s.(isRunningDraw)) (s.(drawError)) (s.(drawSuccess))
     (s.(isDeletingGroup)) (s.(deleteError)).
Definition setJoinResponses (v : gmap (list N) (list N)) (s : t) : t :=
  mk (s.(user)) (s.(groups)) (s.(selectedGroupId)) (s.(newGroupName))
     (s.(newGroupDescription)) (s.(customFields)) (s.(isCreatingGroup))
     (s.(createError)) (s.(createSuccess)) (s.(joinCode))
     (s.(joinGroupFields)) v (s.(isJoining)) (s.(joinError))
     (s.(joinSuccess)) (s.(isRunningDraw)) (s.(drawError)) (s.(drawSuccess))
     (s.(isDeletingGroup)) (s.(deleteError)).
Definition setIsJoining (v : bool) (s : t) : t :=
  mk (s.(user)) (s.(groups)) (s.(selectedGroupId)) (s.(newGroupName))
     (s.(newGroupDescription)) (s.(customFields)) (s.(isCreatingGroup))
     (s.(createError)) (s.(createSuccess)) (s.(joinCode))
     (s.(joinGroupFields)) (s.(joinResponses)) v (s.(joinError))
     (s.(joinSuccess)) (s.(isRunningDraw)) (s.(drawError)) (s.(drawSuccess))
     (s.(isDeletingGroup)) (s.(deleteError)).
Definition setJoinError (v : option (list N)) (s : t) : t :=
  mk (s.(user)) (s.(groups)) (s.(selectedGroupId)) (s.(newGroupName))
     (s.(newGroupDescription)) (s.(customFields)) (s.(isCreatingGroup))
     (s.(createError)) (s.(createSuccess)) (s.(joinCode))
     (s.(joinGroupFields)) (s.(joinResponses)) (s.(isJoining)) v
     (s.(joinSuccess)) (s.(isRunningDraw)) (s.(drawError)) (s.(drawSuccess))
     (s.(isDeletingGroup)) (s.(deleteError)).
Definition setJoinSuccess (v : option (list N)) (s : t) : t :=
  mk (s.(user)) (s.(groups)) (s.(selectedGroupId)) (s.(newGroupName))
     (s.(newGroupDescription)) (s.(customFields)) (s.(isCreatingGroup))
     (s.(createError)) (s.(createSuccess)) (s.(joinCode))
     (s.(joinGroupFields)) (s.(joinResponses)) (s.(isJoining))
     (s.(joinError)) v (s.(isRunningDraw)) (s.(drawError)) (s.(drawSuccess))
     (s.(isDeletingGroup)) (s.(deleteError)).
Definition setIsRunningDraw (v : bool) (s : t) : t :=
  mk (s.(user)) (s.(groups)) (s.(selectedGroupId)) (s.(newGroupName))
     (s.(newGroupDescription)) (s.(customFields)) (s.(isCreatingGroup))
     (s.(createError)) (s.(createSuccess)) (s.(joinCode))
     (s.(joinGroupFields)) (s.(joinResponses)) (s.(isJoining))
     (s.(joinError)) (s.(joinSuccess)) v (s.(drawError)) (s.(drawSuccess))
     (s.(isDeletingGroup)) (s.(deleteError)).
Definition setDrawError (v : option (list N)) (s : t) : t :=
  mk (s.(user)) (s.(groups)) (s.(selectedGroupId)) (s.(newGroupName))
     (s.(newGroupDescription)) (s.(customFields)) (s.(isCreatingGroup))
     (s.(createError)) (s.(createSuccess)) (s.(joinCode))
     (s.(joinGroupFields)) (s.(joinResponses)) (s.(isJoining))
     (s.(joinError)) (s.(joinSuccess)) (s.(isRunningDraw)) v
     (s.(drawSuccess)) (s.(isDeletingGroup)) (s.(deleteError)).
Definition setDrawSuccess (v : option (list N)) (s : t) : t :=
  mk (s.(user)) (s.(groups)) (s.(selectedGroupId)) (s.(newGroupName))
     (s.(newGroupDescription)) (s.(customFields)) (s.(isCreatingGroup))
     (s.(createError)) (s.(createSuccess)) (s.(joinCode))
     (s.(joinGroupFields)) (s.(joinResponses)) (s.(isJoining))
     (s.(joinError)) (s.(joinSuccess)) (s.(isRunningDraw)) (s.(drawError)) v
     (s.(isDeletingGroup)) (s.(deleteError)).
Definition setIsDeletingGroup (v : bool) (s : t) : t :=
  mk (s.(user)) (s.(groups)) (s.(selectedGroupId)) (s.(newGroupName))
     (s.(newGroupDescription)) (s.(customFields)) (s.(isCreatingGroup))
     (s.(createError)) (s.(createSuccess)) (s.(joinCode))
     (s.(joinGroupFields)) (s.(joinResponses)) (s.(isJoining))
     (s.(joinError)) (s.(joinSuccess)) (s.(isRunningDraw)) (s.(drawError))
     (s.(drawSuccess)) v (s.(deleteError)).
Definition setDeleteError (v : option (list N)) (s : t) : t :=
  mk (s.(user)) (s.(groups)) (s.(selectedGroupId)) (s.(newGroupName))
     (s.(newGroupDescription)) (s.(customFields)) (s.(isCreatingGroup))
     (s.(createError)) (s.(createSuccess)) (s.(joinCode))
     (s.(joinGroupFields)) (s.(joinResponses)) (s.(isJoining))
     (s.(joinError)) (s.(joinSuccess)) (s.(isRunningDraw)) (s.(drawError))
     (s.(drawSuccess)) (s.(isDeletingGroup)) v.
End UI.

(** ** The store, the environment and the handler monad *)

(** The field updates the handlers pass to [updateDoc]. *)
Inductive FieldUpdate :=
| MemberIdsArrayUnion (uid : list N)
| MembersSet (uid : list N) (profile : MemberProfile.t)
| MemberResponsesSet (uid : list N) (responses : gmap (list N) (list N))
| AssignmentsSet (assignments : gmap (list N) Assignment.t)
| DrawRunAtServerTimestamp.

(** The calls made to the document store, in the order they are issued. *)
Inductive StoreCall :=
| GetDoc (docId : list N)
| UpdateDoc (docId : list N) (updates : list FieldUpdate)
| AddDoc (data : GroupDoc.t)
| DeleteDoc (docId : list N).

(** What the handlers cannot decide themselves: the outcomes of
    [Math.random], whether a store call is rejected (network, permission),
    the id and the time the store assigns, and the answer to
    [window.confirm]. The first four are indexed by the number of random
    draws, respectively store calls, made so far. The last is the
    [ignoreUndefinedProperties] setting of the Firestore instance, which is
    made in [./firebase], a module that is not among the sources; the SDK's
    default is [false]. *)
Record Env := {
  randomOutcome : nat → nat;
  storeRejects : nat → bool;
  autoId : nat → list N;
  serverTime : nat → Timestamp;
  confirmAnswer : bool;
  ignoreUndefinedProperties : bool
}.

Record World := {
  ui : UI.t;
  db : gmap (list N) GroupDoc.t;
  calls : list StoreCall;
  randomCalls : nat
}.

Definition withUi (f : UI.t → UI.t) (w : World) : World :=
  {| ui := f w.(ui); db := w.(db); calls := w.(calls);
     randomCalls := w.(randomCalls) |}.

Definition withDb (d : gmap (list N) GroupDoc.t) (w : World) : World :=
  {| ui := w.(ui); db := d; calls := w.(calls);
     randomCalls := w.(randomCalls) |}.

Definition logCall (c : StoreCall) (w : World) : World :=
  {| ui := w.(ui); db := w.(db); calls := w.(calls) ++ [c];
     randomCalls := w.(randomCalls) |}.

Definition tickRandom (w : World) : World :=
  {| ui := w.(ui); db := w.(db); calls := w.(calls);
     randomCalls := S w.(randomCalls) |}.

Inductive outcome (A : Type) :=
| Returned (a : A)
| Thrown.
Arguments Returned {A} a.
Arguments Thrown {A}.

Definition M (A : Type) : Type := World → outcome A * World.

#[export] Instance M_ret : MRet M := λ A a w, (Returned a, w).

#[export] Instance M_bind : MBind M := λ A B k m w,
  match m w with
  | (Returned a, w') => k a w'
  | (Thrown, w') => (Thrown, w')
  end.

Definition getState : M UI.t := λ w, (Returned w.(ui), w).

Definition setState (f : UI.t → UI.t) : M unit :=
  λ w, (Returned (), withUi f w).

(** [try { body } catch { handler }] *)
Definition tryCatch {A} (body handler : M A) : M A := λ w,
  match body w with
  | (Returned a, w') => (Returned a, w')
  | (Thrown, w') => handler w'
  end.

(** [try { body } catch { handler } finally { cleanup }] *)
Definition tryCatchFinally {A} (body handler : M A) (cleanup : M unit) : M A :=
  λ w,
  match tryCatch body handler w with
  | (r, w') =>
      match cleanup w' with
      | (Returned _, w'') => (r, w'')
      | (Thrown, w'') => (Thrown, w'')
      end
  end.

(** Firestore's [arrayUnion(uid)] applied to an array field, as its
    documentation describes it: the element is appended unless it is
    already present; a missing field becomes [[uid]]. *)
Definition arrayUnion (uid : list N) (field : option (list (list N)))
  : list (list N) :=
  match field with
  | Some l => if bool_decide (uid ∈ l) then l else l ++ [uid]
  | None => [uid]
  end.

Definition applyUpdate (now : Timestamp) (data : GroupDoc.t) (u : FieldUpdate)
  : GroupDoc.t :=
  match u with
  | MemberIdsArrayUnion uid =>
      GroupDoc.mk data.(GroupDoc.name) data.(GroupDoc.description)
        data.(GroupDoc.ownerId) data.(GroupDoc.ownerName)
        data.(GroupDoc.ownerPhotoURL)
        (Some (arrayUnion uid data.(GroupDoc.memberIds)))
        data.(GroupDoc.members) data.(GroupDoc.assignments)
        data.(GroupDoc.customFields) data.(GroupDoc.memberResponses)
        data.(GroupDoc.createdAt) data.(GroupDoc.drawRunAt)
  | MembersSet uid profile =>
      GroupDoc.mk data.(GroupDoc.name) data.(GroupDoc.description)
        data.(GroupDoc.ownerId) data.(GroupDoc.ownerName)
        data.(GroupDoc.ownerPhotoURL) data.(GroupDoc.memberIds)
        (Some (<[uid := profile]> (default ∅ data.(GroupDoc.members))))
        data.(GroupDoc.assignments)
        data.(GroupDoc.customFields) data.(GroupDoc.memberResponses)
        data.(GroupDoc.createdAt) data.(GroupDoc.drawRunAt)
  | MemberResponsesSet uid responses =>
      GroupDoc.mk data.(GroupDoc.name) data.(GroupDoc.description)
        data.(GroupDoc.ownerId) data.(GroupDoc.ownerName)
        data.(GroupDoc.ownerPhotoURL) data.(GroupDoc.memberIds)
        data.(GroupDoc.members) data.(GroupDoc.assignments)
        data.(GroupDoc.customFields)
        (Some (<[uid := responses]>
                 (default ∅ data.(GroupDoc.memberResponses))))
        data.(GroupDoc.createdAt) data.(GroupDoc.drawRunAt)
  | AssignmentsSet assignments =>
      GroupDoc.mk data.(GroupDoc.name) data.(GroupDoc.description)
        data.(GroupDoc.ownerId) data.(GroupDoc.ownerName)
        data.(GroupDoc.ownerPhotoURL) data.(GroupDoc.memberIds)
        data.(GroupDoc.members) (Some assignments)
        data.(GroupDoc.customFields) data.(GroupDoc.memberResponses)
        data.(GroupDoc.createdAt) data.(GroupDoc.drawRunAt)
  | DrawRunAtServerTimestamp =>
      GroupDoc.mk data.(GroupDoc.name) data.(GroupDoc.description)
        data.(GroupDoc.ownerId) data.(GroupDoc.ownerName)
        data.(GroupDoc.ownerPhotoURL) data.(GroupDoc.memberIds)
        data.(GroupDoc.members) data.(GroupDoc.assignments)
        data.(GroupDoc.customFields) data.(GroupDoc.memberResponses)
        data.(GroupDoc.createdAt) (Some now)
  end.

Definition stampCreatedAt (now : Timestamp) (data : GroupDoc.t) : GroupDoc.t :=
  GroupDoc.mk data.(GroupDoc.name) data.(GroupDoc.description)
    data.(GroupDoc.ownerId) data.(GroupDoc.ownerName)
    data.(GroupDoc.ownerPhotoURL) data.(GroupDoc.memberIds)
    data.(GroupDoc.members) data.(GroupDoc.assignments)
    data.(GroupDoc.customFields) data.(GroupDoc.memberResponses)
    (Some now) data.(GroupDoc.drawRunAt).

Section Handlers.

Variable env : Env.

(** *** Store primitives

    The Firestore calls of the handlers, by their documented behaviour. A
    document of [groups] is addressed by its id: the reference
    [doc(db, 'groups', id)] of the source is that id here, which is what it
    is for the ids the store hands out; what [doc] does with a string that a
    '/' splits is not followed, see [namesGroupDocument]. Every call is
    logged first. A call the environment rejects throws and
    leaves the collection as it was. [updateDoc] of a document that does not
    exist throws as well; a successful one applies all its field updates to
    the stored document in one step and touches no other field. [addDoc]
    stores the document under a new id and resolves the [serverTimestamp()]
    of [createdAt]; it validates the document first, and unless the
    instance is set to ignore them it throws on a field whose value is
    [undefined], before anything is sent. *)

Definition rejected (w : World) : bool := env.(storeRejects) (length w.(calls)).

Definition getDoc (docId : list N) : M (option GroupDoc.t) := λ w,
  let w' := logCall (GetDoc docId) w in
  if rejected w then (Thrown, w') else (Returned (w.(db) !! docId), w').

Definition updateDoc (docId : list N) (updates : list FieldUpdate) : M unit :=
  λ w,
  let w' := logCall (UpdateDoc docId updates) w in
  if rejected w then (Thrown, w') else
  match w.(db) !! docId with
  | Some data =>
      let now := env.(serverTime) (length w.(calls)) in
      (Returned (),
       withDb (<[docId := foldl (applyUpdate now) data updates]> w.(db)) w')
  | None => (Thrown, w')
  end.

(** Of the fields [handleCreateGroup] passes to [addDoc], [customFields]
    alone can be [undefined]: the others that are absent here ([assignments],
    [drawRunAt], a missing [ownerPhotoURL]) are passed as [null]. *)
Definition passesUndefined (data : GroupDoc.t) : bool :=
  bool_decide (data.(GroupDoc.customFields) = None).

Definition failsValidation (data : GroupDoc.t) : bool :=
  passesUndefined data && negb env.(ignoreUndefinedProperties).

Definition addDocThrows (data : GroupDoc.t) (w : World) : bool :=
  failsValidation data || rejected w.

Definition addDoc (data : GroupDoc.t) : M (list N) := λ w,
  if failsValidation data then (Thrown, w) else
  let w' := logCall (AddDoc data) w in
  if rejected w then (Thrown, w') else
  let docId := env.(autoId) (length w.(calls)) in
  let now := env.(serverTime) (length w.(calls)) in
  (Returned docId, withDb (<[docId := stampCreatedAt now data]> w.(db)) w').

Definition deleteDoc (docId : list N) : M unit := λ w,
  let w' := logCall (DeleteDoc docId) w in
  if rejected w then (Thrown, w') else
  (Returned (), withDb (delete docId w.(db)) w').

(** [Math.floor(Math.random() * bound)]: [Math.random] yields a number in
    [0, 1), so the result is an index below [bound], and every such index
    is a possible outcome. *)
Definition randomBelow (bound : nat) : M nat := λ w,
  (Returned (env.(randomOutcome) w.(randomCalls) mod bound), tickRandom w).

(** *** [shuffle] *)

(** [[copy[i], copy[j]] = [copy[j], copy[i]]]; both indices are below the
    length wherever [shuffle] uses it. *)
Definition swap {A} (copy : list A) (i j : nat) : list A :=
  match copy !! i, copy !! j with
  | Some ci, Some cj => <[j := ci]> (<[i := cj]> copy)
  | _, _ => copy
  end.

(** The loop [for (let i = copy.length - 1; i > 0; i -= 1)]. *)
Fixpoint shuffleLoop {A} (i : nat) (copy : list A) : M (list A) :=
  match i with
  | 0 => mret copy
  | S i' =>
      j ← randomBelow (i + 1);
      shuffleLoop i' (swap copy i j)
  end.

Definition shuffle {A} (items : list A) : M (list A) :=
  shuffleLoop (length items - 1) items.

(** *** The selection effect

    [useEffect(() => { if (selectedGroupId && groups.some(...)) return;
    setSelectedGroupId(groups[0]?.id ?? null); }, [groups, selectedGroupId])] *)

Definition isListed (groups : list Group.t) (groupId : list N) : bool :=
  bool_decide (Exists (λ group, group.(Group.id) = groupId) groups).

Definition resolveSelection (groups : list Group.t)
    (selectedGroupId : option (list N)) : option (list N) :=
  match selectedGroupId with
  | Some groupId =>
      if truthy groupId && isListed groups groupId then Some groupId
      else Group.id <$> head groups
  | None => Group.id <$> head groups
  end.

Definition selectionEffect : M unit :=
  st ← getState;
  setState (UI.setSelectedGroupId
              (resolveSelection st.(UI.groups) st.(UI.selectedGroupId))).

(** *** [loadGroupFields] *)

Definition initialResponses (fields : list CustomField.t)
  : gmap (list N) (list N) :=
  foldl (λ acc field, <[field.(CustomField.id) := []]> acc) ∅ fields.

Definition loadGroupFields : M unit :=
  st ← getState;
  let trimmedCode := trim st.(UI.joinCode) in
  if negb (truthy trimmedCode) || (length trimmedCode <? 20) then
    setState (UI.setJoinGroupFields []);;
    setState (UI.setJoinResponses ∅)
  else
    tryCatch
      (groupSnapshot ← getDoc trimmedCode;
       match groupSnapshot with
       | Some data =>
           let fields := default [] data.(GroupDoc.customFields) in
           setState (UI.setJoinGroupFields fields);;
           setState (UI.setJoinResponses (initialResponses fields))
       | None =>
           setState (UI.setJoinGroupFields []);;
           setState (UI.setJoinResponses ∅)
       end)
      (setState (UI.setJoinGroupFields []);;
       setState (UI.setJoinResponses ∅)).

(** *** [handleCreateGroup] *)

Definition newGroupData (user : User.t) (trimmedName : list N)
    (newGroupDescription : list N) (customFields : list CustomField.t)
  : GroupDoc.t :=
  {| GroupDoc.name := Some trimmedName;
     GroupDoc.description := Some (or_else (Some (trim newGroupDescription)) []);
     GroupDoc.ownerId := Some user.(User.uid);
     GroupDoc.ownerName := Some (getDisplayName user);
     GroupDoc.ownerPhotoURL := user.(User.photoURL);
     GroupDoc.memberIds := Some [user.(User.uid)];
     GroupDoc.members :=
       Some {[ user.(User.uid) :=
                 {| MemberProfile.displayName := getDisplayName user;
                    MemberProfile.photoURL := user.(User.photoURL) |} ]};
     GroupDoc.assignments := None;
     GroupDoc.customFields :=
       if 0 <? length customFields then Some customFields else None;
     GroupDoc.memberResponses := Some ∅;
     GroupDoc.createdAt := None;
     GroupDoc.drawRunAt := None |}.

Definition handleCreateGroup : M unit :=
  st ← getState;
  match st.(UI.user) with
  | None => mret ()
  | Some user =>
      setState (UI.setCreateError None);;
      setState (UI.setCreateSuccess None);;
      setState (UI.setIsCreatingGroup true);;
      let trimmedName := trim st.(UI.newGroupName) in
      if negb (truthy trimmedName) then
        setState (UI.setCreateError (Some (lit "Give your group a name first.")));;
        setState (UI.setIsCreatingGroup false)
      else
        tryCatchFinally
          (docRef ← addDoc (newGroupData user trimmedName
                              st.(UI.newGroupDescription) st.(UI.customFields));
           setState (UI.setNewGroupName []);;
           setState (UI.setNewGroupDescription []);;
           setState (UI.setCustomFields []);;
           setState (UI.setCreateSuccess
             (Some (lit "Group created! Share the join code with your Santas.")));;
           setState (UI.setSelectedGroupId (Some docRef)))
          (setState (UI.setCreateError
             (Some (lit "Unable to create that group. Please try again."))))
          (setState (UI.setIsCreatingGroup false))
  end.

(** *** [handleJoinGroup] *)

(** [!joinResponses[field.id] || !joinResponses[field.id].trim()] *)
Definition isMissing (joinResponses : gmap (list N) (list N))
    (field : CustomField.t) : bool :=
  match joinResponses !! field.(CustomField.id) with
  | Some response => negb (truthy response) || negb (truthy (trim response))
  | None => true
  end.

Definition missingFieldsMessage (missingFields : list CustomField.t) : list N :=
  lit "Please fill out all required fields: "
  ++ join (lit ", ") (CustomField.label <$> missingFields).

Definition handleJoinGroup : M unit :=
  st ← getState;
  match st.(UI.user) with
  | None => mret ()
  | Some user =>
      let trimmedCode := trim st.(UI.joinCode) in
      if negb (truthy trimmedCode) then
        setState (UI.setJoinError (Some (lit "Enter a join code.")));;
        setState (UI.setJoinSuccess None)
      else
        setState (UI.setJoinError None);;
        setState (UI.setJoinSuccess None);;
        setState (UI.setIsJoining true);;
        tryCatchFinally
          (groupSnapshot ← getDoc trimmedCode;
           match groupSnapshot with
           | None =>
               setState (UI.setJoinError
                 (Some (lit "No group found with that code.")));;
               setState (UI.setIsJoining false)
           | Some data =>
               let memberIds := default [] data.(GroupDoc.memberIds) in
               if bool_decide (user.(User.uid) ∈ memberIds) then
                 setState (UI.setJoinError
                   (Some (lit "You are already part of that group.")));;
                 setState (UI.setIsJoining false)
               else
                 let customFields := default [] data.(GroupDoc.customFields) in
                 let missingFields :=
                   filter (λ field, isMissing st.(UI.joinResponses) field = true)
                     customFields in
                 if (0 <? length customFields) && (0 <? length missingFields)
                 then
                   setState (UI.setJoinError
                     (Some (missingFieldsMessage missingFields)));;
                   setState (UI.setIsJoining false)
                 else
                   updateDoc trimmedCode
                     [ MemberIdsArrayUnion user.(User.uid);
                       MembersSet user.(User.uid)
                         {| MemberProfile.displayName := getDisplayName user;
                            MemberProfile.photoURL := user.(User.photoURL) |};
                       MemberResponsesSet user.(User.uid)
                         st.(UI.joinResponses) ];;
                   setState (UI.setJoinSuccess
                     (Some (lit "Welcome aboard! You have joined the group.")));;
                   setState (UI.setJoinCode []);;
                   setState (UI.setJoinGroupFields []);;
                   setState (UI.setJoinResponses ∅);;
                   setState (UI.setSelectedGroupId (Some trimmedCode))
           end)
          (setState (UI.setJoinError
             (Some (lit "Could not join that group. Please double-check the code."))))
          (setState (UI.setIsJoining false))
  end.

(** *** [handleRunDraw] *)

Definition assignmentFor (group : Group.t) (receiverId : list N)
  : Assignment.t :=
  let receiverProfile := group.(Group.members) !! receiverId in
  {| Assignment.recipientId := receiverId;
     Assignment.recipientName :=
       default (lit "Mystery Santa")
         (MemberProfile.displayName <$> receiverProfile);
     Assignment.recipientPhotoURL :=
       receiverProfile ≫= MemberProfile.photoURL |}.

(** One iteration of the loop over [index]; both reads are in range for
    every [index] below the length. *)
Definition assignStep (group : Group.t) (shuffledMembers : list (list N))
    (assignments : gmap (list N) Assignment.t) (index : nat)
  : gmap (list N) Assignment.t :=
  match shuffledMembers !! index,
        shuffledMembers !! ((index + 1) mod length shuffledMembers) with
  | Some giverId, Some receiverId =>
      <[giverId := assignmentFor group receiverId]> assignments
  | _, _ => assignments
  end.

Definition buildAssignments (group : Group.t)
    (shuffledMembers : list (list N)) : gmap (list N) Assignment.t :=
  foldl (assignStep group shuffledMembers) ∅
    (seq 0 (length shuffledMembers)).

(** The negation of the guard [!user || user.uid !== group.ownerId]. *)
Definition isOwner (user : option User.t) (group : Group.t) : bool :=
  match user with
  | Some u => bool_decide (u.(User.uid) = group.(Group.ownerId))
  | None => false
  end.

Definition handleRunDraw (group : Group.t) : M unit :=
  st ← getState;
  if negb (isOwner st.(UI.user) group) then mret () else
  setState (UI.setDrawError None);;
  setState (UI.setDrawSuccess None);;
  if length group.(Group.memberIds) <? 2 then
    setState (UI.setDrawError
      (Some (lit "You need at least two members to run a draw.")))
  else
    setState (UI.setIsRunningDraw true);;
    tryCatchFinally
      (shuffledMembers ← shuffle group.(Group.memberIds);
       let assignments := buildAssignments group shuffledMembers in
       updateDoc group.(Group.id)
         [AssignmentsSet assignments; DrawRunAtServerTimestamp];;
       setState (UI.setDrawSuccess
         (Some (lit "Draw completed! Everyone now has someone to surprise."))))
      (setState (UI.setDrawError
         (Some (lit "Something went wrong running the draw. Please try again."))))
      (setState (UI.setIsRunningDraw false)).

(** *** [handleDeleteGroup] *)

Definition handleDeleteGroup (group : Group.t) : M unit :=
  st ← getState;
  if negb (isOwner st.(UI.user) group) then mret () else
  if negb env.(confirmAnswer) then mret () else
  setState (UI.setDeleteError None);;
  setState (UI.setIsDeletingGroup true);;
  tryCatch
    (deleteDoc group.(Group.id);;
     setState (UI.setSelectedGroupId None))
    (setState (UI.setDeleteError
       (Some (lit "Unable to delete the group. Please try again.")));;
     setState (UI.setIsDeletingGroup false)).

End Handlers.

(** * Vocabulary of the properties *)

(** Two worlds that differ at most in the number of random draws made. *)
Definition sameButRandom (w w' : World) : Prop :=
  w'.(ui) = w.(ui) ∧ w'.(db) = w.(db) ∧ w'.(calls) = w.(calls).

(** The transposition of the indices [i] and [j]. *)
Definition transpose (i j k : nat) : nat :=
  if decide (k = j) then i else if decide (k = i) then j else k.

(** The recipient the map gives to a giver, and the chain of givers and
    recipients that starts at a member: [walk a k m] lists the first [k]
    members met from [m] on and stops early where the map has no entry. *)
Definition recipientOf (assignments : gmap (list N) Assignment.t)
    (giverId : list N) : option (list N) :=
  Assignment.recipientId <$> assignments !! giverId.

Fixpoint walk (assignments : gmap (list N) Assignment.t) (steps : nat)
    (memberId : list N) : list (list N) :=
  match steps with
  | 0 => []
  | S steps' =>
      memberId ::
        match recipientOf assignments memberId with
        | Some receiverId => walk assignments steps' receiverId
        | None => []
        end
  end.

(** The map after the first [m] iterations of the assignment loop. *)
Definition assignmentsUpTo (group : Group.t) (shuffled : list (list N))
    (m : nat) : gmap (list N) Assignment.t :=
  foldl (assignStep group shuffled) ∅ (seq 0 m).

(** What the draw promises about the map it commits for the member list
    [memberIds]. *)
Record SingleCycle (memberIds : list (list N))
    (assignments : gmap (list N) Assignment.t) : Prop := {
  givers_are_the_members :
    ∀ m, is_Some (assignments !! m) ↔ m ∈ memberIds;
  recipients_are_members :
    ∀ m r, recipientOf assignments m = Some r → r ∈ memberIds;
  recipients_distinct :
    ∀ m1 m2 r, recipientOf assignments m1 = Some r →
               recipientOf assignments m2 = Some r → m1 = m2;
  every_member_receives :
    ∀ r, r ∈ memberIds →
         ∃ m, m ∈ memberIds ∧ recipientOf assignments m = Some r;
  nobody_draws_themselves :
    ∀ m, recipientOf assignments m ≠ Some m;
  one_cycle :
    ∀ m, m ∈ memberIds →
         ∃ visited, walk assignments (S (length memberIds)) m = visited ++ [m]
                    ∧ visited ≡ₚ memberIds
}.

(** The membership invariant of the collection. *)
Definition MemberIdsDistinct (store : gmap (list N) GroupDoc.t) : Prop :=
  map_Forall (λ _ data, NoDup (default [] data.(GroupDoc.memberIds))) store.

(** A computation preserves the invariant when the collection it leaves
    satisfies it whenever the one it started from did, whether it returns
    or throws. *)
Definition preserves {A} (m : M A) : Prop :=
  ∀ w, MemberIdsDistinct w.(db) → MemberIdsDistinct (m w).2.(db).

(** The state in which the draw proper starts, and the state it ends in
    given how the single [updateDoc] went. *)
Definition drawStarted (w : World) : World :=
  withUi (UI.setIsRunningDraw true)
    (withUi (UI.setDrawSuccess None) (withUi (UI.setDrawError None) w)).

Definition drawFinished (committed : outcome unit * World) : World :=
  withUi (UI.setIsRunningDraw false)
    match committed with
    | (Returned _, w) =>
        withUi (UI.setDrawSuccess
          (Some (lit "Draw completed! Everyone now has someone to surprise."))) w
    | (Thrown, w) =>
        withUi (UI.setDrawError
          (Some (lit "Something went wrong running the draw. Please try again."))) w
    end.

(** A custom field is unanswered when the responses have no entry for it or
    an entry that is blank after trimming. *)
Definition blankResponse (responses : gmap (list N) (list N))
    (field : CustomField.t) : Prop :=
  match responses !! field.(CustomField.id) with
  | Some response => trim response = []
  | None => True
  end.

#[export] Instance blankResponse_dec responses field :
  Decision (blankResponse responses field) :=
  match responses !! field.(CustomField.id) as entry
    return Decision match entry with
                    | Some response => trim response = []
                    | None => True
                    end
  with
  | Some response => decide (trim response = [])
  | None => left I
  end.

(** The state in which the lookup of a join starts. *)
Definition joinStarted (w : World) : World :=
  withUi (UI.setIsJoining true)
    (withUi (UI.setJoinSuccess None) (withUi (UI.setJoinError None) w)).

(** A refused join: the lookup was made, the message is shown. *)
Definition joinRefused (message : list N) (w : World) : World :=
  withUi (UI.setIsJoining false)
    (withUi (UI.setIsJoining false)
       (withUi (UI.setJoinError (Some message))
          (logCall (GetDoc (trim w.(ui).(UI.joinCode))) (joinStarted w)))).

(** A code that is the id of a document of [groups]. The handlers build
    their reference with [doc(db, 'groups', code)], which reads the code as
    a path: without a '/' (code unit 47) in it, a code that is not empty is
    one segment, the id of a document of the collection; a code that a '/'
    splits is refused there, or names a document elsewhere, and is none of
    the codes the store hands out. *)
Definition namesGroupDocument (code : list N) : Prop :=
  code ≠ [] ∧ 47%N ∉ code.

(** The operations a client can perform on the store. *)
Inductive Operation :=
| Select
| LoadJoinSchema
| Create
| Join
| RunDraw (group : Group.t)
| Delete (group : Group.t).

Definition perform (env : Env) (op : Operation) : M unit :=
  match op with
  | Select => selectionEffect
  | LoadJoinSchema => loadGroupFields env
  | Create => handleCreateGroup env
  | Join => handleJoinGroup env
  | RunDraw group => handleRunDraw env group
  | Delete group => handleDeleteGroup env group
  end.


(** What C4 asks of an owner-only action that is refused: the refusal is
    reported in the action's error cell and the collection is as before. *)
Definition refusedWithError (error : UI.t → option (list N)) (before : World)
    (run : outcome unit * World) : Prop :=
  is_Some (error run.2.(ui)) ∧ run.2.(db) = before.(db).

(** ** A running example: the office party *)

Definition person (uid name : string) : User.t :=
  {| User.uid := lit uid; User.displayName := Some (lit name);
     User.email := None; User.phoneNumber := None; User.photoURL := None |}.

Definition alice : User.t := person "alice" "Alice".
Definition bob : User.t := person "bob" "Bob".
Definition carol : User.t := person "carol" "Carol".
Definition dave : User.t := person "dave" "Dave".

Definition profile (user : User.t) : MemberProfile.t :=
  {| MemberProfile.displayName := getDisplayName user;
     MemberProfile.photoURL := user.(User.photoURL) |}.

Definition wishList : CustomField.t :=
  {| CustomField.id := lit "field_1700000000000_k3j9x2m1q";
     CustomField.label := lit "Wish list";
     CustomField.placeholder := None |}.

Definition shirtSize : CustomField.t :=
  {| CustomField.id := lit "field_1700000000001_a8s7d6f5g";
     CustomField.label := lit "Shirt size";
     CustomField.placeholder := None |}.

Definition officeId : list N := lit "Gq7xT2mLw9ZbC4RkVh1s".

(** Alice owns the group; Bob and Carol have joined, and Carol's profile is
    missing from [members]. *)
Definition officeDoc : GroupDoc.t :=
  {| GroupDoc.name := Some (lit "Office Party");
     GroupDoc.description := Some [];
     GroupDoc.ownerId := Some (lit "alice");
     GroupDoc.ownerName := Some (lit "Alice");
     GroupDoc.ownerPhotoURL := None;
     GroupDoc.memberIds := Some [lit "alice"; lit "bob"; lit "carol"];
     GroupDoc.members :=
       Some (<[lit "alice" := profile alice]>
               (<[lit "bob" := profile bob]> ∅));
     GroupDoc.assignments := None;
     GroupDoc.customFields := Some [wishList; shirtSize];
     GroupDoc.memberResponses := Some ∅;
     GroupDoc.createdAt := Some 1700000000000%N;
     GroupDoc.drawRunAt := None |}.

Definition office : Group.t := toGroup officeId officeDoc.

(** A group whose only member is its owner, with no custom fields. *)
Definition soloId : list N := lit "Hd5uN8qKe2XoP7LmYc3a".

Definition soloDoc : GroupDoc.t :=
  stampCreatedAt 1700000000100%N (newGroupData alice (lit "Solo") [] []).

Definition solo : Group.t := toGroup soloId soloDoc.

(** A group whose [memberIds] repeats an id, which the membership invariant
    rules out: no operation of the client produces such a document. *)
Definition twice : Group.t :=
  {| Group.id := lit "Rw4eJ6tBz1MsQ9GhUf0p";
     Group.name := lit "Twice";
     Group.description := None;
     Group.ownerId := lit "alice";
     Group.ownerName := lit "Alice";
     Group.ownerPhotoURL := None;
     Group.memberIds := [lit "alice"; lit "alice"];
     Group.members := {[ lit "alice" := profile alice ]};
     Group.assignments := None;
     Group.customFields := [];
     Group.memberResponses := ∅;
     Group.createdAt := None;
     Group.drawRunAt := None |}.

(** An environment in which the store accepts every call, on an instance
    with the SDK's default settings. *)
Definition env0 : Env :=
  {| randomOutcome := λ k, 2 * k + 1;
     storeRejects := λ _, false;
     autoId := λ _, lit "Zk3PfW8sYd0aHn5VtB2c";
     serverTime := λ k, (1700000000500 + N.of_nat k)%N;
     confirmAnswer := true;
     ignoreUndefinedProperties := false |}.

(** The world of a signed-in user who sees the two groups above and has
    typed nothing yet. *)
Definition signedIn (user : User.t) : World :=
  {| ui := UI.mk (Some user) [office; solo] (Some officeId) [] [] [] false
             None None [] [] ∅ false None None false None None false None;
     db := <[officeId := officeDoc]> {[ soloId := soloDoc ]};
     calls := [];
     randomCalls := 0 |}.

(** The same with the join form filled in. *)
Definition joining (user : User.t) (code : string)
    (responses : gmap (list N) (list N)) : World :=
  withUi (UI.setJoinResponses responses)
    (withUi (UI.setJoinCode (lit code)) (signedIn user)).

(** The same with a group name typed into the create form. *)
Definition naming (user : User.t) (name : string) : World :=
  withUi (UI.setNewGroupName (lit name)) (signedIn user).

(** * The rest of the component

    The parts of [App] around the handlers: the ordering of the groups a
    snapshot delivers, the derived values the page shows, and the editors of
    the two forms. *)

(** ** The snapshot listener

    [a.createdAt?.toMillis?.() ?? 0] *)
Definition createdMillis (group : Group.t) : N :=
  default 0%N group.(Group.createdAt).

(** [.sort((a, b) => bTime - aTime)]. [Array.prototype.sort] is stable, and
    with this comparator its result is the one stable arrangement by
    decreasing time; it is computed here by insertion from the right, a
    group going in front of the first group that is not newer than it. *)
Fixpoint insertNewestFirst (group : Group.t) (sorted : list Group.t)
  : list Group.t :=
  match sorted with
  | [] => [group]
  | other :: rest =>
      if (createdMillis group <? createdMillis other)%N
      then other :: insertNewestFirst group rest
      else group :: sorted
  end.

Definition sortNewestFirst (groups : list Group.t) : list Group.t :=
  foldr insertNewestFirst [] groups.

(** [nextGroups], from the documents of the snapshot in the order the
    snapshot lists them. *)
Definition nextGroups (docs : list (list N * GroupDoc.t)) : list Group.t :=
  sortNewestFirst ((λ doc, toGroup doc.1 doc.2) <$> docs).

Definition newerOrSame (a b : Group.t) : Prop :=
  (createdMillis b ≤ createdMillis a)%N.

(** ** Derived values of a render *)

(** [groups.find((group) => group.id === selectedGroupId) ?? null] *)
Definition selectedGroup (groups : list Group.t)
    (selectedGroupId : option (list N)) : option Group.t :=
  match selectedGroupId with
  | Some groupId =>
      List.find (λ group, bool_decide (group.(Group.id) = groupId)) groups
  | None => None
  end.

(** [selectedGroup?.assignments?.[user.uid] ?? null] *)
Definition myAssignment (selected : option Group.t) (uid : list N)
  : option Assignment.t :=
  match selected with
  | Some group =>
      match group.(Group.assignments) with
      | Some assignments => assignments !! uid
      | None => None
      end
  | None => None
  end.

(** The answers shown under a member of the roster and under the match:
    one line, label and response, for every custom field the member gave a
    non-empty response to; nothing when the group has no custom fields or
    the member has no responses. *)
Definition shownResponses (group : Group.t) (memberId : list N)
  : list (list N * list N) :=
  if 0 <? length group.(Group.customFields) then
    match group.(Group.memberResponses) !! memberId with
    | Some responses =>
        omap (λ field,
                match responses !! field.(CustomField.id) with
                | Some response =>
                    if truthy response
                    then Some (field.(CustomField.label), response)
                    else None
                | None => None
                end)
          group.(Group.customFields)
    | None => []
    end
  else [].

(** ** The editors of the forms *)

(** '+ Add field': [[...customFields, { id: generateFieldId(), label: '',
    placeholder: '' }]]. The generated id depends on the clock and on
    [Math.random]; it is an input here. *)
Definition addCustomField (newId : list N) (fields : list CustomField.t)
  : list CustomField.t :=
  fields ++ [ {| CustomField.id := newId; CustomField.label := [];
                 CustomField.placeholder := Some [] |} ].

(** [updated[index] = { ...field, label: value }], where [field] is the
    field rendered at [index]. *)
Definition editFieldLabel (index : nat) (value : list N)
    (fields : list CustomField.t) : list CustomField.t :=
  match fields !! index with
  | Some field =>
      <[index := {| CustomField.id := field.(CustomField.id);
                    CustomField.label := value;
                    CustomField.placeholder := field.(CustomField.placeholder) |}]>
        fields
  | None => fields
  end.

(** [updated[index] = { ...field, placeholder: value }] *)
Definition editFieldPlaceholder (index : nat) (value : list N)
    (fields : list CustomField.t) : list CustomField.t :=
  match fields !! index with
  | Some field =>
      <[index := {| CustomField.id := field.(CustomField.id);
                    CustomField.label := field.(CustomField.label);
                    CustomField.placeholder := Some value |}]>
        fields
  | None => fields
  end.

(** 'Remove': [customFields.filter((_, i) => i !== index)] *)
Definition removeCustomField (index : nat) (fields : list CustomField.t)
  : list CustomField.t :=
  (filter (λ entry, entry.1 ≠ index) (imap pair fields)).*2.

(** Typing into a field of the join form:
    [setJoinResponses({ ...joinResponses, [field.id]: value })] *)
Definition typeJoinResponse (field : CustomField.t) (value : list N) : M unit :=
  st ← getState;
  setState (UI.setJoinResponses
              (<[field.(CustomField.id) := value]> st.(UI.joinResponses))).

(** Typing into the join code input: [setJoinCode(event.target.value)];
    the effect on [joinCode] then runs [loadGroupFields], provided the value
    has changed. *)
Definition typeJoinCode (env : Env) (value : list N) : M unit :=
  st ← getState;
  setState (UI.setJoinCode value);;
  if bool_decide (value = st.(UI.joinCode)) then mret ()
  else loadGroupFields env.

(** A user answering every field of the loaded schema in turn, [answer]
    giving the text typed into the field of each id. *)
Definition answerFields (answer : list N → list N)
    (fields : list CustomField.t) : M unit :=
  foldr (λ field rest,
           typeJoinResponse field (answer field.(CustomField.id));; rest)
    (mret ()) fields.

Definition answerAll (answer : list N → list N) : M unit :=
  st ← getState;
  answerFields answer st.(UI.joinGroupFields).

(** ** What an operation may do to the collection *)

(** The document a join leaves. *)
Definition joinedDoc (user : User.t) (responses : gmap (list N) (list N))
    (data : GroupDoc.t) : GroupDoc.t :=
  {| GroupDoc.name := data.(GroupDoc.name);
     GroupDoc.description := data.(GroupDoc.description);
     GroupDoc.ownerId := data.(GroupDoc.ownerId);
     GroupDoc.ownerName := data.(GroupDoc.ownerName);
     GroupDoc.ownerPhotoURL := data.(GroupDoc.ownerPhotoURL);
     GroupDoc.memberIds :=
       Some (default [] data.(GroupDoc.memberIds) ++ [user.(User.uid)]);
     GroupDoc.members :=
       Some (<[user.(User.uid) :=
                 {| MemberProfile.displayName := getDisplayName user;
                    MemberProfile.photoURL := user.(User.photoURL) |}]>
               (default ∅ data.(GroupDoc.members)));
     GroupDoc.assignments := data.(GroupDoc.assignments);
     GroupDoc.customFields := data.(GroupDoc.customFields);
     GroupDoc.memberResponses :=
       Some (<[user.(User.uid) := responses]>
               (default ∅ data.(GroupDoc.memberResponses)));
     GroupDoc.createdAt := data.(GroupDoc.createdAt);
     GroupDoc.drawRunAt := data.(GroupDoc.drawRunAt) |}.

(** The document a draw leaves. *)
Definition drawnDoc (assignments : gmap (list N) Assignment.t)
    (now : Timestamp) (data : GroupDoc.t) : GroupDoc.t :=
  {| GroupDoc.name := data.(GroupDoc.name);
     GroupDoc.description := data.(GroupDoc.description);
     GroupDoc.ownerId := data.(GroupDoc.ownerId);
     GroupDoc.ownerName := data.(GroupDoc.ownerName);
     GroupDoc.ownerPhotoURL := data.(GroupDoc.ownerPhotoURL);
     GroupDoc.memberIds := data.(GroupDoc.memberIds);
     GroupDoc.members := data.(GroupDoc.members);
     GroupDoc.assignments := Some assignments;
     GroupDoc.customFields := data.(GroupDoc.customFields);
     GroupDoc.memberResponses := data.(GroupDoc.memberResponses);
     GroupDoc.createdAt := data.(GroupDoc.createdAt);
     GroupDoc.drawRunAt := Some now |}.

(** The writes of the client, each with the operation and the user it
    takes: nothing; a new document; a member added to a document they were
    not in; the assignments of a document replaced by its owner's draw; a
    document removed by its owner. *)
Inductive StoreEffect (env : Env) (w : World) (op : Operation)
  : gmap (list N) GroupDoc.t → Prop :=
| effect_none :
    StoreEffect env w op w.(db)
| effect_created user :
    op = Create →
    w.(ui).(UI.user) = Some user →
    trim w.(ui).(UI.newGroupName) ≠ [] →
    StoreEffect env w op
      (<[env.(autoId) (length w.(calls)) :=
           stampCreatedAt (env.(serverTime) (length w.(calls)))
             (newGroupData user (trim w.(ui).(UI.newGroupName))
                w.(ui).(UI.newGroupDescription) w.(ui).(UI.customFields))]>
         w.(db))
| effect_joined user data :
    op = Join →
    w.(ui).(UI.user) = Some user →
    w.(db) !! trim w.(ui).(UI.joinCode) = Some data →
    user.(User.uid) ∉ default [] data.(GroupDoc.memberIds) →
    Forall (λ field, ¬ blankResponse w.(ui).(UI.joinResponses) field)
      (default [] data.(GroupDoc.customFields)) →
    StoreEffect env w op
      (<[trim w.(ui).(UI.joinCode) :=
           joinedDoc user w.(ui).(UI.joinResponses) data]> w.(db))
| effect_drawn group user data shuffled :
    op = RunDraw group →
    w.(ui).(UI.user) = Some user →
    user.(User.uid) = group.(Group.ownerId) →
    w.(db) !! group.(Group.id) = Some data →
    shuffled ≡ₚ group.(Group.memberIds) →
    StoreEffect env w op
      (<[group.(Group.id) :=
           drawnDoc (buildAssignments group shuffled)
             (env.(serverTime) (length w.(calls))) data]> w.(db))
| effect_deleted group user :
    op = Delete group →
    w.(ui).(UI.user) = Some user →
    user.(User.uid) = group.(Group.ownerId) →
    env.(confirmAnswer) = true →
    StoreEffect env w op (delete group.(Group.id) w.(db)).


(** Every member id has a profile. *)
Definition MembersHaveProfiles (store : gmap (list N) GroupDoc.t) : Prop :=
  map_Forall
    (λ _ data,
       ∀ m, m ∈ default [] data.(GroupDoc.memberIds) →
            is_Some (default ∅ data.(GroupDoc.members) !! m))
    store.

(** ** The running example, continued *)

(** A group of two. *)
Definition duo : Group.t :=
  {| Group.id := lit "Tm2cV9xEa6LoK4PyNb8d";
     Group.name := lit "Duo";
     Group.description := None;
     Group.ownerId := lit "alice";
     Group.ownerName := lit "Alice";
     Group.ownerPhotoURL := None;
     Group.memberIds := [lit "alice"; lit "bob"];
     Group.members :=
       <[lit "alice" := profile alice]> {[ lit "bob" := profile bob ]};
     Group.assignments := None;
     Group.customFields := [];
     Group.memberResponses := ∅;
     Group.createdAt := None;
     Group.drawRunAt := None |}.

(** An environment in which the store rejects every call, and one in
    which the user declines the confirmation prompt. *)
Definition envDown : Env :=
  {| randomOutcome := env0.(randomOutcome);
     storeRejects := λ _, true;
     autoId := env0.(autoId);
     serverTime := env0.(serverTime);
     confirmAnswer := true;
     ignoreUndefinedProperties := false |}.

Definition envDeclined : Env :=
  {| randomOutcome := env0.(randomOutcome);
     storeRejects := env0.(storeRejects);
     autoId := env0.(autoId);
     serverTime := env0.(serverTime);
     confirmAnswer := false;
     ignoreUndefinedProperties := false |}.

(** Dave's answers to the two fields of the office party. *)
Definition daveResponses : gmap (list N) (list N) :=
  <[shirtSize.(CustomField.id) := lit "M"]>
    {[ wishList.(CustomField.id) := lit "Books" ]}.

(** The world of a user who sees only the group Alice is alone in. *)
Definition signedInSolo (user : User.t) : World :=
  {| ui := UI.mk (Some user) [solo] (Some soloId) [] [] [] false
             None None [] [] ∅ false None None false None None false None;
     db := {[ soloId := soloDoc ]};
     calls := [];
     randomCalls := 0 |}.

(** * Properties *)

(** ** Running computations *)

Lemma sameButRandom_refl w : sameButRandom w w.
Proof. by repeat split. Qed.

Lemma sameButRandom_tick w w' :
  sameButRandom (tickRandom w) w' → sameButRandom w w'.
Proof. by intros (? & ? & ?). Qed.

(** ** [shuffle] returns a permutation of its argument *)

Section Shuffle.
Context {A : Type}.
Implicit Types (copy items : list A) (i j k : nat).

Lemma transpose_involutive i j k : transpose i j (transpose i j k) = k.
Proof. unfold transpose. repeat case_decide; congruence. Qed.

Lemma transpose_inj i j : Inj (=) (=) (transpose i j).
Proof.
  intros k1 k2 Heq.
  by rewrite <-(transpose_involutive i j k1), Heq, transpose_involutive.
Qed.

Lemma swap_lookup copy i j k :
  i < length copy → j < length copy →
  swap copy i j !! k = copy !! transpose i j k.
Proof.
  intros Hi Hj. unfold swap, transpose.
  destruct (lookup_lt_is_Some_2 copy i Hi) as [ci Hci].
  destruct (lookup_lt_is_Some_2 copy j Hj) as [cj Hcj].
  rewrite Hci, Hcj.
  destruct (decide (k = j)) as [->|Hkj].
  - rewrite list_lookup_insert_eq; [done|]. by rewrite length_insert.
  - rewrite list_lookup_insert_ne by done.
    destruct (decide (k = i)) as [->|Hki].
    + by rewrite list_lookup_insert_eq.
    + by rewrite list_lookup_insert_ne.
Qed.

Lemma swap_length copy i j : length (swap copy i j) = length copy.
Proof.
  unfold swap. destruct (copy !! i), (copy !! j); [|done..].
  by rewrite !length_insert.
Qed.

Lemma swap_Permutation copy i j :
  i < length copy → j < length copy → swap copy i j ≡ₚ copy.
Proof.
  intros Hi Hj. apply Permutation_inj. split; [apply swap_length|].
  exists (transpose i j). split; [apply transpose_inj|].
  intros k. by apply swap_lookup.
Qed.

Lemma shuffleLoop_Permutation env i copy w :
  i < length copy ∨ i = 0 →
  ∃ shuffled w',
    shuffleLoop env i copy w = (Returned shuffled, w')
    ∧ shuffled ≡ₚ copy ∧ sameButRandom w w'.
Proof.
  revert copy w. induction i as [|i IH]; intros copy w Hi.
  - exists copy, w. split; [done|]. split; [done|apply sameButRandom_refl].
  - destruct Hi as [Hi|?]; [|done].
    cbn [shuffleLoop]. unfold mbind, M_bind, randomBelow.
    set (j := env.(randomOutcome) w.(randomCalls) `mod` (S i + 1)).
    assert (j < S i + 1) as Hj by (apply Nat.mod_upper_bound; lia).
    destruct (IH (swap copy (S i) j) (tickRandom w))
      as (shuffled & w' & Hrun & Hperm & Hsame).
    { left. rewrite swap_length. lia. }
    exists shuffled, w'. split; [done|]. split.
    + rewrite Hperm. apply swap_Permutation; lia.
    + by apply sameButRandom_tick.
Qed.

Lemma shuffle_Permutation env items w :
  ∃ shuffled w',
    shuffle env items w = (Returned shuffled, w')
    ∧ shuffled ≡ₚ items ∧ sameButRandom w w'.
Proof.
  apply shuffleLoop_Permutation. destruct items; cbn; [by right|left; lia].
Qed.

End Shuffle.

(** ** The assignment loop *)

Section AssignmentLoop.
Variable group : Group.t.
Variable shuffled : list (list N).

Local Abbreviation n := (length shuffled).
Local Abbreviation upTo := (assignmentsUpTo group shuffled).

Lemma upTo_S m : upTo (S m) = assignStep group shuffled (upTo m) m.
Proof. unfold assignmentsUpTo. by rewrite seq_S, foldl_app. Qed.

Lemma next_index_lt i : i < n → (i + 1) `mod` n < n.
Proof. intros. apply Nat.mod_upper_bound. lia. Qed.

Lemma assignStep_in_range acc i :
  i < n →
  ∃ giverId receiverId,
    shuffled !! i = Some giverId
    ∧ shuffled !! ((i + 1) `mod` n) = Some receiverId
    ∧ assignStep group shuffled acc i
      = <[giverId := assignmentFor group receiverId]> acc.
Proof.
  intros Hi.
  destruct (lookup_lt_is_Some_2 shuffled i Hi) as [giverId Hg].
  destruct (lookup_lt_is_Some_2 shuffled _ (next_index_lt i Hi))
    as [receiverId Hr].
  exists giverId, receiverId. unfold assignStep. by rewrite Hg, Hr.
Qed.

(** Every entry was written by some iteration: its key is a shuffled
    member and its record is the one built for the member after it. *)
Lemma upTo_entry m k a :
  m ≤ n → upTo m !! k = Some a →
  ∃ i r, i < m ∧ shuffled !! i = Some k
         ∧ shuffled !! ((i + 1) `mod` n) = Some r
         ∧ a = assignmentFor group r.
Proof.
  induction m as [|m IH]; intros Hm Hk.
  - unfold assignmentsUpTo in Hk. cbn in Hk. by rewrite lookup_empty in Hk.
  - rewrite upTo_S in Hk.
    destruct (assignStep_in_range (upTo m) m) as (gi & ri & Hg & Hr & Hstep);
      [lia|].
    rewrite Hstep in Hk. clear Hstep.
    destruct (decide (gi = k)) as [->|Hne].
    + rewrite lookup_insert_eq in Hk. injection Hk as <-.
      exists m, ri. split_and!; [lia|done..].
    + rewrite lookup_insert_ne in Hk by done.
      destruct IH as (i & r & ? & ? & ? & ?); [lia|done|].
      exists i, r. split_and!; [lia|done..].
Qed.

(** Every member met so far has an entry. *)
Lemma upTo_is_Some m i k :
  m ≤ n → i < m → shuffled !! i = Some k → is_Some (upTo m !! k).
Proof.
  induction m as [|m IH]; intros Hm Hi Hk; [lia|].
  rewrite upTo_S.
  destruct (assignStep_in_range (upTo m) m) as (gi & ri & Hg & Hr & ->);
    [lia|].
  rewrite lookup_insert_is_Some.
  destruct (decide (gi = k)); [by left|right]. split; [done|].
  apply IH; [lia| |done].
  destruct (decide (i = m)) as [->|]; [congruence|lia].
Qed.

(** With distinct members, each keeps the record of its own iteration. *)
Lemma upTo_lookup m i k :
  NoDup shuffled → m ≤ n → i < m → shuffled !! i = Some k →
  ∃ r, shuffled !! ((i + 1) `mod` n) = Some r
       ∧ upTo m !! k = Some (assignmentFor group r).
Proof.
  intros Hnd. induction m as [|m IH]; intros Hm Hi Hk; [lia|].
  rewrite upTo_S.
  destruct (assignStep_in_range (upTo m) m) as (gi & ri & Hg & Hr & ->);
    [lia|].
  destruct (decide (i = m)) as [->|Him].
  - assert (gi = k) as -> by congruence.
    exists ri. by rewrite lookup_insert_eq.
  - assert (gi ≠ k) as Hne.
    { intros ->. by pose proof (NoDup_lookup _ _ _ _ Hnd Hk Hg). }
    destruct IH as (r & ? & ?); [lia..|done|].
    exists r. by rewrite lookup_insert_ne.
Qed.

Lemma buildAssignments_upTo : buildAssignments group shuffled = upTo n.
Proof. done. Qed.

Lemma buildAssignments_entry k a :
  buildAssignments group shuffled !! k = Some a →
  k ∈ shuffled ∧ ∃ r, r ∈ shuffled ∧ a = assignmentFor group r.
Proof.
  rewrite buildAssignments_upTo. intros Hk.
  destruct (upTo_entry n k a) as (i & r & ? & ? & ? & ?); [done..|].
  split; [by eapply list_elem_of_lookup_2|].
  exists r. split; [by eapply list_elem_of_lookup_2|done].
Qed.

Lemma buildAssignments_is_Some k :
  is_Some (buildAssignments group shuffled !! k) ↔ k ∈ shuffled.
Proof.
  split.
  - intros [a Ha]. by apply buildAssignments_entry in Ha as [? _].
  - intros [i Hi]%list_elem_of_lookup_1.
    apply (upTo_is_Some n i); [done| |done]. by eapply lookup_lt_Some.
Qed.

Lemma buildAssignments_recipient i k :
  NoDup shuffled → shuffled !! i = Some k →
  recipientOf (buildAssignments group shuffled) k
  = shuffled !! ((i + 1) `mod` n).
Proof.
  intros Hnd Hk. unfold recipientOf.
  destruct (upTo_lookup n i k) as (r & -> & Hr);
    [done|done|by eapply lookup_lt_Some|done|].
  rewrite buildAssignments_upTo. by rewrite Hr.
Qed.

End AssignmentLoop.

(** ** The committed map is one cycle through all members *)

Lemma mod_succ_inj n i j :
  i < n → j < n → (i + 1) `mod` n = (j + 1) `mod` n → i = j.
Proof.
  intros Hi Hj.
  destruct (decide (i + 1 = n)) as [Hin|Hin];
    destruct (decide (j + 1 = n)) as [Hjn|Hjn].
  - lia.
  - rewrite Hin, Nat.Div0.mod_same, (Nat.mod_small (j + 1)) by lia. lia.
  - rewrite Hjn, Nat.Div0.mod_same, (Nat.mod_small (i + 1)) by lia. lia.
  - rewrite !Nat.mod_small by lia. lia.
Qed.

Lemma mod_succ_ne n i : 2 ≤ n → i < n → (i + 1) `mod` n ≠ i.
Proof.
  intros Hn Hi. destruct (decide (i + 1 = n)) as [Hin|Hin].
  - rewrite Hin, Nat.Div0.mod_same. lia.
  - rewrite Nat.mod_small by lia. lia.
Qed.

Lemma mod_pred_succ n j : j < n → ((j + n - 1) `mod` n + 1) `mod` n = j.
Proof.
  intros Hj. rewrite Nat.Div0.add_mod_idemp_l.
  replace (j + n - 1 + 1) with (j + 1 * n) by lia.
  rewrite Nat.Div0.mod_add. by apply Nat.mod_small.
Qed.

Lemma rotate_nat_add_mod base offset len :
  rotate_nat_add base offset len = (base + offset) `mod` len.
Proof.
  unfold rotate_nat_add.
  by rewrite <-Nat2Z.inj_add, <-Nat2Z.inj_mod, Nat2Z.id.
Qed.

Lemma rotate_Permutation {A} k (l : list A) : rotate k l ≡ₚ l.
Proof.
  unfold rotate. rewrite Permutation_app_comm. by rewrite take_drop.
Qed.

Section Cycle.
Variable group : Group.t.
Variable shuffled : list (list N).
Hypothesis shuffled_NoDup : NoDup shuffled.

Local Abbreviation n := (length shuffled).
Local Abbreviation a := (buildAssignments group shuffled).

Lemma walk_length steps i m :
  shuffled !! i = Some m → length (walk a steps m) = steps.
Proof.
  revert i m. induction steps as [|steps IH]; intros i m Hm; [done|].
  cbn [walk length]. f_equal.
  rewrite (buildAssignments_recipient group shuffled i m) by done.
  assert (i < length shuffled) as Hi by by eapply lookup_lt_Some.
  destruct (lookup_lt_is_Some_2 shuffled _
              (next_index_lt shuffled i Hi)) as [r Hr].
  rewrite Hr. by eapply IH.
Qed.

Lemma walk_lookup steps i m j :
  shuffled !! i = Some m → j < steps →
  walk a steps m !! j = shuffled !! ((i + j) `mod` n).
Proof.
  revert i m j. induction steps as [|steps IH]; intros i m j Hm Hj; [lia|].
  assert (i < n) as Hi by by eapply lookup_lt_Some.
  cbn [walk]. destruct j as [|j].
  - cbn. by rewrite Nat.add_0_r, Nat.mod_small.
  - cbn.
    rewrite (buildAssignments_recipient group shuffled i m) by done.
    destruct (lookup_lt_is_Some_2 shuffled _
                (next_index_lt shuffled i Hi)) as [r Hr].
    rewrite Hr. erewrite IH; [|done|lia].
    by rewrite Nat.Div0.add_mod_idemp_l, <-Nat.add_assoc.
Qed.

Lemma walk_once_around i m :
  shuffled !! i = Some m → walk a (S n) m = rotate i shuffled ++ [m].
Proof.
  intros Hm. assert (i < n) as Hi by by eapply lookup_lt_Some.
  apply list_eq. intros j.
  destruct (decide (j < n)) as [Hj|Hj].
  - rewrite (walk_lookup _ i) by (done || lia).
    rewrite lookup_app_l by (rewrite length_rotate; done).
    rewrite lookup_rotate_r by done. by rewrite rotate_nat_add_mod.
  - destruct (decide (j = n)) as [->|Hjn].
    + rewrite (walk_lookup _ i) by (done || lia).
      rewrite lookup_app_r by (rewrite length_rotate; done).
      rewrite length_rotate, Nat.sub_diag. cbn.
      replace (i + n) with (i + 1 * n) by lia.
      by rewrite Nat.Div0.mod_add, Nat.mod_small.
    + rewrite !lookup_ge_None_2; [done| |].
      * rewrite length_app, length_rotate. cbn. lia.
      * rewrite (walk_length _ i) by done. lia.
Qed.

Lemma recipientOf_giver m r : recipientOf a m = Some r → m ∈ shuffled.
Proof.
  unfold recipientOf. intros Hr.
  apply (proj1 (buildAssignments_is_Some group shuffled m)).
  by destruct (a !! m).
Qed.

Lemma buildAssignments_SingleCycle : 2 ≤ n → SingleCycle shuffled a.
Proof.
  intros Hn. split.
  - intros m. apply buildAssignments_is_Some.
  - intros m r Hr. unfold recipientOf in Hr.
    destruct (a !! m) as [rec|] eqn:Hm; [|done].
    apply buildAssignments_entry in Hm as (_ & r' & ? & ->).
    by injection Hr as <-.
  - intros m1 m2 r H1 H2.
    pose proof (recipientOf_giver _ _ H1) as [i1 Hi1]%list_elem_of_lookup_1.
    pose proof (recipientOf_giver _ _ H2) as [i2 Hi2]%list_elem_of_lookup_1.
    rewrite (buildAssignments_recipient _ _ i1) in H1 by done.
    rewrite (buildAssignments_recipient _ _ i2) in H2 by done.
    pose proof (NoDup_lookup _ _ _ _ shuffled_NoDup H1 H2) as Heq.
    apply mod_succ_inj in Heq; [|by eapply lookup_lt_Some..].
    congruence.
  - intros r [j Hj]%list_elem_of_lookup_1.
    assert (j < n) as Hjn by by eapply lookup_lt_Some.
    assert ((j + n - 1) `mod` n < n) as Hlt
      by (apply Nat.mod_upper_bound; lia).
    destruct (lookup_lt_is_Some_2 shuffled _ Hlt) as [m Hm].
    exists m. split; [by eapply list_elem_of_lookup_2|].
    rewrite (buildAssignments_recipient _ _ _ _ shuffled_NoDup Hm).
    by rewrite mod_pred_succ.
  - intros m Hr.
    pose proof (recipientOf_giver _ _ Hr) as [i Hi]%list_elem_of_lookup_1.
    rewrite (buildAssignments_recipient _ _ i) in Hr by done.
    pose proof (NoDup_lookup _ _ _ _ shuffled_NoDup Hr Hi) as Heq.
    by apply mod_succ_ne in Heq; [|done|by eapply lookup_lt_Some].
  - intros m [i Hi]%list_elem_of_lookup_1.
    exists (rotate i shuffled). split; [by apply walk_once_around|].
    apply rotate_Permutation.
Qed.

End Cycle.

Lemma SingleCycle_Permutation memberIds shuffled assignments :
  shuffled ≡ₚ memberIds →
  SingleCycle shuffled assignments → SingleCycle memberIds assignments.
Proof.
  intros Hperm [H1 H2 H3 H4 H5 H6]. split.
  - intros m. by rewrite <-Hperm.
  - intros m r ?. rewrite <-Hperm. by eapply H2.
  - done.
  - intros r. rewrite <-Hperm. intros Hr.
    destruct (H4 r Hr) as (m & ? & ?). exists m. by rewrite <-Hperm.
  - done.
  - intros m. rewrite <-Hperm. intros Hm.
    destruct (H6 m Hm) as (visited & ? & ?). exists visited.
    rewrite <-Hperm. done.
Qed.

(** ** Membership: an id appears at most once in [memberIds] *)

Lemma toGroup_memberIds_NoDup store docId data :
  MemberIdsDistinct store → store !! docId = Some data →
  NoDup (toGroup docId data).(Group.memberIds).
Proof. intros Hstore Hdata. by apply (Hstore docId). Qed.

Lemma arrayUnion_NoDup uid field :
  NoDup (default [] field) → NoDup (arrayUnion uid field).
Proof.
  destruct field as [l|]; cbn; intros Hl.
  - case_bool_decide as Hin; [done|].
    apply NoDup_app. split_and!; [done| |apply NoDup_singleton].
    intros x Hx ->%list_elem_of_singleton. done.
  - apply NoDup_singleton.
Qed.

Lemma applyUpdate_NoDup now data u :
  NoDup (default [] data.(GroupDoc.memberIds)) →
  NoDup (default [] (applyUpdate now data u).(GroupDoc.memberIds)).
Proof. destruct u; cbn; [apply arrayUnion_NoDup|done..]. Qed.

Lemma applyUpdates_NoDup now updates data :
  NoDup (default [] data.(GroupDoc.memberIds)) →
  NoDup (default [] (foldl (applyUpdate now) data updates).(GroupDoc.memberIds)).
Proof.
  revert data. induction updates as [|u updates IH]; intros data Hd; [done|].
  cbn. by apply IH, applyUpdate_NoDup.
Qed.

Section Preservation.
Variable env : Env.

Lemma preserves_ret {A} (a : A) : preserves (mret a).
Proof. by intros w. Qed.

Lemma preserves_bind {A B} (m : M A) (k : A → M B) :
  preserves m → (∀ a, preserves (k a)) → preserves (m ≫= k).
Proof.
  intros Hm Hk w Hw. unfold mbind, M_bind.
  specialize (Hm w Hw). destruct (m w) as [[a|] w']; cbn in *; [|done].
  by apply Hk.
Qed.

Lemma preserves_getState : preserves getState.
Proof. by intros w. Qed.

Lemma preserves_setState f : preserves (setState f).
Proof. by intros w. Qed.

Lemma preserves_tryCatch {A} (body handler : M A) :
  preserves body → preserves handler → preserves (tryCatch body handler).
Proof.
  intros Hb Hh w Hw. unfold tryCatch.
  specialize (Hb w Hw). destruct (body w) as [[a|] w']; cbn in *; [done|].
  by apply Hh.
Qed.

Lemma preserves_tryCatchFinally {A} (body handler : M A) cleanup :
  preserves body → preserves handler → preserves cleanup →
  preserves (tryCatchFinally body handler cleanup).
Proof.
  intros Hb Hh Hc w Hw. unfold tryCatchFinally.
  pose proof (preserves_tryCatch body handler Hb Hh w Hw) as Ht.
  destruct (tryCatch body handler w) as [r w']. cbn in Ht.
  specialize (Hc w' Ht). by destruct (cleanup w') as [[[]|] w''].
Qed.

Lemma preserves_getDoc docId : preserves (getDoc env docId).
Proof. intros w Hw. unfold getDoc. by destruct (rejected env w). Qed.

Lemma preserves_updateDoc docId updates :
  preserves (updateDoc env docId updates).
Proof.
  intros w Hw. unfold updateDoc. destruct (rejected env w); [done|].
  destruct (w.(db) !! docId) as [data|] eqn:Hdata; [|done]. cbn.
  apply map_Forall_insert_2; [|done].
  apply applyUpdates_NoDup. by apply (Hw docId).
Qed.

Lemma preserves_addDoc data :
  NoDup (default [] data.(GroupDoc.memberIds)) → preserves (addDoc env data).
Proof.
  intros Hd w Hw. unfold addDoc.
  destruct (failsValidation env data); [done|].
  destruct (rejected env w); [done|]. cbn.
  by apply map_Forall_insert_2.
Qed.

Lemma preserves_deleteDoc docId : preserves (deleteDoc env docId).
Proof.
  intros w Hw. unfold deleteDoc. destruct (rejected env w); [done|]. cbn.
  by apply map_Forall_delete.
Qed.

Lemma preserves_shuffle {A} (items : list A) : preserves (shuffle env items).
Proof.
  intros w Hw.
  destruct (shuffle_Permutation env items w) as (s & w' & -> & _ & _ & Hdb & _).
  cbn. by rewrite Hdb.
Qed.

Ltac preserves_step :=
  first
    [ apply preserves_ret | apply preserves_getState
    | apply preserves_setState | apply preserves_getDoc
    | apply preserves_updateDoc | apply preserves_deleteDoc
    | apply preserves_shuffle
    | apply preserves_bind; [|intros ?]
    | apply preserves_tryCatchFinally | apply preserves_tryCatch
    | match goal with
      | |- preserves (if ?b then _ else _) => destruct b
      | |- preserves (match ?x with _ => _ end) => destruct x
      end ].

Lemma preserves_selectionEffect : preserves selectionEffect.
Proof. unfold selectionEffect. repeat preserves_step. Qed.

Lemma preserves_loadGroupFields : preserves (loadGroupFields env).
Proof. unfold loadGroupFields. repeat preserves_step. Qed.

Lemma preserves_handleCreateGroup : preserves (handleCreateGroup env).
Proof.
  unfold handleCreateGroup. repeat preserves_step.
  apply preserves_addDoc. cbn. apply NoDup_singleton.
Qed.

Lemma preserves_handleJoinGroup : preserves (handleJoinGroup env).
Proof. unfold handleJoinGroup. repeat preserves_step. Qed.

Lemma preserves_handleRunDraw group : preserves (handleRunDraw env group).
Proof. unfold handleRunDraw. repeat preserves_step. Qed.

Lemma preserves_handleDeleteGroup group :
  preserves (handleDeleteGroup env group).
Proof. unfold handleDeleteGroup. repeat preserves_step. Qed.

End Preservation.

(** ** The draw *)

Lemma truthy_true s : s ≠ [] → truthy s = true.
Proof. by destruct s. Qed.

Lemma truthy_false s : truthy s = false ↔ s = [].
Proof. by destruct s. Qed.

Lemma isOwner_true user group u :
  user = Some u → u.(User.uid) = group.(Group.ownerId) →
  isOwner user group = true.
Proof. intros -> Hu. cbn. by apply bool_decide_eq_true_2. Qed.

Lemma isOwner_false user group :
  (∀ u, user = Some u → u.(User.uid) ≠ group.(Group.ownerId)) →
  isOwner user group = false.
Proof.
  intros Hu. destruct user as [u|]; [|done]. cbn.
  apply bool_decide_eq_false_2. by apply Hu.
Qed.

Lemma handleRunDraw_run env group w u :
  w.(ui).(UI.user) = Some u →
  u.(User.uid) = group.(Group.ownerId) →
  2 ≤ length group.(Group.memberIds) →
  ∃ shuffled w2,
    shuffled ≡ₚ group.(Group.memberIds)
    ∧ sameButRandom (drawStarted w) w2
    ∧ handleRunDraw env group w
      = (Returned (),
         drawFinished
           (updateDoc env group.(Group.id)
              [AssignmentsSet (buildAssignments group shuffled);
               DrawRunAtServerTimestamp] w2)).
Proof.
  intros Hu Ho Hn.
  destruct (shuffle_Permutation env group.(Group.memberIds) (drawStarted w))
    as (shuffled & w2 & Hrun & Hperm & Hsame).
  exists shuffled, w2. split; [done|]. split; [done|].
  unfold handleRunDraw, mbind, M_bind, getState.
  rewrite (isOwner_true _ _ u) by done. cbn [negb].
  unfold setState at 1 2.
  destruct (Nat.ltb_spec (length (Group.memberIds group)) 2) as [?|_]; [lia|].
  unfold setState at 1. unfold tryCatchFinally, tryCatch.
  fold (drawStarted w). rewrite Hrun. unfold drawFinished.
  by destruct (updateDoc _ _ _ w2) as [[[]|] w3].
Qed.

Lemma updateDoc_calls env docId updates w :
  (updateDoc env docId updates w).2.(calls)
  = w.(calls) ++ [UpdateDoc docId updates].
Proof.
  unfold updateDoc. destruct (rejected env w); [done|].
  by destruct (w.(db) !! docId).
Qed.

Lemma drawFinished_calls committed :
  (drawFinished committed).(calls) = committed.2.(calls).
Proof. by destruct committed as [[[]|] w]. Qed.

Lemma drawFinished_db committed :
  (drawFinished committed).(db) = committed.2.(db).
Proof. by destruct committed as [[[]|] w]. Qed.

Lemma updateDoc_accepted env docId updates w data :
  env.(storeRejects) (length w.(calls)) = false →
  w.(db) !! docId = Some data →
  updateDoc env docId updates w
  = (Returned (),
     withDb (<[docId := foldl (applyUpdate (env.(serverTime) (length w.(calls))))
                          data updates]> w.(db))
       (logCall (UpdateDoc docId updates) w)).
Proof. intros Hok Hdata. unfold updateDoc, rejected. by rewrite Hok, Hdata. Qed.

(** C1. For every group with at least two member ids, and for every outcome
    of the random draws, the owner's [handleRunDraw] makes exactly one store
    call, an update of the group's document whose [assignments] map is a
    bijection of [memberIds] onto itself without fixed points in which the
    giver-to-recipient chain from any member visits every member once and
    then returns to that member; when the store accepts the update, that map
    is what the document holds. The member ids are those of a stored group,
    in which no id is repeated: that is the membership invariant, which
    every operation keeps ([MemberIdsDistinct], C5). *)
Theorem runDraw_single_cycle env group w u :
  w.(ui).(UI.user) = Some u →
  u.(User.uid) = group.(Group.ownerId) →
  2 ≤ length group.(Group.memberIds) →
  NoDup group.(Group.memberIds) →
  ∃ assignments,
    (handleRunDraw env group w).2.(calls)
    = w.(calls) ++ [UpdateDoc group.(Group.id)
                      [AssignmentsSet assignments; DrawRunAtServerTimestamp]]
    ∧ SingleCycle group.(Group.memberIds) assignments
    ∧ (env.(storeRejects) (length w.(calls)) = false →
       is_Some (w.(db) !! group.(Group.id)) →
       (handleRunDraw env group w).2.(db) !! group.(Group.id)
         ≫= GroupDoc.assignments = Some assignments).
Proof.
  intros Hu Ho Hn Hnd.
  destruct (handleRunDraw_run env group w u Hu Ho Hn)
    as (shuffled & w2 & Hperm & (Hui & Hdb & Hcalls) & ->).
  exists (buildAssignments group shuffled). cbn [snd]. split_and!.
  - by rewrite drawFinished_calls, updateDoc_calls, Hcalls.
  - apply (SingleCycle_Permutation _ shuffled); [done|].
    apply buildAssignments_SingleCycle.
    + by rewrite Hperm.
    + by rewrite Hperm.
  - intros Hok [data Hdata].
    rewrite drawFinished_db.
    rewrite (updateDoc_accepted _ _ _ _ data);
      [|by rewrite Hcalls|by rewrite Hdb].
    cbn. by rewrite lookup_insert_eq.
Qed.

(** C9. When the owner's draw goes through (at least two member ids, the
    store accepts the call and the document exists), the handler makes one
    store call, a single update carrying both [assignments] and
    [drawRunAt]; the stored document afterwards has a map built from
    scratch from the shuffled members as its [assignments] (whatever it
    held before, and with no key outside [memberIds]), the server time as
    its [drawRunAt], and every other field as before; no other document
    changes. *)
Theorem runDraw_commit_frame env group w u data :
  w.(ui).(UI.user) = Some u →
  u.(User.uid) = group.(Group.ownerId) →
  2 ≤ length group.(Group.memberIds) →
  env.(storeRejects) (length w.(calls)) = false →
  w.(db) !! group.(Group.id) = Some data →
  ∃ shuffled,
    shuffled ≡ₚ group.(Group.memberIds)
    ∧ (∀ k, k ∉ group.(Group.memberIds) →
            buildAssignments group shuffled !! k = None)
    ∧ (handleRunDraw env group w).2.(calls)
      = w.(calls) ++ [UpdateDoc group.(Group.id)
                        [AssignmentsSet (buildAssignments group shuffled);
                         DrawRunAtServerTimestamp]]
    ∧ (handleRunDraw env group w).2.(db)
      = <[group.(Group.id) :=
            {| GroupDoc.name := data.(GroupDoc.name);
               GroupDoc.description := data.(GroupDoc.description);
               GroupDoc.ownerId := data.(GroupDoc.ownerId);
               GroupDoc.ownerName := data.(GroupDoc.ownerName);
               GroupDoc.ownerPhotoURL := data.(GroupDoc.ownerPhotoURL);
               GroupDoc.memberIds := data.(GroupDoc.memberIds);
               GroupDoc.members := data.(GroupDoc.members);
               GroupDoc.assignments := Some (buildAssignments group shuffled);
               GroupDoc.customFields := data.(GroupDoc.customFields);
               GroupDoc.memberResponses := data.(GroupDoc.memberResponses);
               GroupDoc.createdAt := data.(GroupDoc.createdAt);
               GroupDoc.drawRunAt :=
                 Some (env.(serverTime) (length w.(calls))) |}]> w.(db).
Proof.
  intros Hu Ho Hn Hok Hdata.
  destruct (handleRunDraw_run env group w u Hu Ho Hn)
    as (shuffled & w2 & Hperm & (Hui & Hdb & Hcalls) & ->).
  exists shuffled. cbn [snd]. split_and!.
  - done.
  - intros k Hk. apply eq_None_not_Some.
    rewrite buildAssignments_is_Some. by rewrite Hperm.
  - by rewrite drawFinished_calls, updateDoc_calls, Hcalls.
  - rewrite drawFinished_db.
    rewrite (updateDoc_accepted _ _ _ _ data);
      [|by rewrite Hcalls|by rewrite Hdb].
    cbn. by rewrite Hdb, Hcalls.
Qed.

(** C10. The owner's draw over at least two member ids always returns
    normally and hands the store a map with a record for every member; a
    record whose recipient has no profile in [members] carries the name
    'Mystery Santa' and no avatar; when no member id is repeated, every
    member without a profile is the recipient of such a record; and when
    the store accepts the update of an existing document, the draw ends
    with its success message and without a draw error. *)
Theorem runDraw_missing_profile env group w u :
  w.(ui).(UI.user) = Some u →
  u.(User.uid) = group.(Group.ownerId) →
  2 ≤ length group.(Group.memberIds) →
  (handleRunDraw env group w).1 = Returned ()
  ∧ (∃ assignments,
      (handleRunDraw env group w).2.(calls)
      = w.(calls) ++ [UpdateDoc group.(Group.id)
                        [AssignmentsSet assignments; DrawRunAtServerTimestamp]]
      ∧ (∀ m, m ∈ group.(Group.memberIds) → is_Some (assignments !! m))
      ∧ (∀ giver record,
           assignments !! giver = Some record →
           group.(Group.members) !! record.(Assignment.recipientId) = None →
           record.(Assignment.recipientName) = lit "Mystery Santa"
           ∧ record.(Assignment.recipientPhotoURL) = None)
      ∧ (NoDup group.(Group.memberIds) →
         ∀ r, r ∈ group.(Group.memberIds) →
              group.(Group.members) !! r = None →
              ∃ giver,
                assignments !! giver
                = Some {| Assignment.recipientId := r;
                          Assignment.recipientName := lit "Mystery Santa";
                          Assignment.recipientPhotoURL := None |}))
  ∧ (env.(storeRejects) (length w.(calls)) = false →
     is_Some (w.(db) !! group.(Group.id)) →
     (handleRunDraw env group w).2.(ui).(UI.drawError) = None
     ∧ (handleRunDraw env group w).2.(ui).(UI.drawSuccess)
       = Some (lit "Draw completed! Everyone now has someone to surprise.")).
Proof.
  intros Hu Ho Hn.
  destruct (handleRunDraw_run env group w u Hu Ho Hn)
    as (shuffled & w2 & Hperm & (Hui & Hdb & Hcalls) & ->).
  split; [done|]. split.
  - exists (buildAssignments group shuffled). cbn [snd]. split_and!.
    + by rewrite drawFinished_calls, updateDoc_calls, Hcalls.
    + intros m Hm. apply buildAssignments_is_Some. by rewrite Hperm.
    + intros giver record Hrec Hnone.
      apply buildAssignments_entry in Hrec as (_ & r & _ & ->).
      cbn in *. by rewrite Hnone.
    + intros Hnd r Hr Hnone.
      assert (NoDup shuffled) as Hnd' by by rewrite Hperm.
      assert (2 ≤ length shuffled) as Hn' by by rewrite Hperm.
      destruct (every_member_receives _ _
                  (buildAssignments_SingleCycle group shuffled Hnd' Hn') r)
        as (giver & _ & Hgiver); [by rewrite Hperm|].
      exists giver. unfold recipientOf in Hgiver.
      destruct (buildAssignments group shuffled !! giver) as [record|] eqn:Hrec;
        [|done].
      apply buildAssignments_entry in Hrec as (_ & r' & _ & ->).
      cbn in Hgiver. injection Hgiver as ->.
      unfold assignmentFor. by rewrite Hnone.
  - intros Hok [data Hdata]. cbn [snd].
    rewrite (updateDoc_accepted _ _ _ _ data);
      [|by rewrite Hcalls|by rewrite Hdb].
    cbn. by rewrite Hui.
Qed.

(** C2. When the owner runs the draw on a group with fewer than two member
    ids, the handler returns with the message 'You need at least two members
    to run a draw.' as draw error and without any store call: the collection,
    and with it the group's [assignments], is as before, and so is the
    client's list of groups. *)
Theorem runDraw_insufficient_members env group w u :
  w.(ui).(UI.user) = Some u →
  u.(User.uid) = group.(Group.ownerId) →
  length group.(Group.memberIds) < 2 →
  (handleRunDraw env group w).1 = Returned ()
  ∧ (handleRunDraw env group w).2.(ui).(UI.drawError)
    = Some (lit "You need at least two members to run a draw.")
  ∧ (handleRunDraw env group w).2.(ui).(UI.drawSuccess) = None
  ∧ (handleRunDraw env group w).2.(calls) = w.(calls)
  ∧ (handleRunDraw env group w).2.(db) = w.(db)
  ∧ (handleRunDraw env group w).2.(ui).(UI.groups) = w.(ui).(UI.groups).
Proof.
  intros Hu Ho Hn.
  unfold handleRunDraw, mbind, M_bind, getState.
  rewrite (isOwner_true _ _ u) by done. cbn [negb].
  unfold setState at 1 2.
  destruct (Nat.ltb_spec (length (Group.memberIds group)) 2) as [_|?]; [|lia].
  done.
Qed.

(** C4, amended. When the signed-in user is not the group's owner, or
    nobody is signed in, [handleRunDraw] and [handleDeleteGroup] return at
    their first guard: no store call is made, no document is changed or
    removed, and no state cell, error messages included, is written. *)
Theorem non_owner_is_ignored env group w :
  (∀ u, w.(ui).(UI.user) = Some u → u.(User.uid) ≠ group.(Group.ownerId)) →
  handleRunDraw env group w = (Returned (), w)
  ∧ handleDeleteGroup env group w = (Returned (), w).
Proof.
  intros Hu. unfold handleRunDraw, handleDeleteGroup, mbind, M_bind, getState.
  by rewrite (isOwner_false _ _ Hu).
Qed.

(** ** Joining a group *)

Lemma isMissing_blankResponse responses field :
  isMissing responses field = true ↔ blankResponse responses field.
Proof.
  unfold isMissing, blankResponse.
  destruct (responses !! _) as [response|]; [|done].
  destruct response as [|c response]; [done|]. cbn [truthy negb orb].
  rewrite negb_true_iff. apply truthy_false.
Qed.

Lemma missingFields_blank responses (fields : list CustomField.t) :
  filter (λ field, isMissing responses field = true) fields
  = filter (blankResponse responses) fields.
Proof. apply list_filter_iff. intros. apply isMissing_blankResponse. Qed.

Lemma filter_Exists_length {A} (P : A → Prop) `{!∀ x, Decision (P x)} l :
  Exists P l → (0 <? length l) && (0 <? length (filter P l)) = true.
Proof.
  intros (x & Hx & HP)%Exists_exists.
  assert (x ∈ filter P l) as Hf by by apply list_elem_of_filter.
  destruct l; [by apply elem_of_nil in Hx|].
  destruct (filter P _); [by apply elem_of_nil in Hf|done].
Qed.

Lemma handleJoinGroup_already_member env w u data :
  w.(ui).(UI.user) = Some u →
  trim w.(ui).(UI.joinCode) ≠ [] →
  env.(storeRejects) (length w.(calls)) = false →
  w.(db) !! trim w.(ui).(UI.joinCode) = Some data →
  u.(User.uid) ∈ default [] data.(GroupDoc.memberIds) →
  handleJoinGroup env w
  = (Returned (), joinRefused (lit "You are already part of that group.") w).
Proof.
  intros Hu Hc Hok Hdb Hin.
  unfold handleJoinGroup, mbind, M_bind, getState.
  rewrite Hu, truthy_true by done. cbn [negb].
  unfold tryCatchFinally, tryCatch, setState, getDoc, rejected.
  cbn [withUi logCall ui db calls].
  by rewrite Hok, Hdb, bool_decide_eq_true_2.
Qed.

Lemma handleJoinGroup_incomplete env w u data :
  w.(ui).(UI.user) = Some u →
  trim w.(ui).(UI.joinCode) ≠ [] →
  env.(storeRejects) (length w.(calls)) = false →
  w.(db) !! trim w.(ui).(UI.joinCode) = Some data →
  u.(User.uid) ∉ default [] data.(GroupDoc.memberIds) →
  Exists (blankResponse w.(ui).(UI.joinResponses))
    (default [] data.(GroupDoc.customFields)) →
  handleJoinGroup env w
  = (Returned (),
     joinRefused
       (missingFieldsMessage
          (filter (blankResponse w.(ui).(UI.joinResponses))
             (default [] data.(GroupDoc.customFields)))) w).
Proof.
  intros Hu Hc Hok Hdb Hin Hblank.
  unfold handleJoinGroup, mbind, M_bind, getState.
  rewrite Hu, truthy_true by done. cbn [negb].
  unfold tryCatchFinally, tryCatch, setState, getDoc, rejected.
  cbn [withUi logCall ui db calls].
  rewrite Hok, Hdb, bool_decide_eq_false_2 by done.
  rewrite missingFields_blank.
  by rewrite filter_Exists_length.
Qed.

Lemma filter_Forall_not_length {A} (P : A → Prop) `{!∀ x, Decision (P x)} l :
  Forall (λ x, ¬ P x) l → (0 <? length l) && (0 <? length (filter P l)) = false.
Proof.
  intros Hall. replace (filter P l) with (@nil A); [by rewrite andb_false_r|].
  symmetry. induction Hall as [|x l Hx _ IH]; [done|].
  by rewrite filter_cons_False.
Qed.

(** A join that goes through: one update adds the user to the stored
    [memberIds], which did not contain them, and records their profile and
    their responses. *)
Lemma handleJoinGroup_joined env w u data :
  w.(ui).(UI.user) = Some u →
  trim w.(ui).(UI.joinCode) ≠ [] →
  env.(storeRejects) (length w.(calls)) = false →
  env.(storeRejects) (S (length w.(calls))) = false →
  w.(db) !! trim w.(ui).(UI.joinCode) = Some data →
  u.(User.uid) ∉ default [] data.(GroupDoc.memberIds) →
  Forall (λ field, ¬ blankResponse w.(ui).(UI.joinResponses) field)
    (default [] data.(GroupDoc.customFields)) →
  (handleJoinGroup env w).1 = Returned ()
  ∧ (handleJoinGroup env w).2.(ui).(UI.joinError) = None
  ∧ (handleJoinGroup env w).2.(db)
    = <[trim w.(ui).(UI.joinCode) :=
          {| GroupDoc.name := data.(GroupDoc.name);
             GroupDoc.description := data.(GroupDoc.description);
             GroupDoc.ownerId := data.(GroupDoc.ownerId);
             GroupDoc.ownerName := data.(GroupDoc.ownerName);
             GroupDoc.ownerPhotoURL := data.(GroupDoc.ownerPhotoURL);
             GroupDoc.memberIds :=
               Some (default [] data.(GroupDoc.memberIds) ++ [u.(User.uid)]);
             GroupDoc.members :=
               Some (<[u.(User.uid) :=
                         {| MemberProfile.displayName := getDisplayName u;
                            MemberProfile.photoURL := u.(User.photoURL) |}]>
                       (default ∅ data.(GroupDoc.members)));
             GroupDoc.assignments := data.(GroupDoc.assignments);
             GroupDoc.customFields := data.(GroupDoc.customFields);
             GroupDoc.memberResponses :=
               Some (<[u.(User.uid) := w.(ui).(UI.joinResponses)]>
                       (default ∅ data.(GroupDoc.memberResponses)));
             GroupDoc.createdAt := data.(GroupDoc.createdAt);
             GroupDoc.drawRunAt := data.(GroupDoc.drawRunAt) |}]> w.(db).
Proof.
  intros Hu Hc Hok1 Hok2 Hdb Hin Hfilled.
  unfold handleJoinGroup, mbind, M_bind, getState.
  rewrite Hu, truthy_true by done. cbn [negb].
  unfold tryCatchFinally, tryCatch, setState, getDoc, updateDoc, rejected.
  cbn [withUi logCall ui db calls].
  rewrite Hok1, Hdb, bool_decide_eq_false_2 by done.
  rewrite missingFields_blank, filter_Forall_not_length by done.
  cbn [withUi logCall ui db calls].
  rewrite length_app, Nat.add_comm. cbn [length Nat.add].
  rewrite Hok2, Hdb. cbn.
  split_and!; [done..|].
  do 2 f_equal. unfold arrayUnion.
  destruct data.(GroupDoc.memberIds) as [l|]; [|done].
  by rewrite bool_decide_eq_false_2.
Qed.

(** C3. When the trimmed join code resolves to a stored group of which the
    signed-in user is not yet a member, and at least one of the group's
    custom fields is unanswered, [handleJoinGroup] returns with the join
    error 'Please fill out all required fields: ' followed by the labels of
    exactly the unanswered fields, in schema order, separated by ', '; its
    only store call is the lookup, and the collection is unchanged: no
    member, profile or response is recorded. *)
Theorem join_incomplete_responses env w u data :
  w.(ui).(UI.user) = Some u →
  trim w.(ui).(UI.joinCode) ≠ [] →
  env.(storeRejects) (length w.(calls)) = false →
  w.(db) !! trim w.(ui).(UI.joinCode) = Some data →
  u.(User.uid) ∉ default [] data.(GroupDoc.memberIds) →
  Exists (blankResponse w.(ui).(UI.joinResponses))
    (default [] data.(GroupDoc.customFields)) →
  (handleJoinGroup env w).1 = Returned ()
  ∧ (handleJoinGroup env w).2.(ui).(UI.joinError)
    = Some (lit "Please fill out all required fields: "
            ++ join (lit ", ")
                 (CustomField.label <$>
                    filter (blankResponse w.(ui).(UI.joinResponses))
                      (default [] data.(GroupDoc.customFields))))
  ∧ (handleJoinGroup env w).2.(ui).(UI.joinSuccess) = None
  ∧ (handleJoinGroup env w).2.(calls)
    = w.(calls) ++ [GetDoc (trim w.(ui).(UI.joinCode))]
  ∧ (handleJoinGroup env w).2.(db) = w.(db).
Proof.
  intros Hu Hc Hok Hdb Hin Hblank.
  by rewrite (handleJoinGroup_incomplete env w u data).
Qed.

Lemma preserves_perform env op : preserves (perform env op).
Proof.
  destruct op; cbn.
  - apply preserves_selectionEffect.
  - apply preserves_loadGroupFields.
  - apply preserves_handleCreateGroup.
  - apply preserves_handleJoinGroup.
  - apply preserves_handleRunDraw.
  - apply preserves_handleDeleteGroup.
Qed.

(** C5. When the trimmed join code resolves to a stored group whose
    [memberIds] already contains the signed-in user, [handleJoinGroup]
    returns with the join error 'You are already part of that group.' and
    leaves the collection as it was; and every operation, in every
    environment and whether it succeeds or not, keeps every stored group's
    [memberIds] free of repetitions. *)
Theorem membership_at_most_once env w :
  (∀ u data,
     w.(ui).(UI.user) = Some u →
     trim w.(ui).(UI.joinCode) ≠ [] →
     env.(storeRejects) (length w.(calls)) = false →
     w.(db) !! trim w.(ui).(UI.joinCode) = Some data →
     u.(User.uid) ∈ default [] data.(GroupDoc.memberIds) →
     (handleJoinGroup env w).1 = Returned ()
     ∧ (handleJoinGroup env w).2.(ui).(UI.joinError)
       = Some (lit "You are already part of that group.")
     ∧ (handleJoinGroup env w).2.(db) = w.(db))
  ∧ (∀ op,
       MemberIdsDistinct w.(db) →
       MemberIdsDistinct (perform env op w).2.(db)).
Proof.
  split.
  - intros u data Hu Hc Hok Hdb Hin.
    by rewrite (handleJoinGroup_already_member env w u data).
  - intros op. apply preserves_perform.
Qed.

(** ** Creating a group *)

(** What a store call that goes through leaves behind. For a signed-in
    user: when the group name is blank after trimming, [handleCreateGroup]
    returns with the create error 'Give your group a name first.' and makes
    no store call, so no document is persisted; otherwise, when [addDoc]
    does not throw, it adds exactly one document, under the id the store
    assigns, whose [memberIds] is the creating user alone, whose [members]
    maps that user to their profile, whose owner fields are the creating
    user's, whose [assignments] and [drawRunAt] are unset and whose
    [memberResponses] is empty, and it yields that id as the selected group
    id. *)
Lemma create_group env w u :
  w.(ui).(UI.user) = Some u →
  (trim w.(ui).(UI.newGroupName) = [] →
   (handleCreateGroup env w).1 = Returned ()
   ∧ (handleCreateGroup env w).2.(ui).(UI.createError)
     = Some (lit "Give your group a name first.")
   ∧ (handleCreateGroup env w).2.(calls) = w.(calls)
   ∧ (handleCreateGroup env w).2.(db) = w.(db))
  ∧ (trim w.(ui).(UI.newGroupName) ≠ [] →
     addDocThrows env
       (newGroupData u (trim w.(ui).(UI.newGroupName))
          w.(ui).(UI.newGroupDescription) w.(ui).(UI.customFields)) w
     = false →
     ∃ data,
       (handleCreateGroup env w).1 = Returned ()
       ∧ (handleCreateGroup env w).2.(db)
         = <[env.(autoId) (length w.(calls)) := data]> w.(db)
       ∧ (handleCreateGroup env w).2.(ui).(UI.selectedGroupId)
         = Some (env.(autoId) (length w.(calls)))
       ∧ (handleCreateGroup env w).2.(ui).(UI.createError) = None
       ∧ data.(GroupDoc.name) = Some (trim w.(ui).(UI.newGroupName))
       ∧ data.(GroupDoc.memberIds) = Some [u.(User.uid)]
       ∧ data.(GroupDoc.members)
         = Some {[ u.(User.uid) :=
                     {| MemberProfile.displayName := getDisplayName u;
                        MemberProfile.photoURL := u.(User.photoURL) |} ]}
       ∧ data.(GroupDoc.ownerId) = Some u.(User.uid)
       ∧ data.(GroupDoc.ownerName) = Some (getDisplayName u)
       ∧ data.(GroupDoc.ownerPhotoURL) = u.(User.photoURL)
       ∧ data.(GroupDoc.assignments) = None
       ∧ data.(GroupDoc.drawRunAt) = None
       ∧ data.(GroupDoc.memberResponses) = Some ∅
       ∧ data.(GroupDoc.createdAt) = Some (env.(serverTime) (length w.(calls)))).
Proof.
  intros Hu. split.
  - intros Hblank.
    unfold handleCreateGroup, mbind, M_bind, getState.
    rewrite Hu. unfold setState at 1 2 3. rewrite Hblank. done.
  - intros Hname [Hvalid Hok]%orb_false_elim.
    eexists. unfold handleCreateGroup, mbind, M_bind, getState.
    rewrite Hu. unfold setState at 1 2 3.
    rewrite truthy_true by done. cbn [negb].
    unfold tryCatchFinally, tryCatch, addDoc, setState.
    rewrite Hvalid. unfold rejected in *.
    cbn [withUi logCall ui db calls]. rewrite Hok.
    cbn [fst snd withUi withDb logCall ui db calls].
    split_and!; reflexivity.
Qed.

(** C6, at the input where the code falls short of it. On a store with the
    SDK's default setting, a signed-in user who gives a name that is not
    blank and defines no custom field gets no group: [handleCreateGroup]
    passes [customFields: undefined], [addDoc] throws on it before anything
    is sent, and the handler returns with the create error 'Unable to create
    that group. Please try again.', no success message, the selection as it
    was, the form as it was, no store call and no document persisted. *)
Theorem create_without_custom_fields_persists_nothing env w u :
  w.(ui).(UI.user) = Some u →
  trim w.(ui).(UI.newGroupName) ≠ [] →
  w.(ui).(UI.customFields) = [] →
  env.(ignoreUndefinedProperties) = false →
  (handleCreateGroup env w).1 = Returned ()
  ∧ (handleCreateGroup env w).2.(ui).(UI.createError)
    = Some (lit "Unable to create that group. Please try again.")
  ∧ (handleCreateGroup env w).2.(ui).(UI.createSuccess) = None
  ∧ (handleCreateGroup env w).2.(ui).(UI.selectedGroupId)
    = w.(ui).(UI.selectedGroupId)
  ∧ (handleCreateGroup env w).2.(ui).(UI.newGroupName)
    = w.(ui).(UI.newGroupName)
  ∧ (handleCreateGroup env w).2.(ui).(UI.isCreatingGroup) = false
  ∧ (handleCreateGroup env w).2.(calls) = w.(calls)
  ∧ (handleCreateGroup env w).2.(db) = w.(db).
Proof.
  intros Hu Hname Hfields Hsetting.
  unfold handleCreateGroup, mbind, M_bind, getState.
  rewrite Hu. unfold setState at 1 2 3.
  rewrite truthy_true by done. cbn [negb].
  unfold tryCatchFinally, tryCatch, addDoc, failsValidation, passesUndefined,
    setState.
  rewrite Hfields, Hsetting. cbn. done.
Qed.

(** ** Selecting a group *)

Lemma isListed_elem_of groups groupId :
  isListed groups groupId = true ↔
  ∃ group, group ∈ groups ∧ group.(Group.id) = groupId.
Proof. unfold isListed. by rewrite bool_decide_eq_true, Exists_exists. Qed.

Lemma isListed_false groups groupId :
  (∀ group, group ∈ groups → group.(Group.id) ≠ groupId) →
  isListed groups groupId = false.
Proof.
  intros Hnone. apply not_true_is_false.
  intros (group & ? & ?)%isListed_elem_of. by eapply Hnone.
Qed.

(** C7. The selection effect never throws and touches nothing but the
    selected id, which it sets to [resolveSelection] of the current groups
    and the candidate id. If the candidate is not the id of any group in
    the sequence, the result is the id of the first group, or no selection
    when the sequence is empty; in every case the result is the id of a
    group in the sequence, or no selection, the latter only when the
    sequence is empty. *)
Theorem selection_resolves w :
  selectionEffect w
  = (Returned (),
     withUi (UI.setSelectedGroupId
               (resolveSelection w.(ui).(UI.groups) w.(ui).(UI.selectedGroupId)))
       w)
  ∧ ((∀ groupId group,
        w.(ui).(UI.selectedGroupId) = Some groupId →
        group ∈ w.(ui).(UI.groups) → group.(Group.id) ≠ groupId) →
     resolveSelection w.(ui).(UI.groups) w.(ui).(UI.selectedGroupId)
     = Group.id <$> head w.(ui).(UI.groups))
  ∧ match resolveSelection w.(ui).(UI.groups) w.(ui).(UI.selectedGroupId) with
    | Some groupId =>
        ∃ group, group ∈ w.(ui).(UI.groups) ∧ group.(Group.id) = groupId
    | None => w.(ui).(UI.groups) = []
    end.
Proof.
  split; [done|].
  generalize w.(ui).(UI.groups) w.(ui).(UI.selectedGroupId).
  intros groups selectedGroupId.
  assert (match Group.id <$> head groups with
          | Some groupId => ∃ group, group ∈ groups ∧ group.(Group.id) = groupId
          | None => groups = []
          end) as Hhead.
  { destruct groups as [|group groups]; [done|]. cbn.
    exists group. split; [apply list_elem_of_here|done]. }
  split.
  - intros Hstale. unfold resolveSelection.
    destruct selectedGroupId as [groupId|]; [|done].
    rewrite (isListed_false groups groupId), andb_false_r; [done|].
    intros group. by apply Hstale.
  - unfold resolveSelection.
    destruct selectedGroupId as [groupId|]; [|done].
    destruct (truthy groupId); [|done]. cbn [andb].
    destruct (isListed groups groupId) eqn:Hlisted; [|done].
    by apply isListed_elem_of.
Qed.

(** ** Loading the join schema *)


(** * The properties on the running example *)

(** The office party lists nobody twice. *)
Lemma office_memberIds_NoDup : NoDup office.(Group.memberIds).
Proof. by apply (bool_decide_unpack _). Defined.

(** With the random outcomes of [env0] the three members are shuffled to
    Alice, Carol, Bob. *)
Example shuffle_office :
  (shuffle env0 office.(Group.memberIds) (signedIn alice)).1
  = Returned [lit "alice"; lit "carol"; lit "bob"].
Proof. reflexivity. Qed.

(** So Alice gives to Carol, Carol to Bob and Bob to Alice; Carol, who has
    no profile, appears as 'Mystery Santa'. *)
Example draw_office :
  match (handleRunDraw env0 office (signedIn alice)).2.(db) !! officeId with
  | Some data =>
      data.(GroupDoc.assignments)
      = Some (<[lit "alice" :=
                  {| Assignment.recipientId := lit "carol";
                     Assignment.recipientName := lit "Mystery Santa";
                     Assignment.recipientPhotoURL := None |}]>
               (<[lit "carol" :=
                    {| Assignment.recipientId := lit "bob";
                       Assignment.recipientName := lit "Bob";
                       Assignment.recipientPhotoURL := None |}]>
                 (<[lit "bob" :=
                      {| Assignment.recipientId := lit "alice";
                         Assignment.recipientName := lit "Alice";
                         Assignment.recipientPhotoURL := None |}]> ∅)))
      ∧ data.(GroupDoc.drawRunAt) = Some 1700000000500%N
  | None => False
  end.
Proof. vm_compute. done. Qed.

(** What the membership invariant is needed for. [handleRunDraw] shuffles
    the ids it is given and does not look for repeats: on [twice], which
    lists Alice two times, the map it builds has Alice as her own
    recipient. No stored group is like that. *)
Lemma runDraw_repeated_id_self_assignment :
  length twice.(Group.memberIds) = 2
  ∧ (∀ m, is_Some (twice.(Group.members) !! m) → m ∈ twice.(Group.memberIds))
  ∧ (∀ m, m ∈ twice.(Group.memberIds) → is_Some (twice.(Group.members) !! m))
  ∧ ∃ assignments,
      (handleRunDraw env0 twice (signedIn alice)).2.(calls)
      = [UpdateDoc twice.(Group.id)
           [AssignmentsSet assignments; DrawRunAtServerTimestamp]]
      ∧ recipientOf assignments (lit "alice") = Some (lit "alice")
      ∧ ¬ SingleCycle twice.(Group.memberIds) assignments.
Proof.
  split; [reflexivity|]. split; [|split].
  - intros m [p Hp]. unfold twice in Hp. cbn [Group.members] in Hp.
    apply lookup_singleton_Some in Hp as [<- _].
    apply list_elem_of_here.
  - intros m Hm.
    assert (m = lit "alice") as ->.
    { apply elem_of_cons in Hm as [->|Hm]; [done|].
      by apply list_elem_of_singleton in Hm. }
    by eexists.
  - eexists. split; [vm_compute; reflexivity|].
    assert (recipientOf
              (<[lit "alice" := assignmentFor twice (lit "alice")]> ∅)
              (lit "alice") = Some (lit "alice")) as Hself by reflexivity.
    split; [exact Hself|].
    intros Hcycle. exact (nobody_draws_themselves _ _ Hcycle _ Hself).
Qed.

Example trim_blank_name : trim (lit "  ") = [].
Proof. reflexivity. Qed.

Example trim_office_party : trim (lit "  Office Party ") = lit "Office Party".
Proof. reflexivity. Qed.

(** Alice's draw over the three distinct members of the office party. *)
Lemma runDraw_single_cycle_witness :
  NoDup office.(Group.memberIds)
  ∧ ∃ assignments,
      (handleRunDraw env0 office (signedIn alice)).2.(calls)
      = (signedIn alice).(calls)
        ++ [UpdateDoc office.(Group.id)
              [AssignmentsSet assignments; DrawRunAtServerTimestamp]]
      ∧ SingleCycle office.(Group.memberIds) assignments
      ∧ (env0.(storeRejects) (length (signedIn alice).(calls)) = false →
         is_Some ((signedIn alice).(db) !! office.(Group.id)) →
         (handleRunDraw env0 office (signedIn alice)).2.(db) !! office.(Group.id)
           ≫= GroupDoc.assignments = Some assignments).
Proof.
  split; [exact office_memberIds_NoDup|].
  apply (runDraw_single_cycle env0 office (signedIn alice) alice).
  - reflexivity.
  - reflexivity.
  - cbn. lia.
  - exact office_memberIds_NoDup.
Defined.

(** Alice's draw over the group she is alone in. *)
Lemma runDraw_insufficient_members_witness :
  length solo.(Group.memberIds) < 2
  ∧ (handleRunDraw env0 solo (signedIn alice)).2.(ui).(UI.drawError)
    = Some (lit "You need at least two members to run a draw.")
  ∧ (handleRunDraw env0 solo (signedIn alice)).2.(db) = (signedIn alice).(db).
Proof.
  assert (length solo.(Group.memberIds) < 2) as Hn by (cbn; lia).
  split; [exact Hn|].
  destruct (runDraw_insufficient_members env0 solo (signedIn alice) alice
              eq_refl eq_refl Hn) as (_ & Herr & _ & _ & Hdb & _).
  split; [exact Herr|exact Hdb].
Defined.

(** Dave joins the office party with a wish list but a blank shirt size:
    the message names the shirt size only. *)
Lemma join_incomplete_responses_witness :
  Exists (blankResponse
            (<[shirtSize.(CustomField.id) := lit "   "]>
               {[ wishList.(CustomField.id) := lit "Books" ]}))
    (default [] officeDoc.(GroupDoc.customFields))
  ∧ (handleJoinGroup env0
       (joining dave " Gq7xT2mLw9ZbC4RkVh1s "
          (<[shirtSize.(CustomField.id) := lit "   "]>
             {[ wishList.(CustomField.id) := lit "Books" ]}))).2.(ui).(UI.joinError)
    = Some (lit "Please fill out all required fields: Shirt size")
  ∧ (handleJoinGroup env0
       (joining dave " Gq7xT2mLw9ZbC4RkVh1s "
          (<[shirtSize.(CustomField.id) := lit "   "]>
             {[ wishList.(CustomField.id) := lit "Books" ]}))).2.(db)
    = (signedIn dave).(db).
Proof.
  set (responses := <[shirtSize.(CustomField.id) := lit "   "]>
                      {[ wishList.(CustomField.id) := lit "Books" ]}).
  assert (Exists (blankResponse responses)
            (default [] officeDoc.(GroupDoc.customFields))) as Hblank
    by by apply (bool_decide_unpack _).
  split; [exact Hblank|].
  destruct (join_incomplete_responses env0
              (joining dave " Gq7xT2mLw9ZbC4RkVh1s " responses) dave officeDoc)
    as (_ & Herr & _ & _ & Hdb).
  - reflexivity.
  - discriminate.
  - reflexivity.
  - reflexivity.
  - by apply (bool_decide_unpack _).
  - exact Hblank.
  - split; [exact Herr|exact Hdb].
Defined.

(** Bob, a member but not the owner, tries to draw and to delete. *)
Lemma non_owner_is_ignored_witness :
  handleRunDraw env0 office (signedIn bob) = (Returned (), signedIn bob)
  ∧ handleDeleteGroup env0 office (signedIn bob) = (Returned (), signedIn bob).
Proof.
  apply (non_owner_is_ignored env0 office (signedIn bob)).
  intros u [= <-]. discriminate.
Defined.

(** C4, as stated, fails: Bob is a member of Alice's group but not its
    owner, and neither his draw nor his delete is refused with an error;
    both return with the error cells still empty. *)
Lemma non_owner_gets_no_error :
  isOwner (signedIn bob).(ui).(UI.user) office = false
  ∧ ¬ refusedWithError UI.drawError (signedIn bob)
        (handleRunDraw env0 office (signedIn bob))
  ∧ ¬ refusedWithError UI.deleteError (signedIn bob)
        (handleDeleteGroup env0 office (signedIn bob)).
Proof.
  split; [reflexivity|].
  split; intros [[message Hmessage] _]; discriminate Hmessage.
Qed.

(** Bob, already a member, joins again. *)
Lemma membership_at_most_once_witness :
  ((handleJoinGroup env0 (joining bob "Gq7xT2mLw9ZbC4RkVh1s" ∅)).2.(ui).(UI.joinError)
   = Some (lit "You are already part of that group.")
   ∧ (handleJoinGroup env0 (joining bob "Gq7xT2mLw9ZbC4RkVh1s" ∅)).2.(db)
     = (signedIn bob).(db))
  ∧ MemberIdsDistinct (signedIn bob).(db)
  ∧ MemberIdsDistinct
      (perform env0 Join (joining bob "Gq7xT2mLw9ZbC4RkVh1s" ∅)).2.(db).
Proof.
  assert (MemberIdsDistinct (signedIn bob).(db)) as Hinv.
  { apply map_Forall_insert_2; [by apply (bool_decide_unpack _)|].
    apply map_Forall_singleton. by apply (bool_decide_unpack _). }
  destruct (membership_at_most_once env0
              (joining bob "Gq7xT2mLw9ZbC4RkVh1s" ∅)) as [Hmember Hall].
  split; [|split].
  - destruct (Hmember bob officeDoc) as (_ & Herr & Hdb).
    + reflexivity.
    + discriminate.
    + reflexivity.
    + reflexivity.
    + by apply (bool_decide_unpack _).
    + split; [exact Herr|exact Hdb].
  - exact Hinv.
  - apply (Hall Join). exact Hinv.
Defined.

(** Alice names a group 'Office Party' and defines no custom field. *)
Lemma create_without_custom_fields_persists_nothing_witness :
  (handleCreateGroup env0 (naming alice "Office Party")).2.(ui).(UI.createError)
  = Some (lit "Unable to create that group. Please try again.")
  ∧ (handleCreateGroup env0 (naming alice "Office Party")).2.(calls) = []
  ∧ (handleCreateGroup env0 (naming alice "Office Party")).2.(db)
    = (signedIn alice).(db).
Proof.
  assert (trim (naming alice "Office Party").(ui).(UI.newGroupName) ≠ [])
    as Hname by discriminate.
  destruct (create_without_custom_fields_persists_nothing env0
              (naming alice "Office Party") alice
              eq_refl Hname eq_refl eq_refl)
    as (_ & Herr & _ & _ & _ & _ & Hcalls & Hdb).
  split; [exact Herr|]. split; [exact Hcalls|exact Hdb].
Defined.

(** An id that is no longer listed resolves to the first group. *)
Lemma selection_resolves_witness :
  resolveSelection [office; solo] (Some (lit "Xb1dQ6vGy8RtN3JkWe5z"))
  = Some officeId.
Proof.
  destruct (selection_resolves
              (withUi (UI.setSelectedGroupId (Some (lit "Xb1dQ6vGy8RtN3JkWe5z")))
                 (signedIn alice))) as (_ & Hstale & _).
  apply Hstale. intros groupId group [= <-] Hgroup.
  apply elem_of_cons in Hgroup as [->|Hgroup]; [discriminate|].
  apply list_elem_of_singleton in Hgroup as ->. discriminate.
Defined.


(** Alice's draw changes [assignments] and [drawRunAt] of the office party
    and nothing else. *)
Lemma runDraw_commit_frame_witness :
  ∃ shuffled,
    shuffled ≡ₚ office.(Group.memberIds)
    ∧ (handleRunDraw env0 office (signedIn alice)).2.(db) !! officeId
      = Some
          {| GroupDoc.name := officeDoc.(GroupDoc.name);
             GroupDoc.description := officeDoc.(GroupDoc.description);
             GroupDoc.ownerId := officeDoc.(GroupDoc.ownerId);
             GroupDoc.ownerName := officeDoc.(GroupDoc.ownerName);
             GroupDoc.ownerPhotoURL := officeDoc.(GroupDoc.ownerPhotoURL);
             GroupDoc.memberIds := officeDoc.(GroupDoc.memberIds);
             GroupDoc.members := officeDoc.(GroupDoc.members);
             GroupDoc.assignments := Some (buildAssignments office shuffled);
             GroupDoc.customFields := officeDoc.(GroupDoc.customFields);
             GroupDoc.memberResponses := officeDoc.(GroupDoc.memberResponses);
             GroupDoc.createdAt := officeDoc.(GroupDoc.createdAt);
             GroupDoc.drawRunAt := Some 1700000000500%N |}.
Proof.
  destruct (runDraw_commit_frame env0 office (signedIn alice) alice officeDoc)
    as (shuffled & Hperm & _ & _ & Hdb).
  - reflexivity.
  - reflexivity.
  - cbn. lia.
  - reflexivity.
  - reflexivity.
  - exists shuffled. split; [exact Hperm|].
    rewrite Hdb. apply lookup_insert_eq.
Defined.

(** Carol has no profile; whoever draws her sees 'Mystery Santa'. *)
Lemma runDraw_missing_profile_witness :
  office.(Group.members) !! lit "carol" = None
  ∧ (handleRunDraw env0 office (signedIn alice)).1 = Returned ()
  ∧ ∃ assignments giver,
      (handleRunDraw env0 office (signedIn alice)).2.(calls)
      = [UpdateDoc officeId
           [AssignmentsSet assignments; DrawRunAtServerTimestamp]]
      ∧ assignments !! giver
        = Some {| Assignment.recipientId := lit "carol";
                  Assignment.recipientName := lit "Mystery Santa";
                  Assignment.recipientPhotoURL := None |}.
Proof.
  assert (office.(Group.members) !! lit "carol" = None) as Hnone
    by reflexivity.
  split; [exact Hnone|].
  destruct (runDraw_missing_profile env0 office (signedIn alice) alice)
    as (Hret & (assignments & Hcalls & _ & _ & Hplaceholder) & _).
  - reflexivity.
  - reflexivity.
  - cbn. lia.
  - split; [exact Hret|].
    destruct (Hplaceholder office_memberIds_NoDup (lit "carol")) as [giver Hg].
    + by apply (bool_decide_unpack _).
    + exact Hnone.
    + exists assignments, giver. split; [exact Hcalls|exact Hg].
Defined.

(** * The rest of the component: properties *)

(** ** What an operation may do to the collection *)

Lemma updateDoc_outcome env docId updates w :
  updateDoc env docId updates w
  = (Thrown, logCall (UpdateDoc docId updates) w)
    ∧ (env.(storeRejects) (length w.(calls)) = true ∨ w.(db) !! docId = None)
  ∨ ∃ data,
      env.(storeRejects) (length w.(calls)) = false
      ∧ w.(db) !! docId = Some data
      ∧ updateDoc env docId updates w
        = (Returned (),
           withDb (<[docId := foldl (applyUpdate (env.(serverTime) (length w.(calls))))
                                data updates]> w.(db))
             (logCall (UpdateDoc docId updates) w)).
Proof.
  unfold updateDoc, rejected.
  destruct (env.(storeRejects) _) eqn:Hrej; [left; auto|].
  destruct (w.(db) !! docId) as [data|] eqn:Hdata; [|left; auto].
  right. by exists data.
Qed.

Lemma not_blank_Forall responses (fields : list CustomField.t) :
  (0 <? length fields)
  && (0 <? length (filter (λ field, isMissing responses field = true) fields))
  = false →
  Forall (λ field, ¬ blankResponse responses field) fields.
Proof.
  rewrite missingFields_blank. intros Hnone.
  apply Forall_forall. intros field Hfield Hblank.
  assert (field ∈ filter (blankResponse responses) fields) as Hin
    by by apply list_elem_of_filter.
  destruct fields; [by apply elem_of_nil in Hfield|].
  destruct (filter _ _); [by apply elem_of_nil in Hin|done].
Qed.

Lemma handleRunDraw_effect env group w :
  (handleRunDraw env group w).1 = Returned ()
  ∧ StoreEffect env w (RunDraw group) (handleRunDraw env group w).2.(db).
Proof.
  destruct (isOwner w.(ui).(UI.user) group) eqn:Howner.
  - destruct w.(ui).(UI.user) as [u|] eqn:Hu; [|done].
    cbn in Howner. apply bool_decide_eq_true in Howner.
    destruct (decide (length group.(Group.memberIds) < 2)) as [Hn|Hn].
    + unfold handleRunDraw, mbind, M_bind, getState.
      rewrite (isOwner_true _ _ u) by done. cbn [negb].
      unfold setState at 1 2.
      destruct (Nat.ltb_spec (length (Group.memberIds group)) 2) as [_|?];
        [|lia].
      split; [done|exact (effect_none env w _)].
    + destruct (handleRunDraw_run env group w u Hu Howner)
        as (shuffled & w2 & Hperm & (Hui & Hdb & Hcalls) & ->); [lia|].
      change (db (drawStarted w)) with (db w) in Hdb.
      change (calls (drawStarted w)) with (calls w) in Hcalls.
      split; [done|]. cbn [snd]. rewrite drawFinished_db.
      destruct (updateDoc_outcome env group.(Group.id)
                  [AssignmentsSet (buildAssignments group shuffled);
                   DrawRunAtServerTimestamp] w2)
        as [[-> _]|(data & Hok & Hdata & ->)].
      * cbn. rewrite Hdb. exact (effect_none env w _).
      * cbn. rewrite Hdb, Hcalls. rewrite Hdb in Hdata.
        by eapply (effect_drawn _ _ _ group u data shuffled).
  - unfold handleRunDraw, mbind, M_bind, getState. rewrite Howner.
    split; [done|exact (effect_none env w _)].
Qed.

Ltac run_handler :=
  unfold mbind, M_bind, getState, setState, tryCatchFinally, tryCatch,
    getDoc, updateDoc, addDoc, deleteDoc, rejected;
  cbn [withUi withDb logCall ui db calls fst snd].

Lemma handleJoinGroup_effect env w :
  (handleJoinGroup env w).1 = Returned ()
  ∧ StoreEffect env w Join (handleJoinGroup env w).2.(db).
Proof.
  unfold handleJoinGroup. run_handler.
  destruct w.(ui).(UI.user) as [u|] eqn:Hu;
    [|split; [done|exact (effect_none env w _)]].
  destruct (truthy (trim w.(ui).(UI.joinCode))) eqn:Hcode; cbn [negb];
    [|split; [done|exact (effect_none env w _)]].
  run_handler.
  destruct (env.(storeRejects) (length w.(calls)));
    [split; [done|exact (effect_none env w _)]|].
  destruct (w.(db) !! trim w.(ui).(UI.joinCode)) as [data|] eqn:Hdata;
    [|split; [done|exact (effect_none env w _)]].
  case_bool_decide as Hin; [split; [done|exact (effect_none env w _)]|].
  destruct ((0 <? length (default [] data.(GroupDoc.customFields))) && _)
    eqn:Hmissing; [split; [done|exact (effect_none env w _)]|].
  run_handler.
  destruct (env.(storeRejects) _);
    [split; [done|exact (effect_none env w _)]|].
  rewrite Hdata. cbn. split; [done|].
  replace (arrayUnion _ _)
    with (default [] data.(GroupDoc.memberIds) ++ [u.(User.uid)]).
  - apply (effect_joined env w Join u data); try done.
    by apply not_blank_Forall.
  - unfold arrayUnion. destruct data.(GroupDoc.memberIds) as [l|]; [|done].
    by rewrite bool_decide_eq_false_2.
Qed.

Lemma handleCreateGroup_effect env w :
  (handleCreateGroup env w).1 = Returned ()
  ∧ StoreEffect env w Create (handleCreateGroup env w).2.(db).
Proof.
  unfold handleCreateGroup. run_handler.
  destruct w.(ui).(UI.user) as [u|] eqn:Hu;
    [|split; [done|exact (effect_none env w _)]].
  destruct (truthy (trim w.(ui).(UI.newGroupName))) eqn:Hname; cbn [negb];
    [|split; [done|exact (effect_none env w _)]].
  run_handler.
  destruct (failsValidation env _);
    [split; [done|exact (effect_none env w _)]|].
  run_handler.
  destruct (env.(storeRejects) (length w.(calls)));
    [split; [done|exact (effect_none env w _)]|].
  cbn. split; [done|].
  apply (effect_created env w Create u); try done.
  intros Hblank. by rewrite Hblank in Hname.
Qed.

Lemma handleDeleteGroup_effect env group w :
  (handleDeleteGroup env group w).1 = Returned ()
  ∧ StoreEffect env w (Delete group) (handleDeleteGroup env group w).2.(db).
Proof.
  unfold handleDeleteGroup. run_handler.
  destruct (isOwner w.(ui).(UI.user) group) eqn:Howner; cbn [negb];
    [|split; [done|exact (effect_none env w _)]].
  destruct w.(ui).(UI.user) as [u|] eqn:Hu; [|done].
  cbn in Howner. apply bool_decide_eq_true in Howner.
  destruct env.(confirmAnswer) eqn:Hconfirm; cbn [negb];
    [|split; [done|exact (effect_none env w _)]].
  run_handler.
  destruct (env.(storeRejects) (length w.(calls)));
    [split; [done|exact (effect_none env w _)]|].
  cbn. split; [done|].
  by apply (effect_deleted env w _ group u).
Qed.

Lemma loadGroupFields_effect env w :
  (loadGroupFields env w).1 = Returned ()
  ∧ StoreEffect env w LoadJoinSchema (loadGroupFields env w).2.(db).
Proof.
  unfold loadGroupFields. run_handler.
  destruct (negb _ || _); [split; [done|exact (effect_none env w _)]|].
  run_handler.
  destruct (env.(storeRejects) (length w.(calls)));
    [split; [done|exact (effect_none env w _)]|].
  destruct (w.(db) !! _); split; (done || exact (effect_none env w _)).
Qed.

Lemma perform_effect env op w :
  (perform env op w).1 = Returned ()
  ∧ StoreEffect env w op (perform env op w).2.(db).
Proof.
  destruct op; cbn [perform].
  - split; [done|exact (effect_none env w _)].
  - apply loadGroupFields_effect.
  - apply handleCreateGroup_effect.
  - apply handleJoinGroup_effect.
  - apply handleRunDraw_effect.
  - apply handleDeleteGroup_effect.
Qed.


(** X9. No operation throws: every store failure is caught inside its
    handler. *)
Theorem operations_never_throw env op w :
  (perform env op w).1 = Returned ().
Proof. apply perform_effect. Qed.


(** X11. When the store assigns unused ids, no operation changes the name,
    description, owner fields, custom fields or creation time of a document
    that stays in the collection. *)
Theorem documents_keep_their_identity env op w k data data' :
  w.(db) !! env.(autoId) (length w.(calls)) = None →
  w.(db) !! k = Some data →
  (perform env op w).2.(db) !! k = Some data' →
  data'.(GroupDoc.name) = data.(GroupDoc.name)
  ∧ data'.(GroupDoc.description) = data.(GroupDoc.description)
  ∧ data'.(GroupDoc.ownerId) = data.(GroupDoc.ownerId)
  ∧ data'.(GroupDoc.ownerName) = data.(GroupDoc.ownerName)
  ∧ data'.(GroupDoc.ownerPhotoURL) = data.(GroupDoc.ownerPhotoURL)
  ∧ data'.(GroupDoc.customFields) = data.(GroupDoc.customFields)
  ∧ data'.(GroupDoc.createdAt) = data.(GroupDoc.createdAt).
Proof.
  intros Hfresh Hdata.
  destruct (perform_effect env op w) as [_ Heffect].
  destruct Heffect as [|u -> ? ?|u old -> ? Hold ? ?
                      |group u old s -> ? ? Hold ?|group u -> ? ? ?].
  - rewrite Hdata. by intros [= <-].
  - rewrite lookup_insert. case_decide as Hk.
    + subst k. congruence.
    + rewrite Hdata. by intros [= <-].
  - rewrite lookup_insert. case_decide as Hk.
    + subst k. rewrite Hold in Hdata. injection Hdata as ->. by intros [= <-].
    + rewrite Hdata. by intros [= <-].
  - rewrite lookup_insert. case_decide as Hk.
    + subst k. rewrite Hold in Hdata. injection Hdata as ->. by intros [= <-].
    + rewrite Hdata. by intros [= <-].
  - rewrite lookup_delete. case_decide as Hk; [done|].
    rewrite Hdata. by intros [= <-].
Qed.

(** X12. When the store assigns unused ids, an operation leaves the member ids
    of a remaining document as a prefix of the new ones, adds at most one,
    and does not touch the profile or the responses of anyone who was a
    member. *)
Theorem members_are_never_removed env op w k data data' :
  w.(db) !! env.(autoId) (length w.(calls)) = None →
  w.(db) !! k = Some data →
  (perform env op w).2.(db) !! k = Some data' →
  default [] data.(GroupDoc.memberIds)
    `prefix_of` default [] data'.(GroupDoc.memberIds)
  ∧ length (default [] data'.(GroupDoc.memberIds))
    ≤ S (length (default [] data.(GroupDoc.memberIds)))
  ∧ ∀ m, m ∈ default [] data.(GroupDoc.memberIds) →
         default ∅ data'.(GroupDoc.members) !! m
         = default ∅ data.(GroupDoc.members) !! m
         ∧ default ∅ data'.(GroupDoc.memberResponses) !! m
           = default ∅ data.(GroupDoc.memberResponses) !! m.
Proof.
  intros Hfresh Hdata.
  assert (data' = data →
          default [] data.(GroupDoc.memberIds)
            `prefix_of` default [] data'.(GroupDoc.memberIds)
          ∧ length (default [] data'.(GroupDoc.memberIds))
            ≤ S (length (default [] data.(GroupDoc.memberIds)))
          ∧ ∀ m, m ∈ default [] data.(GroupDoc.memberIds) →
                 default ∅ data'.(GroupDoc.members) !! m
                 = default ∅ data.(GroupDoc.members) !! m
                 ∧ default ∅ data'.(GroupDoc.memberResponses) !! m
                   = default ∅ data.(GroupDoc.memberResponses) !! m) as Hsame.
  { intros ->. split_and!; [done|lia|done]. }
  destruct (perform_effect env op w) as [_ Heffect].
  destruct Heffect as [|u -> ? ?|u old -> ? Hold Hnew ?
                      |group u old s -> ? ? Hold ?|group u -> ? ? ?].
  - rewrite Hdata. intros [= <-]. by apply Hsame.
  - rewrite lookup_insert. case_decide as Hk.
    + subst k. congruence.
    + rewrite Hdata. intros [= <-]. by apply Hsame.
  - rewrite lookup_insert. case_decide as Hk.
    + subst k. rewrite Hold in Hdata. injection Hdata as ->.
      intros [= <-]. cbn. split_and!.
      * by apply prefix_app_r.
      * rewrite length_app. cbn. lia.
      * intros m Hm.
        assert (u.(User.uid) ≠ m) by (intros Heq; by subst m).
        by rewrite !lookup_insert_ne.
    + rewrite Hdata. intros [= <-]. by apply Hsame.
  - rewrite lookup_insert. case_decide as Hk.
    + subst k. rewrite Hold in Hdata. injection Hdata as ->.
      intros [= <-]. cbn. split_and!; [done|lia|done].
    + rewrite Hdata. intros [= <-]. by apply Hsame.
  - rewrite lookup_delete. case_decide as Hk; [done|].
    rewrite Hdata. intros [= <-]. by apply Hsame.
Qed.

(** X13. Every operation keeps the invariant that each member id of a stored
    group has a profile. *)
Theorem members_keep_profiles env op w :
  MembersHaveProfiles w.(db) →
  MembersHaveProfiles (perform env op w).2.(db).
Proof.
  intros Hinv.
  destruct (perform_effect env op w) as [_ Heffect].
  destruct Heffect as [|u -> ? ?|u old -> ? Hold Hnew ?
                      |group u old s -> ? ? Hold ?|group u -> ? ? ?].
  - done.
  - apply map_Forall_insert_2; [|done]. cbn.
    intros m ->%list_elem_of_singleton. rewrite lookup_singleton_eq. by eexists.
  - apply map_Forall_insert_2; [|done]. cbn.
    intros m [Hm| ->%list_elem_of_singleton]%elem_of_app.
    + rewrite lookup_insert_is_Some'. right. by apply (Hinv _ _ Hold).
    + rewrite lookup_insert_eq. by eexists.
  - apply map_Forall_insert_2; [|done]. cbn. by apply (Hinv _ _ Hold).
  - by apply map_Forall_delete.
Qed.

(** X14. When the store assigns unused ids, a document disappears or gets
    other assignments or another draw time only through a draw or a delete
    for a group with that id whose owner id is the signed-in user's. *)
Theorem only_the_owner_draws_or_deletes env op w k data :
  w.(db) !! env.(autoId) (length w.(calls)) = None →
  w.(db) !! k = Some data →
  (∀ data', (perform env op w).2.(db) !! k = Some data' →
            data'.(GroupDoc.assignments) ≠ data.(GroupDoc.assignments)
            ∨ data'.(GroupDoc.drawRunAt) ≠ data.(GroupDoc.drawRunAt)) →
  ∃ group user,
    (op = RunDraw group ∨ op = Delete group)
    ∧ group.(Group.id) = k
    ∧ w.(ui).(UI.user) = Some user
    ∧ user.(User.uid) = group.(Group.ownerId).
Proof.
  intros Hfresh Hdata Hchanged.
  destruct (perform_effect env op w) as [_ Heffect].
  destruct Heffect as [|u -> ? ?|u old -> ? Hold Hnew ?
                      |group u old s -> ? ? Hold ?|group u -> ? ? ?].
  - destruct (Hchanged data Hdata); done.
  - destruct (decide (env.(autoId) (length w.(calls)) = k)) as [<-|Hk];
      [congruence|].
    rewrite lookup_insert_ne in Hchanged by done.
    destruct (Hchanged data Hdata); done.
  - destruct (decide (trim w.(ui).(UI.joinCode) = k)) as [<-|Hk].
    + rewrite lookup_insert_eq in Hchanged.
      rewrite Hold in Hdata. injection Hdata as ->.
      destruct (Hchanged _ eq_refl); done.
    + rewrite lookup_insert_ne in Hchanged by done.
      destruct (Hchanged data Hdata); done.
  - destruct (decide (group.(Group.id) = k)) as [<-|Hk].
    + exists group, u. auto.
    + rewrite lookup_insert_ne in Hchanged by done.
      destruct (Hchanged data Hdata); done.
  - destruct (decide (group.(Group.id) = k)) as [<-|Hk].
    + exists group, u. auto.
    + rewrite lookup_delete_ne in Hchanged by done.
      destruct (Hchanged data Hdata); done.
Qed.

(** ** The other outcomes of the handlers *)

Lemma handleJoinGroup_success env w u data :
  w.(ui).(UI.user) = Some u →
  trim w.(ui).(UI.joinCode) ≠ [] →
  env.(storeRejects) (length w.(calls)) = false →
  env.(storeRejects) (S (length w.(calls))) = false →
  w.(db) !! trim w.(ui).(UI.joinCode) = Some data →
  u.(User.uid) ∉ default [] data.(GroupDoc.memberIds) →
  Forall (λ field, ¬ blankResponse w.(ui).(UI.joinResponses) field)
    (default [] data.(GroupDoc.customFields)) →
  ∃ w1,
    handleJoinGroup env w = (Returned (), w1)
    ∧ w1.(db) = <[trim w.(ui).(UI.joinCode) :=
                    joinedDoc u w.(ui).(UI.joinResponses) data]> w.(db)
    ∧ w1.(calls)
      = w.(calls)
        ++ [GetDoc (trim w.(ui).(UI.joinCode));
            UpdateDoc (trim w.(ui).(UI.joinCode))
              [MemberIdsArrayUnion u.(User.uid);
               MembersSet u.(User.uid)
                 {| MemberProfile.displayName := getDisplayName u;
                    MemberProfile.photoURL := u.(User.photoURL) |};
               MemberResponsesSet u.(User.uid) w.(ui).(UI.joinResponses)]]
    ∧ w1.(ui)
      = UI.setIsJoining false
          (UI.setSelectedGroupId (Some (trim w.(ui).(UI.joinCode)))
             (UI.setJoinResponses ∅
                (UI.setJoinGroupFields []
                   (UI.setJoinCode []
                      (UI.setJoinSuccess
                         (Some (lit "Welcome aboard! You have joined the group."))
                         (UI.setIsJoining true
                            (UI.setJoinSuccess None
                               (UI.setJoinError None w.(ui))))))))).
Proof.
  intros Hu Hcode Hok1 Hok2 Hdata Hin Hfilled.
  eexists. unfold handleJoinGroup. run_handler.
  rewrite Hu, truthy_true by done. cbn [negb]. run_handler.
  rewrite Hok1, Hdata, bool_decide_eq_false_2 by done.
  rewrite missingFields_blank, filter_Forall_not_length by done.
  run_handler. rewrite length_app, Nat.add_comm. cbn [length Nat.add].
  rewrite Hok2, Hdata.
  split; [reflexivity|]. cbn. split_and!.
  - replace (arrayUnion u.(User.uid) data.(GroupDoc.memberIds))
      with (default [] data.(GroupDoc.memberIds) ++ [u.(User.uid)]); [done|].
    unfold arrayUnion.
    destruct data.(GroupDoc.memberIds) as [l|]; [|done].
    by rewrite bool_decide_eq_false_2.
  - by rewrite <-app_assoc.
  - done.
Qed.


(** X16. The owner's delete: declined at the prompt it changes nothing;
    accepted by the store it removes the document, clears the selection and
    leaves the deleting flag set; rejected by the store it keeps document and
    selection, shows 'Unable to delete the group. Please try again.' and
    releases the flag. *)
Theorem delete_group env group w u :
  w.(ui).(UI.user) = Some u →
  u.(User.uid) = group.(Group.ownerId) →
  (env.(confirmAnswer) = false →
   handleDeleteGroup env group w = (Returned (), w))
  ∧ (env.(confirmAnswer) = true →
     env.(storeRejects) (length w.(calls)) = false →
     (handleDeleteGroup env group w).2.(db) = delete group.(Group.id) w.(db)
     ∧ (handleDeleteGroup env group w).2.(calls)
       = w.(calls) ++ [DeleteDoc group.(Group.id)]
     ∧ (handleDeleteGroup env group w).2.(ui).(UI.selectedGroupId) = None
     ∧ (handleDeleteGroup env group w).2.(ui).(UI.deleteError) = None
     ∧ (handleDeleteGroup env group w).2.(ui).(UI.isDeletingGroup) = true)
  ∧ (env.(confirmAnswer) = true →
     env.(storeRejects) (length w.(calls)) = true →
     (handleDeleteGroup env group w).2.(db) = w.(db)
     ∧ (handleDeleteGroup env group w).2.(ui).(UI.selectedGroupId)
       = w.(ui).(UI.selectedGroupId)
     ∧ (handleDeleteGroup env group w).2.(ui).(UI.deleteError)
       = Some (lit "Unable to delete the group. Please try again.")
     ∧ (handleDeleteGroup env group w).2.(ui).(UI.isDeletingGroup) = false).
Proof.
  intros Hu Ho.
  unfold handleDeleteGroup. run_handler.
  rewrite (isOwner_true _ _ u) by done. cbn [negb].
  split_and!.
  - by intros ->.
  - intros -> Hok. cbn [negb]. run_handler. by rewrite Hok.
  - intros -> Hrej. cbn [negb]. run_handler. by rewrite Hrej.
Qed.

(** X17. A create whose [addDoc] throws, because the store rejects the call
    or because the document does not pass the SDK's validation, keeps the
    form as typed and shows 'Unable to create that group. Please try
    again.'; one whose [addDoc] goes through empties the form and shows the
    success message; both release the busy flag. *)
Theorem create_form_after_submit env w u :
  w.(ui).(UI.user) = Some u →
  trim w.(ui).(UI.newGroupName) ≠ [] →
  (addDocThrows env
     (newGroupData u (trim w.(ui).(UI.newGroupName))
        w.(ui).(UI.newGroupDescription) w.(ui).(UI.customFields)) w
   = true →
   (handleCreateGroup env w).2.(db) = w.(db)
   ∧ (handleCreateGroup env w).2.(ui).(UI.createError)
     = Some (lit "Unable to create that group. Please try again.")
   ∧ (handleCreateGroup env w).2.(ui).(UI.createSuccess) = None
   ∧ (handleCreateGroup env w).2.(ui).(UI.newGroupName)
     = w.(ui).(UI.newGroupName)
   ∧ (handleCreateGroup env w).2.(ui).(UI.newGroupDescription)
     = w.(ui).(UI.newGroupDescription)
   ∧ (handleCreateGroup env w).2.(ui).(UI.customFields)
     = w.(ui).(UI.customFields)
   ∧ (handleCreateGroup env w).2.(ui).(UI.selectedGroupId)
     = w.(ui).(UI.selectedGroupId)
   ∧ (handleCreateGroup env w).2.(ui).(UI.isCreatingGroup) = false)
  ∧ (addDocThrows env
       (newGroupData u (trim w.(ui).(UI.newGroupName))
          w.(ui).(UI.newGroupDescription) w.(ui).(UI.customFields)) w
     = false →
     (handleCreateGroup env w).2.(ui).(UI.createSuccess)
     = Some (lit "Group created! Share the join code with your Santas.")
     ∧ (handleCreateGroup env w).2.(ui).(UI.newGroupName) = []
     ∧ (handleCreateGroup env w).2.(ui).(UI.newGroupDescription) = []
     ∧ (handleCreateGroup env w).2.(ui).(UI.customFields) = []
     ∧ (handleCreateGroup env w).2.(ui).(UI.isCreatingGroup) = false
     ∧ (handleCreateGroup env w).2.(calls)
       = w.(calls)
         ++ [AddDoc (newGroupData u (trim w.(ui).(UI.newGroupName))
                       w.(ui).(UI.newGroupDescription)
                       w.(ui).(UI.customFields))]).
Proof.
  intros Hu Hname.
  unfold handleCreateGroup. run_handler.
  rewrite Hu, truthy_true by done. cbn [negb]. run_handler.
  unfold addDocThrows, rejected.
  destruct (failsValidation env _); cbn [orb]; run_handler.
  - split; [done|discriminate].
  - split; intros ->; done.
Qed.

(** X18. The refusals of a join besides the two of the claims: an empty code
    gets 'Enter a join code.' without any store call; a code that is the id
    of no document, after the one lookup the store answers, gets 'No group
    found with that code.'; a failing lookup or a failing write gets 'Could
    not join that group. Please double-check the code.'; none of them
    changes the collection. *)
Theorem join_refusals env w u :
  w.(ui).(UI.user) = Some u →
  (trim w.(ui).(UI.joinCode) = [] →
   (handleJoinGroup env w).2.(ui).(UI.joinError)
   = Some (lit "Enter a join code.")
   ∧ (handleJoinGroup env w).2.(ui).(UI.joinSuccess) = None
   ∧ (handleJoinGroup env w).2.(calls) = w.(calls)
   ∧ (handleJoinGroup env w).2.(db) = w.(db))
  ∧ (namesGroupDocument (trim w.(ui).(UI.joinCode)) →
     env.(storeRejects) (length w.(calls)) = false →
     w.(db) !! trim w.(ui).(UI.joinCode) = None →
     (handleJoinGroup env w).2.(ui).(UI.joinError)
     = Some (lit "No group found with that code.")
     ∧ (handleJoinGroup env w).2.(ui).(UI.isJoining) = false
     ∧ (handleJoinGroup env w).2.(calls)
       = w.(calls) ++ [GetDoc (trim w.(ui).(UI.joinCode))]
     ∧ (handleJoinGroup env w).2.(db) = w.(db))
  ∧ (trim w.(ui).(UI.joinCode) ≠ [] →
     env.(storeRejects) (length w.(calls)) = true →
     (handleJoinGroup env w).2.(ui).(UI.joinError)
     = Some (lit "Could not join that group. Please double-check the code.")
     ∧ (handleJoinGroup env w).2.(ui).(UI.joinSuccess) = None
     ∧ (handleJoinGroup env w).2.(ui).(UI.joinCode) = w.(ui).(UI.joinCode)
     ∧ (handleJoinGroup env w).2.(ui).(UI.isJoining) = false
     ∧ (handleJoinGroup env w).2.(db) = w.(db))
  ∧ (∀ data,
       trim w.(ui).(UI.joinCode) ≠ [] →
       env.(storeRejects) (length w.(calls)) = false →
       w.(db) !! trim w.(ui).(UI.joinCode) = Some data →
       u.(User.uid) ∉ default [] data.(GroupDoc.memberIds) →
       Forall (λ field, ¬ blankResponse w.(ui).(UI.joinResponses) field)
         (default [] data.(GroupDoc.customFields)) →
       env.(storeRejects) (S (length w.(calls))) = true →
       (handleJoinGroup env w).2.(ui).(UI.joinError)
       = Some (lit "Could not join that group. Please double-check the code.")
       ∧ (handleJoinGroup env w).2.(ui).(UI.joinSuccess) = None
       ∧ (handleJoinGroup env w).2.(ui).(UI.joinCode) = w.(ui).(UI.joinCode)
       ∧ (handleJoinGroup env w).2.(ui).(UI.isJoining) = false
       ∧ (handleJoinGroup env w).2.(db) = w.(db)).
Proof.
  intros Hu.
  unfold handleJoinGroup. run_handler. rewrite Hu.
  split_and!.
  - by intros ->.
  - intros [Hcode _] Hok Hnone. rewrite truthy_true by done. cbn [negb].
    run_handler. by rewrite Hok, Hnone.
  - intros Hcode Hrej. rewrite truthy_true by done. cbn [negb].
    run_handler. by rewrite Hrej.
  - intros data Hcode Hok Hdata Hin Hfilled Hrej.
    rewrite truthy_true by done. cbn [negb]. run_handler.
    rewrite Hok, Hdata, bool_decide_eq_false_2 by done.
    rewrite missingFields_blank, filter_Forall_not_length by done.
    run_handler. rewrite length_app, Nat.add_comm. cbn [length Nat.add].
    by rewrite Hrej.
Qed.

(** X19. A join that goes through makes one lookup and one update, leaves the
    document with the user appended to the member ids and with their profile
    and responses recorded, selects the group and empties the join form. *)
Theorem join_adds_member env w u data :
  w.(ui).(UI.user) = Some u →
  trim w.(ui).(UI.joinCode) ≠ [] →
  env.(storeRejects) (length w.(calls)) = false →
  env.(storeRejects) (S (length w.(calls))) = false →
  w.(db) !! trim w.(ui).(UI.joinCode) = Some data →
  u.(User.uid) ∉ default [] data.(GroupDoc.memberIds) →
  Forall (λ field, ¬ blankResponse w.(ui).(UI.joinResponses) field)
    (default [] data.(GroupDoc.customFields)) →
  (handleJoinGroup env w).2.(db)
  = <[trim w.(ui).(UI.joinCode) :=
        joinedDoc u w.(ui).(UI.joinResponses) data]> w.(db)
  ∧ (handleJoinGroup env w).2.(calls)
    = w.(calls)
      ++ [GetDoc (trim w.(ui).(UI.joinCode));
          UpdateDoc (trim w.(ui).(UI.joinCode))
            [MemberIdsArrayUnion u.(User.uid);
             MembersSet u.(User.uid)
               {| MemberProfile.displayName := getDisplayName u;
                  MemberProfile.photoURL := u.(User.photoURL) |};
             MemberResponsesSet u.(User.uid) w.(ui).(UI.joinResponses)]]
  ∧ (handleJoinGroup env w).2.(ui).(UI.joinSuccess)
    = Some (lit "Welcome aboard! You have joined the group.")
  ∧ (handleJoinGroup env w).2.(ui).(UI.joinError) = None
  ∧ (handleJoinGroup env w).2.(ui).(UI.selectedGroupId)
    = Some (trim w.(ui).(UI.joinCode))
  ∧ (handleJoinGroup env w).2.(ui).(UI.joinCode) = []
  ∧ (handleJoinGroup env w).2.(ui).(UI.joinGroupFields) = []
  ∧ (handleJoinGroup env w).2.(ui).(UI.joinResponses) = ∅
  ∧ (handleJoinGroup env w).2.(ui).(UI.isJoining) = false.
Proof.
  intros Hu Hcode Hok1 Hok2 Hdata Hin Hfilled.
  destruct (handleJoinGroup_success env w u data)
    as (w1 & -> & Hdb & Hcalls & Hui); try done.
  cbn [snd]. by rewrite Hui.
Qed.

(** X6. When the store rejects the update of a draw, or the document is gone,
    the collection is unchanged, the draw error is 'Something went wrong
    running the draw. Please try again.', no success is reported and the
    busy flag is released. *)
Theorem runDraw_store_failure env group w u :
  w.(ui).(UI.user) = Some u →
  u.(User.uid) = group.(Group.ownerId) →
  2 ≤ length group.(Group.memberIds) →
  env.(storeRejects) (length w.(calls)) = true
  ∨ w.(db) !! group.(Group.id) = None →
  (handleRunDraw env group w).2.(db) = w.(db)
  ∧ (handleRunDraw env group w).2.(ui).(UI.drawError)
    = Some (lit "Something went wrong running the draw. Please try again.")
  ∧ (handleRunDraw env group w).2.(ui).(UI.drawSuccess) = None
  ∧ (handleRunDraw env group w).2.(ui).(UI.isRunningDraw) = false.
Proof.
  intros Hu Ho Hn Hfail.
  destruct (handleRunDraw_run env group w u Hu Ho Hn)
    as (shuffled & w2 & Hperm & (Hui & Hdb & Hcalls) & ->).
  change (db (drawStarted w)) with (db w) in Hdb.
  change (calls (drawStarted w)) with (calls w) in Hcalls.
  cbn [snd].
  destruct (updateDoc_outcome env group.(Group.id)
              [AssignmentsSet (buildAssignments group shuffled);
               DrawRunAtServerTimestamp] w2)
    as [[-> _]|(data & Hok & Hdata & _)].
  - cbn. by rewrite Hui, Hdb.
  - rewrite Hcalls in Hok. rewrite Hdb in Hdata.
    destruct Hfail; congruence.
Qed.

(** ** Handlers in sequence *)

(** X20. After a join that went through, joining again with the same code is
    refused as 'You are already part of that group.' and the member ids hold
    the user once. *)
Theorem join_twice_is_refused env w u data code :
  w.(ui).(UI.user) = Some u →
  trim w.(ui).(UI.joinCode) ≠ [] →
  env.(storeRejects) (length w.(calls)) = false →
  env.(storeRejects) (S (length w.(calls))) = false →
  w.(db) !! trim w.(ui).(UI.joinCode) = Some data →
  u.(User.uid) ∉ default [] data.(GroupDoc.memberIds) →
  Forall (λ field, ¬ blankResponse w.(ui).(UI.joinResponses) field)
    (default [] data.(GroupDoc.customFields)) →
  trim code = trim w.(ui).(UI.joinCode) →
  env.(storeRejects) (S (S (length w.(calls)))) = false →
  (handleJoinGroup env
     (withUi (UI.setJoinCode code) (handleJoinGroup env w).2)).2.(ui).(UI.joinError)
  = Some (lit "You are already part of that group.")
  ∧ (handleJoinGroup env
       (withUi (UI.setJoinCode code) (handleJoinGroup env w).2)).2.(db)
    = (handleJoinGroup env w).2.(db)
  ∧ ∀ joined,
      (handleJoinGroup env w).2.(db) !! trim w.(ui).(UI.joinCode) = Some joined →
      joined.(GroupDoc.memberIds)
      = Some (default [] data.(GroupDoc.memberIds) ++ [u.(User.uid)]).
Proof.
  intros Hu Hcode Hok1 Hok2 Hdata Hin Hfilled Hsame Hok3.
  destruct (handleJoinGroup_success env w u data)
    as (w1 & -> & Hdb & Hcalls & Hui); try done.
  cbn [snd]. set (w2 := withUi (UI.setJoinCode code) w1).
  assert (w2.(ui).(UI.user) = Some u) as Hu2 by (cbn; by rewrite Hui).
  assert (trim w2.(ui).(UI.joinCode) = trim w.(ui).(UI.joinCode)) as Hcode2
    by done.
  assert (length w2.(calls) = S (S (length w.(calls)))) as Hcalls2.
  { cbn. rewrite Hcalls, length_app. cbn. lia. }
  rewrite (handleJoinGroup_already_member env w2 u
             (joinedDoc u w.(ui).(UI.joinResponses) data)).
  - cbn. rewrite Hdb. split_and!; [done..|].
    rewrite lookup_insert_eq. by intros joined [= <-].
  - done.
  - by rewrite Hcode2.
  - by rewrite Hcalls2.
  - rewrite Hcode2. cbn. by rewrite Hdb, lookup_insert_eq.
  - cbn. apply elem_of_app. right. apply list_elem_of_here.
Qed.

Lemma handleCreateGroup_success env w u :
  w.(ui).(UI.user) = Some u →
  trim w.(ui).(UI.newGroupName) ≠ [] →
  addDocThrows env
    (newGroupData u (trim w.(ui).(UI.newGroupName))
       w.(ui).(UI.newGroupDescription) w.(ui).(UI.customFields)) w
  = false →
  ∃ w1,
    handleCreateGroup env w = (Returned (), w1)
    ∧ w1.(db)
      = <[env.(autoId) (length w.(calls)) :=
            stampCreatedAt (env.(serverTime) (length w.(calls)))
              (newGroupData u (trim w.(ui).(UI.newGroupName))
                 w.(ui).(UI.newGroupDescription) w.(ui).(UI.customFields))]>
          w.(db)
    ∧ length w1.(calls) = S (length w.(calls))
    ∧ w1.(ui).(UI.user) = Some u
    ∧ w1.(ui).(UI.joinCode) = w.(ui).(UI.joinCode).
Proof.
  intros Hu Hname [Hvalid Hok]%orb_false_elim. unfold rejected in Hok.
  eexists. unfold handleCreateGroup. run_handler.
  rewrite Hu, truthy_true by done. cbn [negb]. run_handler.
  rewrite Hvalid. run_handler. rewrite Hok.
  split; [reflexivity|]. cbn. split_and!; [done| |done..].
  rewrite length_app. cbn. lia.
Qed.

Lemma loadGroupFields_loaded env w data :
  20 ≤ length (trim w.(ui).(UI.joinCode)) →
  env.(storeRejects) (length w.(calls)) = false →
  w.(db) !! trim w.(ui).(UI.joinCode) = Some data →
  loadGroupFields env w
  = (Returned (),
     withUi (UI.setJoinResponses
               (initialResponses (default [] data.(GroupDoc.customFields))))
       (withUi (UI.setJoinGroupFields (default [] data.(GroupDoc.customFields)))
          (logCall (GetDoc (trim w.(ui).(UI.joinCode))) w))).
Proof.
  intros Hlen Hok Hdata.
  unfold loadGroupFields. run_handler.
  destruct (Nat.ltb_spec (length (trim w.(ui).(UI.joinCode))) 20) as [?|_];
    [lia|].
  rewrite truthy_true by (intros Hnil; rewrite Hnil in Hlen; cbn in Hlen; lia).
  cbn [negb orb]. run_handler. by rewrite Hok, Hdata.
Qed.

Lemma customFields_stored (fields : list CustomField.t) :
  default [] (if 0 <? length fields then Some fields else None) = fields.
Proof. by destruct fields. Qed.

(** X21. The id of a group just created, typed as join code, loads the custom
    fields the group was created with; and its creator, being a member
    already, cannot join it. *)
Theorem created_group_is_joinable_at_once env w u :
  w.(ui).(UI.user) = Some u →
  trim w.(ui).(UI.newGroupName) ≠ [] →
  addDocThrows env
    (newGroupData u (trim w.(ui).(UI.newGroupName))
       w.(ui).(UI.newGroupDescription) w.(ui).(UI.customFields)) w
  = false →
  env.(storeRejects) (S (length w.(calls))) = false →
  trim (env.(autoId) (length w.(calls))) = env.(autoId) (length w.(calls)) →
  20 ≤ length (env.(autoId) (length w.(calls))) →
  w.(ui).(UI.joinCode) ≠ env.(autoId) (length w.(calls)) →
  (typeJoinCode env (env.(autoId) (length w.(calls)))
     (handleCreateGroup env w).2).2.(ui).(UI.joinGroupFields)
  = w.(ui).(UI.customFields)
  ∧ (handleJoinGroup env
       (withUi (UI.setJoinCode (env.(autoId) (length w.(calls))))
          (handleCreateGroup env w).2)).2.(ui).(UI.joinError)
    = Some (lit "You are already part of that group.").
Proof.
  intros Hu Hname Hok1 Hok2 Htrim Hlen Hcode.
  destruct (handleCreateGroup_success env w u Hu Hname Hok1)
    as (w1 & -> & Hdb & Hcalls & Hu1 & Hjc).
  cbn [snd]. set (newId := env.(autoId) (length w.(calls))) in *.
  set (data := stampCreatedAt _ _) in Hdb.
  set (w2 := withUi (UI.setJoinCode newId) w1).
  assert (trim w2.(ui).(UI.joinCode) = newId) as Hcode2 by done.
  assert (w2.(db) !! trim w2.(ui).(UI.joinCode) = Some data) as Hdata2.
  { rewrite Hcode2. cbn. by rewrite Hdb, lookup_insert_eq. }
  assert (env.(storeRejects) (length w2.(calls)) = false) as Hok
    by (cbn; by rewrite Hcalls).
  split.
  - unfold typeJoinCode, mbind, M_bind, getState, setState. fold w2.
    rewrite bool_decide_eq_false_2 by (by rewrite Hjc).
    rewrite (loadGroupFields_loaded env w2 data); [|by rewrite Hcode2|done..].
    cbn. apply customFields_stored.
  - rewrite (handleJoinGroup_already_member env w2 u data); try done.
    + rewrite Hcode2. intros Hnil. rewrite Hnil in Hlen. cbn in Hlen. lia.
    + cbn. apply list_elem_of_here.
Qed.

Lemma initialResponses_lookup_acc (fields : list CustomField.t)
    (acc : gmap (list N) (list N)) k :
  foldl (λ acc field, <[field.(CustomField.id) := []]> acc) acc fields !! k
  = if bool_decide (k ∈ CustomField.id <$> fields) then Some [] else acc !! k.
Proof.
  revert acc. induction fields as [|field fields IH]; intros acc; [done|].
  cbn [foldl fmap list_fmap]. rewrite IH.
  destruct (decide (k = field.(CustomField.id))) as [->|Hne].
  - rewrite lookup_insert_eq.
    rewrite (bool_decide_eq_true_2 (_ ∈ _ :: _)) by apply list_elem_of_here.
    by case_bool_decide.
  - rewrite lookup_insert_ne by done.
    rewrite (bool_decide_ext (k ∈ field.(CustomField.id) :: (CustomField.id <$> fields))
               (k ∈ CustomField.id <$> fields)); [done|].
    rewrite elem_of_cons. split; [by intros [?|?]|by right].
Qed.

Lemma filter_Forall_id {A} (P : A → Prop) `{!∀ x, Decision (P x)} l :
  Forall P l → filter P l = l.
Proof.
  induction 1 as [|x l Hx _ IH]; [done|]. by rewrite filter_cons_True, IH.
Qed.

Lemma initialResponses_all_blank (fields : list CustomField.t) :
  filter (blankResponse (initialResponses fields)) fields = fields.
Proof.
  apply filter_Forall_id. apply Forall_forall. intros field Hfield.
  unfold blankResponse, initialResponses.
  rewrite initialResponses_lookup_acc, bool_decide_eq_true_2; [done|].
  by apply list_elem_of_fmap_2.
Qed.

(** X22. Submitting the join form right after its schema was loaded, with
    nothing typed, is refused with the labels of all custom fields. *)
Theorem untouched_form_lists_every_field env w u data :
  w.(ui).(UI.user) = Some u →
  20 ≤ length (trim w.(ui).(UI.joinCode)) →
  env.(storeRejects) (length w.(calls)) = false →
  env.(storeRejects) (S (length w.(calls))) = false →
  w.(db) !! trim w.(ui).(UI.joinCode) = Some data →
  u.(User.uid) ∉ default [] data.(GroupDoc.memberIds) →
  default [] data.(GroupDoc.customFields) ≠ [] →
  (handleJoinGroup env (loadGroupFields env w).2).2.(ui).(UI.joinError)
  = Some (lit "Please fill out all required fields: "
          ++ join (lit ", ")
               (CustomField.label <$> default [] data.(GroupDoc.customFields)))
  ∧ (handleJoinGroup env (loadGroupFields env w).2).2.(db) = w.(db).
Proof.
  intros Hu Hlen Hok1 Hok2 Hdata Hin Hfields.
  rewrite (loadGroupFields_loaded env w data) by done. cbn [snd].
  set (fields := default [] data.(GroupDoc.customFields)) in *.
  set (w1 := withUi _ _).
  rewrite (handleJoinGroup_incomplete env w1 u data).
  - cbn. fold fields. by rewrite initialResponses_all_blank.
  - done.
  - change (trim w.(ui).(UI.joinCode) ≠ []).
    intros Hnil. rewrite Hnil in Hlen. cbn in Hlen. lia.
  - cbn. rewrite length_app, Nat.add_comm. done.
  - done.
  - done.
  - cbn. fold fields. apply Exists_exists.
    destruct fields as [|field fields'] eqn:Heq; [done|].
    exists field. split; [apply list_elem_of_here|].
    assert (field ∈ filter (blankResponse (initialResponses (field :: fields')))
                      (field :: fields')) as Hf.
    { rewrite initialResponses_all_blank. apply list_elem_of_here. }
    by apply list_elem_of_filter in Hf as [? _].
Qed.

Lemma answerFields_cons (answer : list N → list N) field
    (fields : list CustomField.t) w :
  answerFields answer (field :: fields) w
  = answerFields answer fields
      (withUi (UI.setJoinResponses
                 (<[field.(CustomField.id) := answer field.(CustomField.id)]>
                    w.(ui).(UI.joinResponses))) w).
Proof. reflexivity. Qed.

Lemma answerFields_run (answer : list N → list N)
    (fields : list CustomField.t) w :
  answerFields answer fields w
  = (Returned (),
     withUi (UI.setJoinResponses
               (foldl (λ acc field,
                         <[field.(CustomField.id) :=
                             answer field.(CustomField.id)]> acc)
                  w.(ui).(UI.joinResponses) fields)) w).
Proof.
  revert w. induction fields as [|field fields IH]; intros w.
  - by destruct w as [[] ? ? ?].
  - rewrite answerFields_cons, IH. done.
Qed.

Lemma answers_lookup (answer : list N → list N) (fields : list CustomField.t)
    (acc : gmap (list N) (list N)) k :
  foldl (λ acc field,
           <[field.(CustomField.id) := answer field.(CustomField.id)]> acc)
    acc fields !! k
  = if bool_decide (k ∈ CustomField.id <$> fields) then Some (answer k)
    else acc !! k.
Proof.
  revert acc. induction fields as [|field fields IH]; intros acc; [done|].
  cbn [foldl fmap list_fmap]. rewrite IH.
  destruct (decide (k = field.(CustomField.id))) as [->|Hne].
  - rewrite lookup_insert_eq.
    rewrite (bool_decide_eq_true_2 (_ ∈ _ :: _)) by apply list_elem_of_here.
    by case_bool_decide.
  - rewrite lookup_insert_ne by done.
    rewrite (bool_decide_ext (k ∈ field.(CustomField.id) :: (CustomField.id <$> fields))
               (k ∈ CustomField.id <$> fields)); [done|].
    rewrite elem_of_cons. split; [by intros [?|?]|by right].
Qed.

(** X23. Loading the schema, typing a non-blank answer into every field and
    submitting adds the user to the group and stores exactly the answers
    typed. *)
Theorem answering_every_field_lets_you_join env w u data answer :
  w.(ui).(UI.user) = Some u →
  20 ≤ length (trim w.(ui).(UI.joinCode)) →
  env.(storeRejects) (length w.(calls)) = false →
  env.(storeRejects) (S (length w.(calls))) = false →
  env.(storeRejects) (S (S (length w.(calls)))) = false →
  w.(db) !! trim w.(ui).(UI.joinCode) = Some data →
  u.(User.uid) ∉ default [] data.(GroupDoc.memberIds) →
  (∀ field, field ∈ default [] data.(GroupDoc.customFields) →
            trim (answer field.(CustomField.id)) ≠ []) →
  ∃ joined,
    (handleJoinGroup env
       (answerAll answer (loadGroupFields env w).2).2).2.(db)
    = <[trim w.(ui).(UI.joinCode) := joined]> w.(db)
    ∧ joined.(GroupDoc.memberIds)
      = Some (default [] data.(GroupDoc.memberIds) ++ [u.(User.uid)])
    ∧ ∀ field,
        field ∈ default [] data.(GroupDoc.customFields) →
        default ∅ joined.(GroupDoc.memberResponses) !! u.(User.uid)
          ≫= (.!! field.(CustomField.id))
        = Some (answer field.(CustomField.id)).
Proof.
  intros Hu Hlen Hok1 Hok2 Hok3 Hdata Hin Hanswers.
  rewrite (loadGroupFields_loaded env w data) by done. cbn [snd].
  set (fields := default [] data.(GroupDoc.customFields)) in *.
  unfold answerAll, mbind, M_bind, getState. cbn [ui withUi UI.joinGroupFields UI.setJoinResponses UI.setJoinGroupFields].
  rewrite answerFields_run. cbn [snd].
  set (w2 := withUi _ _).
  set (responses := foldl _ _ fields) in w2.
  assert (w2.(ui).(UI.joinResponses) = responses) as Hresp by done.
  assert (∀ field, field ∈ fields →
            responses !! field.(CustomField.id)
            = Some (answer field.(CustomField.id))) as Hlookup.
  { intros field Hfield. unfold responses.
    rewrite answers_lookup, bool_decide_eq_true_2; [done|].
    by apply list_elem_of_fmap_2. }
  destruct (handleJoinGroup_success env w2 u data)
    as (w3 & -> & Hdb & _ & _).
  - done.
  - change (trim w.(ui).(UI.joinCode) ≠ []).
    intros Hnil. rewrite Hnil in Hlen. cbn in Hlen. lia.
  - cbn. rewrite length_app, Nat.add_comm. done.
  - cbn. rewrite length_app, Nat.add_comm. done.
  - done.
  - done.
  - rewrite Hresp. fold fields. apply Forall_forall. intros field Hfield.
    unfold blankResponse. rewrite (Hlookup field Hfield).
    by apply Hanswers.
  - exists (joinedDoc u responses data). cbn [snd]. split_and!.
    + by rewrite Hdb.
    + done.
    + intros field Hfield. cbn. rewrite lookup_insert_eq. cbn.
      by apply Hlookup.
Qed.

(** X7. After an accepted draw over distinct members, the snapshot of the
    stored group gives every member a match ([myAssignment]) who is another
    member, and gives nobody else one. *)
Theorem every_member_sees_a_match env group w u data :
  w.(ui).(UI.user) = Some u →
  u.(User.uid) = group.(Group.ownerId) →
  2 ≤ length group.(Group.memberIds) →
  NoDup group.(Group.memberIds) →
  env.(storeRejects) (length w.(calls)) = false →
  w.(db) !! group.(Group.id) = Some data →
  ∃ drawn,
    (handleRunDraw env group w).2.(db) !! group.(Group.id) = Some drawn
    ∧ (∀ m, m ∈ group.(Group.memberIds) →
            ∃ record,
              myAssignment (Some (toGroup group.(Group.id) drawn)) m
              = Some record
              ∧ record.(Assignment.recipientId) ≠ m
              ∧ record.(Assignment.recipientId) ∈ group.(Group.memberIds))
    ∧ (∀ m, m ∉ group.(Group.memberIds) →
            myAssignment (Some (toGroup group.(Group.id) drawn)) m = None).
Proof.
  intros Hu Ho Hn Hnd Hok Hdata.
  destruct (handleRunDraw_run env group w u Hu Ho Hn)
    as (shuffled & w2 & Hperm & (Hui & Hdb & Hcalls) & ->).
  change (db (drawStarted w)) with (db w) in Hdb.
  change (calls (drawStarted w)) with (calls w) in Hcalls.
  cbn [snd]. rewrite drawFinished_db.
  rewrite (updateDoc_accepted _ _ _ _ data);
    [|by rewrite Hcalls|by rewrite Hdb].
  cbn [snd withDb db]. rewrite lookup_insert_eq. eexists. split; [done|].
  cbn.
  assert (SingleCycle group.(Group.memberIds)
            (buildAssignments group shuffled)) as Hcycle.
  { apply (SingleCycle_Permutation _ shuffled); [done|].
    apply buildAssignments_SingleCycle; by rewrite Hperm. }
  split.
  - intros m Hm.
    destruct (proj2 (givers_are_the_members _ _ Hcycle m) Hm) as [record Hrec].
    exists record. split; [done|]. split.
    + intros Heq. apply (nobody_draws_themselves _ _ Hcycle m).
      unfold recipientOf. by rewrite Hrec, <-Heq.
    + apply (recipients_are_members _ _ Hcycle m).
      unfold recipientOf. by rewrite Hrec.
  - intros m Hm. apply eq_None_not_Some.
    by rewrite (givers_are_the_members _ _ Hcycle m).
Qed.

Lemma shown_all (fields : list CustomField.t) (responses : gmap (list N) (list N)) :
  Forall (λ field, ¬ blankResponse responses field) fields →
  omap (λ field,
          match responses !! field.(CustomField.id) with
          | Some response =>
              if truthy response
              then Some (field.(CustomField.label), response)
              else None
          | None => None
          end) fields
  = (λ field, (field.(CustomField.label),
               default [] (responses !! field.(CustomField.id)))) <$> fields.
Proof.
  induction 1 as [|field fields Hfield _ IH]; [done|].
  cbn. rewrite IH. unfold blankResponse in Hfield.
  destruct (responses !! field.(CustomField.id)) as [response|]; [|done].
  destruct response; [done|]. done.
Qed.

(** X24. After a join that went through, the roster shows under the new member
    every custom field with the answer given, and what it shows under the
    earlier members is unchanged. *)
Theorem answers_are_shown_after_joining env w u data :
  w.(ui).(UI.user) = Some u →
  trim w.(ui).(UI.joinCode) ≠ [] →
  env.(storeRejects) (length w.(calls)) = false →
  env.(storeRejects) (S (length w.(calls))) = false →
  w.(db) !! trim w.(ui).(UI.joinCode) = Some data →
  u.(User.uid) ∉ default [] data.(GroupDoc.memberIds) →
  Forall (λ field, ¬ blankResponse w.(ui).(UI.joinResponses) field)
    (default [] data.(GroupDoc.customFields)) →
  ∃ joined,
    (handleJoinGroup env w).2.(db) !! trim w.(ui).(UI.joinCode) = Some joined
    ∧ shownResponses (toGroup (trim w.(ui).(UI.joinCode)) joined) u.(User.uid)
      = (λ field, (field.(CustomField.label),
                   default [] (w.(ui).(UI.joinResponses)
                                 !! field.(CustomField.id))))
          <$> default [] data.(GroupDoc.customFields)
    ∧ ∀ m, m ∈ default [] data.(GroupDoc.memberIds) →
           shownResponses (toGroup (trim w.(ui).(UI.joinCode)) joined) m
           = shownResponses (toGroup (trim w.(ui).(UI.joinCode)) data) m.
Proof.
  intros Hu Hcode Hok1 Hok2 Hdata Hin Hfilled.
  destruct (handleJoinGroup_success env w u data)
    as (w1 & -> & Hdb & _ & _); try done.
  cbn [snd]. rewrite Hdb, lookup_insert_eq. eexists. split; [done|].
  unfold shownResponses. cbn. split.
  - rewrite lookup_insert_eq.
    destruct (default [] data.(GroupDoc.customFields)) as [|field fields] eqn:Hf;
      [done|].
    cbn [length Nat.ltb Nat.leb]. by apply shown_all.
  - intros m Hm.
    assert (u.(User.uid) ≠ m) by (intros Heq; by subst m).
    by rewrite lookup_insert_ne.
Qed.

(** ** More on the shuffle and the draw *)

Section ShuffleMore.
Context {A : Type}.
Implicit Types (copy items target : list A).

Lemma shuffleLoop_randomCalls env i copy w :
  (shuffleLoop env i copy w).2.(randomCalls) = w.(randomCalls) + i.
Proof.
  revert copy w. induction i as [|i IH]; intros copy w.
  - cbn. lia.
  - cbn [shuffleLoop]. unfold mbind, M_bind, randomBelow.
    rewrite IH. cbn. lia.
Qed.

(** X1. [shuffle] returns a permutation of its argument for every random
    outcome; it draws one random number per element but the first and
    leaves state, collection and call log alone. *)
Theorem shuffle_permutes env items w :
  ∃ shuffled,
    (shuffle env items w).1 = Returned shuffled
    ∧ shuffled ≡ₚ items
    ∧ (shuffle env items w).2.(randomCalls)
      = w.(randomCalls) + (length items - 1)
    ∧ (shuffle env items w).2.(ui) = w.(ui)
    ∧ (shuffle env items w).2.(db) = w.(db)
    ∧ (shuffle env items w).2.(calls) = w.(calls).
Proof.
  pose proof (shuffleLoop_randomCalls env (length items - 1) items w) as Hn.
  fold (shuffle env items w) in Hn.
  destruct (shuffle_Permutation env items w)
    as (shuffled & w' & Hrun & Hperm & Hui & Hdb & Hcalls).
  rewrite Hrun in *. by exists shuffled.
Qed.

(** Every arrangement can come out: the outcomes that produce [target]. *)
Lemma shuffleLoop_reaches i :
  ∀ pre target suffix,
    length pre = S i → target ≡ₚ pre →
    ∃ outcomes : nat → nat,
      ∀ env w,
        (∀ k, k < i →
              env.(randomOutcome) (w.(randomCalls) + k) = outcomes k) →
        (shuffleLoop env i (pre ++ suffix) w).1 = Returned (target ++ suffix).
Proof.
  induction i as [|i IH]; intros pre target suffix Hlen Hperm.
  - exists (λ _, 0). intros env w _. cbn.
    destruct pre as [|x [|? ?]]; try done.
    by apply Permutation_singleton_r in Hperm as ->.
  - destruct (decide (target = [])) as [->|Hne].
    { apply Permutation_nil_l in Hperm. by subst pre. }
    destruct (exists_last Hne) as (target' & x & ->). clear Hne.
    assert (x ∈ pre) as [j Hj]%list_elem_of_lookup_1.
    { rewrite <-Hperm. apply elem_of_app. right. apply list_elem_of_here. }
    assert (j < S (S i)) as Hjlt by (rewrite <-Hlen; by eapply lookup_lt_Some).
    set (copy := pre ++ suffix).
    assert (S i < length copy) as Hi.
    { unfold copy. rewrite length_app. lia. }
    assert (j < length copy) as Hjc.
    { unfold copy. rewrite length_app. lia. }
    set (swapped := swap copy (S i) j).
    assert (swapped !! S i = Some x) as Hx.
    { unfold swapped. rewrite swap_lookup by done. unfold transpose.
      case_decide as Hij.
      - subst j. unfold copy. by rewrite lookup_app_l by lia.
      - rewrite decide_True by done. unfold copy.
        by rewrite lookup_app_l by lia. }
    assert (drop (S (S i)) swapped = suffix) as Hdrop.
    { apply list_eq. intros k. rewrite lookup_drop.
      unfold swapped. rewrite swap_lookup by done. unfold transpose.
      rewrite !decide_False by lia.
      unfold copy. rewrite lookup_app_r by lia. f_equal. lia. }
    assert (swapped = take (S i) swapped ++ x :: suffix) as Hsplit.
    { rewrite <-(take_drop (S i) swapped) at 1. f_equal.
      rewrite (drop_S _ x _ Hx). by rewrite Hdrop. }
    assert (length (take (S i) swapped) = S i) as Hlen'.
    { rewrite length_take. unfold swapped. rewrite swap_length. lia. }
    assert (target' ≡ₚ take (S i) swapped) as Hperm'.
    { apply (Permutation_app_inv_r (x :: suffix)).
      rewrite <-Hsplit. unfold swapped.
      rewrite swap_Permutation by done. unfold copy.
      rewrite <-Hperm. by rewrite <-app_assoc. }
    destruct (IH (take (S i) swapped) target' (x :: suffix) Hlen' Hperm')
      as [outcomes Houtcomes].
    exists (λ k, match k with 0 => j | S k' => outcomes k' end).
    intros env w Henv.
    cbn [shuffleLoop]. unfold mbind, M_bind, randomBelow.
    pose proof (Henv 0 ltac:(lia)) as H0. rewrite Nat.add_0_r in H0.
    rewrite H0, Nat.mod_small by lia.
    fold copy. fold swapped. rewrite Hsplit.
    rewrite Houtcomes.
    + by rewrite <-app_assoc.
    + intros k Hk. cbn. rewrite <-(Henv (S k)) by lia. f_equal. lia.
Qed.

Lemma shuffle_reaches items target :
  target ≡ₚ items →
  ∃ outcomes : nat → nat,
    ∀ env w,
      (∀ k, env.(randomOutcome) (w.(randomCalls) + k) = outcomes k) →
      (shuffle env items w).1 = Returned target.
Proof.
  intros Hperm. unfold shuffle.
  destruct items as [|x items].
  - apply Permutation_nil_r in Hperm as ->. by exists (λ _, 0).
  - destruct (shuffleLoop_reaches (length items) (x :: items) target []
                eq_refl Hperm) as [outcomes Houtcomes].
    exists outcomes. intros env w Henv.
    specialize (Houtcomes env w (λ k _, Henv k)).
    rewrite !app_nil_r in Houtcomes.
    by replace (length (x :: items) - 1) with (length items) by (cbn; lia).
Qed.

(** X2. Every arrangement of the items is the result of [shuffle] for some
    outcomes of the random draws. *)
Theorem shuffle_reaches_every_arrangement items target :
  target ≡ₚ items →
  ∃ outcomes : nat → nat,
    ∀ env w,
      (∀ k, env.(randomOutcome) (w.(randomCalls) + k) = outcomes k) →
      (shuffle env items w).1 = Returned target.
Proof. apply shuffle_reaches. Qed.

End ShuffleMore.

Lemma handleRunDraw_shuffled env group w u shuffled w2 :
  w.(ui).(UI.user) = Some u →
  u.(User.uid) = group.(Group.ownerId) →
  2 ≤ length group.(Group.memberIds) →
  shuffle env group.(Group.memberIds) (drawStarted w) = (Returned shuffled, w2) →
  handleRunDraw env group w
  = (Returned (),
     drawFinished
       (updateDoc env group.(Group.id)
          [AssignmentsSet (buildAssignments group shuffled);
           DrawRunAtServerTimestamp] w2)).
Proof.
  intros Hu Ho Hn Hrun.
  unfold handleRunDraw, mbind, M_bind, getState.
  rewrite (isOwner_true _ _ u) by done. cbn [negb].
  unfold setState at 1 2.
  destruct (Nat.ltb_spec (length (Group.memberIds group)) 2) as [?|_]; [lia|].
  unfold setState at 1. unfold tryCatchFinally, tryCatch.
  fold (drawStarted w). rewrite Hrun. unfold drawFinished.
  by destruct (updateDoc _ _ _ w2) as [[[]|] w3].
Qed.

(** X3. For every arrangement of the members of a group, who are at least
    two and all distinct, there are random outcomes under which the owner's
    draw hands the store the cycle along that arrangement: the map sent has
    each member of the arrangement give to the one after it, and the last to
    the first, with the record the draw builds for that recipient, and it is
    one cycle through all the members. *)
Theorem runDraw_reaches_every_arrangement group u target :
  u.(User.uid) = group.(Group.ownerId) →
  2 ≤ length group.(Group.memberIds) →
  NoDup group.(Group.memberIds) →
  target ≡ₚ group.(Group.memberIds) →
  ∃ outcomes : nat → nat,
    ∀ env w,
      w.(ui).(UI.user) = Some u →
      (∀ k, env.(randomOutcome) (w.(randomCalls) + k) = outcomes k) →
      ∃ assignments,
        (handleRunDraw env group w).2.(calls)
        = w.(calls)
          ++ [UpdateDoc group.(Group.id)
                [AssignmentsSet assignments; DrawRunAtServerTimestamp]]
        ∧ (∀ i giver,
             target !! i = Some giver →
             ∃ receiver,
               target !! ((i + 1) `mod` length target) = Some receiver
               ∧ assignments !! giver = Some (assignmentFor group receiver)
               ∧ recipientOf assignments giver = Some receiver)
        ∧ SingleCycle group.(Group.memberIds) assignments.
Proof.
  intros Ho Hn Hnd Hperm.
  assert (NoDup target) as Hndt by (by rewrite Hperm).
  assert (2 ≤ length target) as Hnt by (by rewrite Hperm).
  destruct (shuffle_reaches group.(Group.memberIds) target Hperm)
    as [outcomes Houtcomes].
  exists outcomes. intros env w Hu Henv.
  specialize (Houtcomes env (drawStarted w) Henv).
  destruct (shuffle_Permutation env group.(Group.memberIds) (drawStarted w))
    as (shuffled & w2 & Hrun & _ & _ & _ & Hcalls).
  rewrite Hrun in Houtcomes. cbn in Houtcomes. injection Houtcomes as ->.
  exists (buildAssignments group target). split_and!.
  - rewrite (handleRunDraw_shuffled env group w u target w2) by done.
    cbn [snd]. by rewrite drawFinished_calls, updateDoc_calls, Hcalls.
  - intros i giver Hi.
    destruct (upTo_lookup group target (length target) i giver)
      as (receiver & Hnext & Hrecord);
      [done|done|by eapply lookup_lt_Some|done|].
    exists receiver. split; [done|].
    rewrite buildAssignments_upTo. unfold recipientOf.
    by rewrite Hrecord.
  - apply (SingleCycle_Permutation _ target); [done|].
    by apply buildAssignments_SingleCycle.
Qed.

(** X4. Every record the draw builds for a recipient who has a profile
    carries that profile's display name and avatar, as they are in the group
    the draw was called with. *)
Theorem runDraw_copies_profiles env group w u :
  w.(ui).(UI.user) = Some u →
  u.(User.uid) = group.(Group.ownerId) →
  2 ≤ length group.(Group.memberIds) →
  ∃ assignments,
    (handleRunDraw env group w).2.(calls)
    = w.(calls) ++ [UpdateDoc group.(Group.id)
                      [AssignmentsSet assignments; DrawRunAtServerTimestamp]]
    ∧ ∀ giver record profile,
        assignments !! giver = Some record →
        group.(Group.members) !! record.(Assignment.recipientId)
        = Some profile →
        record.(Assignment.recipientName)
        = profile.(MemberProfile.displayName)
        ∧ record.(Assignment.recipientPhotoURL)
          = profile.(MemberProfile.photoURL).
Proof.
  intros Hu Ho Hn.
  destruct (handleRunDraw_run env group w u Hu Ho Hn)
    as (shuffled & w2 & Hperm & (Hui & Hdb & Hcalls) & ->).
  exists (buildAssignments group shuffled). cbn [snd]. split.
  - by rewrite drawFinished_calls, updateDoc_calls, Hcalls.
  - intros giver record profile Hrec Hprofile.
    apply buildAssignments_entry in Hrec as (_ & r & _ & ->).
    cbn in *. by rewrite Hprofile.
Qed.

(** X5. In a group of two different members each draws the other, whatever
    the random outcomes. *)
Theorem runDraw_of_two_swaps env group w u a b :
  w.(ui).(UI.user) = Some u →
  u.(User.uid) = group.(Group.ownerId) →
  group.(Group.memberIds) = [a; b] →
  a ≠ b →
  ∃ assignments,
    (handleRunDraw env group w).2.(calls)
    = w.(calls) ++ [UpdateDoc group.(Group.id)
                      [AssignmentsSet assignments; DrawRunAtServerTimestamp]]
    ∧ recipientOf assignments a = Some b
    ∧ recipientOf assignments b = Some a.
Proof.
  intros Hu Ho Hids Hab.
  assert (2 ≤ length group.(Group.memberIds)) as Hn by by rewrite Hids.
  assert (NoDup group.(Group.memberIds)) as Hnd.
  { rewrite Hids. apply NoDup_cons. split; [|apply NoDup_singleton].
    by intros ?%list_elem_of_singleton. }
  destruct (handleRunDraw_run env group w u Hu Ho Hn)
    as (shuffled & w2 & Hperm & (Hui & Hdb & Hcalls) & ->).
  exists (buildAssignments group shuffled). cbn [snd]. split.
  { by rewrite drawFinished_calls, updateDoc_calls, Hcalls. }
  assert (SingleCycle group.(Group.memberIds)
            (buildAssignments group shuffled)) as Hcycle.
  { apply (SingleCycle_Permutation _ shuffled); [done|].
    apply buildAssignments_SingleCycle; by rewrite Hperm. }
  assert (∀ m, m ∈ [a; b] →
               ∃ r, recipientOf (buildAssignments group shuffled) m = Some r
                    ∧ r ≠ m ∧ r ∈ [a; b]) as Hother.
  { intros m Hm. rewrite <-Hids in Hm.
    destruct (proj2 (givers_are_the_members _ _ Hcycle m) Hm) as [record Hrec].
    exists record.(Assignment.recipientId).
    assert (recipientOf (buildAssignments group shuffled) m
            = Some record.(Assignment.recipientId)) as Hr
      by (unfold recipientOf; by rewrite Hrec).
    split_and!; [done| |].
    - intros Heq. apply (nobody_draws_themselves _ _ Hcycle m). by rewrite Hr, Heq.
    - rewrite <-Hids. by apply (recipients_are_members _ _ Hcycle m). }
  split.
  - destruct (Hother a) as (r & Hr & Hne & Hin); [apply list_elem_of_here|].
    apply elem_of_cons in Hin as [->|Hin]; [done|].
    by apply list_elem_of_singleton in Hin as ->.
  - destruct (Hother b) as (r & Hr & Hne & Hin).
    { apply elem_of_cons. right. apply list_elem_of_here. }
    apply elem_of_cons in Hin as [->|Hin]; [done|].
    by apply list_elem_of_singleton in Hin as ->.
Qed.

(** ** The groups of a snapshot, newest first *)

Lemma insertNewestFirst_Permutation group sorted :
  insertNewestFirst group sorted ≡ₚ group :: sorted.
Proof.
  induction sorted as [|other rest IH]; [done|]. cbn.
  destruct (createdMillis group <? createdMillis other)%N; [|done].
  by rewrite IH, Permutation_swap.
Qed.

Lemma sortNewestFirst_Permutation groups : sortNewestFirst groups ≡ₚ groups.
Proof.
  induction groups as [|group groups IH]; [done|]. cbn.
  by rewrite insertNewestFirst_Permutation, IH.
Qed.

Lemma insertNewestFirst_sorted group sorted :
  StronglySorted newerOrSame sorted →
  StronglySorted newerOrSame (insertNewestFirst group sorted).
Proof.
  induction 1 as [|other rest Hrest IH Hall].
  - cbn. repeat constructor.
  - cbn. destruct (N.ltb_spec (createdMillis group) (createdMillis other))
      as [Hlt|Hge].
    + constructor; [done|].
      rewrite insertNewestFirst_Permutation. constructor; [|done].
      unfold newerOrSame. lia.
    + constructor; [by constructor|].
      constructor; [done|].
      eapply Forall_impl; [exact Hall|]. unfold newerOrSame. intros; lia.
Qed.

Lemma sortNewestFirst_sorted groups :
  StronglySorted newerOrSame (sortNewestFirst groups).
Proof.
  induction groups as [|group groups IH]; [constructor|].
  by apply insertNewestFirst_sorted.
Qed.

Lemma insertNewestFirst_filter (t : N) group sorted :
  StronglySorted newerOrSame sorted →
  filter (λ g, createdMillis g = t) (insertNewestFirst group sorted)
  = filter (λ g, createdMillis g = t) (group :: sorted).
Proof.
  induction 1 as [|other rest Hrest IH Hall]; [done|]. cbn.
  destruct (N.ltb_spec (createdMillis group) (createdMillis other))
    as [Hlt|Hge]; [|done].
  rewrite (filter_cons _ other (insertNewestFirst group rest)), IH.
  rewrite !filter_cons.
  destruct (decide (createdMillis group = t)) as [Hg|Hg];
    destruct (decide (createdMillis other = t)) as [Ho|Ho]; try done.
  lia.
Qed.

Lemma sortNewestFirst_filter (t : N) groups :
  filter (λ g, createdMillis g = t) (sortNewestFirst groups)
  = filter (λ g, createdMillis g = t) groups.
Proof.
  induction groups as [|group groups IH]; [done|]. cbn [sortNewestFirst foldr].
  rewrite insertNewestFirst_filter by apply sortNewestFirst_sorted.
  fold (sortNewestFirst groups). by rewrite !filter_cons, IH.
Qed.

Lemma StronglySorted_lookup_lt {A} (R : relation A) l i j a b :
  StronglySorted R l → i < j → l !! i = Some a → l !! j = Some b → R a b.
Proof.
  intros Hsorted. revert i j.
  induction Hsorted as [|x l Hl IH Hall]; intros i j Hij Ha Hb; [done|].
  destruct j as [|j]; [lia|]. destruct i as [|i].
  - injection Ha as ->. cbn in Hb.
    rewrite Forall_forall in Hall. apply Hall.
    by eapply list_elem_of_lookup_2.
  - cbn in Ha, Hb. apply (IH i j); [lia|done..].
Qed.

(** X26. The groups of a snapshot are listed newest first: the list is a
    permutation of the snapshot's groups, in non-increasing order of creation
    time with a missing time counted as 0, groups of equal time in the
    snapshot's order, and a group without creation time after every group
    with a positive one. *)
Theorem nextGroups_newest_first docs :
  nextGroups docs ≡ₚ (λ doc, toGroup doc.1 doc.2) <$> docs
  ∧ StronglySorted (λ a b, (createdMillis b ≤ createdMillis a)%N)
      (nextGroups docs)
  ∧ (∀ t : N,
       filter (λ g, createdMillis g = t) (nextGroups docs)
       = filter (λ g, createdMillis g = t)
           ((λ doc, toGroup doc.1 doc.2) <$> docs))
  ∧ (∀ i j a b,
       nextGroups docs !! i = Some a → nextGroups docs !! j = Some b →
       a.(Group.createdAt) = None → (0 < createdMillis b)%N → j < i).
Proof.
  unfold nextGroups. set (groups := _ <$> docs). split_and!.
  - apply sortNewestFirst_Permutation.
  - apply sortNewestFirst_sorted.
  - intros t. apply sortNewestFirst_filter.
  - intros i j a b Ha Hb Hnone Hpos.
    destruct (decide (j < i)) as [|Hij]; [done|exfalso].
    assert (i ≠ j) by (intros ->; rewrite Ha in Hb; injection Hb as ->;
                       unfold createdMillis in Hpos; rewrite Hnone in Hpos;
                       cbn in Hpos; lia).
    pose proof (sortNewestFirst_sorted groups) as Hsorted.
    pose proof (StronglySorted_lookup_lt _ _ i j a b Hsorted ltac:(lia) Ha Hb)
      as Hle.
    unfold newerOrSame, createdMillis in *. rewrite Hnone in Hle. cbn in Hle.
    lia.
Qed.

(** ** Selection, names and the editors *)

Lemma resolveSelection_listed groups selectedGroupId groupId :
  resolveSelection groups selectedGroupId = Some groupId →
  isListed groups groupId = true.
Proof.
  assert (Group.id <$> head groups = Some groupId →
          isListed groups groupId = true) as Hhead.
  { destruct groups as [|group groups]; [done|]. intros [= <-].
    apply isListed_elem_of. exists group. split; [apply list_elem_of_here|done]. }
  unfold resolveSelection. destruct selectedGroupId as [candidate|]; [|done].
  destruct (truthy candidate); [|done]. cbn [andb].
  destruct (isListed groups candidate) eqn:Hlisted; [|done].
  by intros [= <-].
Qed.

Lemma resolveSelection_None groups selectedGroupId :
  resolveSelection groups selectedGroupId = None → groups = [].
Proof.
  unfold resolveSelection. destruct selectedGroupId as [candidate|].
  - destruct (truthy candidate && isListed groups candidate); [done|].
    by destruct groups.
  - by destruct groups.
Qed.

(** X27. Resolving a resolved selection changes nothing, and the group shown
    for a resolved selection is a listed group with the selected id, or none
    when there are no groups. *)
Theorem selection_settles groups selectedGroupId :
  resolveSelection groups (resolveSelection groups selectedGroupId)
  = resolveSelection groups selectedGroupId
  ∧ match selectedGroup groups (resolveSelection groups selectedGroupId) with
    | Some group =>
        group ∈ groups
        ∧ resolveSelection groups selectedGroupId = Some group.(Group.id)
    | None => groups = []
    end.
Proof.
  destruct (resolveSelection groups selectedGroupId) as [groupId|] eqn:Hres.
  - pose proof (resolveSelection_listed _ _ _ Hres) as Hlisted. split.
    + unfold resolveSelection at 1. rewrite Hlisted, andb_true_r.
      destruct (truthy groupId) eqn:Htruthy; [done|].
      apply truthy_false in Htruthy as ->.
      unfold resolveSelection in Hres.
      destruct selectedGroupId as [candidate|]; [|done].
      destruct (truthy candidate) eqn:Hc; cbn [andb] in Hres; [|done].
      destruct (isListed groups candidate); [|done].
      injection Hres as ->. done.
    + cbn [selectedGroup].
      destruct (List.find _ groups) as [group|] eqn:Hfind.
      * apply List.find_some in Hfind as [Hin Hid].
        apply bool_decide_eq_true in Hid as <-.
        split; [by apply list_elem_of_In|done].
      * apply isListed_elem_of in Hlisted as (group & Hin & Hid).
        apply list_elem_of_In in Hin.
        pose proof (List.find_none _ _ Hfind group Hin) as Hno. cbn in Hno.
        by rewrite bool_decide_eq_true_2 in Hno.
  - apply resolveSelection_None in Hres as ->. done.
Qed.

Lemma getDisplayName_nonempty user : getDisplayName user ≠ [].
Proof.
  unfold getDisplayName, or_else.
  destruct user.(User.displayName) as [[|? ?]|]; try done;
    destruct user.(User.email) as [[|? ?]|]; try done;
    destruct user.(User.phoneNumber) as [[|? ?]|]; done.
Qed.

(** X15. Every operation keeps the invariant that no stored profile has an
    empty display name: [getDisplayName] falls back to 'Anonymous gifter'. *)
Theorem stored_profiles_are_named env op w :
  map_Forall (λ _ data,
                map_Forall (λ _ profile,
                              profile.(MemberProfile.displayName) ≠ [])
                  (default ∅ data.(GroupDoc.members))) w.(db) →
  map_Forall (λ _ data,
                map_Forall (λ _ profile,
                              profile.(MemberProfile.displayName) ≠ [])
                  (default ∅ data.(GroupDoc.members)))
    (perform env op w).2.(db).
Proof.
  intros Hinv.
  destruct (perform_effect env op w) as [_ Heffect].
  destruct Heffect as [|u -> ? ?|u old -> ? Hold Hnew ?
                      |group u old s -> ? ? Hold ?|group u -> ? ? ?].
  - done.
  - apply map_Forall_insert_2; [|done]. cbn.
    apply map_Forall_singleton. apply getDisplayName_nonempty.
  - apply map_Forall_insert_2; [|done]. cbn.
    apply map_Forall_insert_2; [apply getDisplayName_nonempty|].
    by apply (Hinv _ _ Hold).
  - apply map_Forall_insert_2; [|done]. cbn. by apply (Hinv _ _ Hold).
  - by apply map_Forall_delete.
Qed.

Lemma loadGroupFields_responses env w :
  (loadGroupFields env w).2.(ui).(UI.joinResponses) = ∅
  ∨ ∃ fields,
      (loadGroupFields env w).2.(ui).(UI.joinResponses)
      = initialResponses fields.
Proof.
  unfold loadGroupFields. run_handler.
  destruct (negb _ || _); [by left|]. run_handler.
  destruct (env.(storeRejects) _); [by left|].
  destruct (w.(db) !! _); [right; by eexists|by left].
Qed.

(** X25. Any change of the join code resets the responses: afterwards no
    field has a non-empty response. *)
Theorem changing_the_code_discards_answers env value w k response :
  value ≠ w.(ui).(UI.joinCode) →
  (typeJoinCode env value w).2.(ui).(UI.joinResponses) !! k = Some response →
  response = [].
Proof.
  intros Hchanged.
  unfold typeJoinCode, mbind, M_bind, getState, setState.
  rewrite bool_decide_eq_false_2 by done.
  destruct (loadGroupFields_responses env (withUi (UI.setJoinCode value) w))
    as [-> | [fields ->]]; [done|].
  unfold initialResponses. rewrite initialResponses_lookup_acc.
  case_bool_decide; [by intros [= <-]|done].
Qed.

Lemma imap_pair_shift (fields : list CustomField.t) n :
  imap ((λ k, pair (n + k)) ∘ S) fields = imap (λ k, pair (S n + k)) fields.
Proof. apply imap_ext. intros k x _. cbn. f_equal. lia. Qed.

Lemma filter_below_offset (fields : list CustomField.t) n m :
  m < n →
  (filter (λ entry, entry.1 ≠ m) (imap (λ k, pair (n + k)) fields)).*2
  = fields.
Proof.
  revert n. induction fields as [|field fields IH]; intros n Hm; [done|].
  cbn [imap]. rewrite filter_cons. cbn [fst].
  rewrite decide_True by lia. cbn [fmap list_fmap snd]. f_equal.
  rewrite imap_pair_shift. apply IH. lia.
Qed.

Lemma removeCustomField_offset (fields : list CustomField.t) n i :
  (filter (λ entry, entry.1 ≠ n + i) (imap (λ k, pair (n + k)) fields)).*2
  = take i fields ++ drop (S i) fields.
Proof.
  revert n i. induction fields as [|field fields IH]; intros n i;
    [by destruct i|].
  cbn [imap]. rewrite filter_cons, imap_pair_shift. cbn [fst].
  destruct i as [|i].
  - rewrite decide_False by lia. cbn [take drop app]. rewrite drop_0.
    apply filter_below_offset. lia.
  - rewrite decide_True by lia. cbn [fmap list_fmap snd take drop app].
    f_equal. replace (n + S i) with (S n + i) by lia. apply IH.
Qed.

(** X28. Editing a label or a placeholder keeps the ids and the order of the
    fields and changes the edited field only, and of that field only the
    label, respectively the placeholder; 'Remove' takes out exactly the
    field at its index; removing a field just added restores the list. *)
Theorem custom_field_editor (fields : list CustomField.t) index value newId :
  CustomField.id <$> editFieldLabel index value fields
  = CustomField.id <$> fields
  ∧ CustomField.id <$> editFieldPlaceholder index value fields
    = CustomField.id <$> fields
  ∧ (∀ field, fields !! index = Some field →
              editFieldLabel index value fields !! index
              = Some {| CustomField.id := field.(CustomField.id);
                        CustomField.label := value;
                        CustomField.placeholder :=
                          field.(CustomField.placeholder) |})
  ∧ (∀ other, other ≠ index →
              editFieldLabel index value fields !! other = fields !! other)
  ∧ (∀ field, fields !! index = Some field →
              editFieldPlaceholder index value fields !! index
              = Some {| CustomField.id := field.(CustomField.id);
                        CustomField.label := field.(CustomField.label);
                        CustomField.placeholder := Some value |})
  ∧ (∀ other, other ≠ index →
              editFieldPlaceholder index value fields !! other
              = fields !! other)
  ∧ removeCustomField index fields = take index fields ++ drop (S index) fields
  ∧ removeCustomField (length fields) (addCustomField newId fields) = fields.
Proof.
  assert (∀ (l : list CustomField.t) i,
            removeCustomField i l = take i l ++ drop (S i) l) as Hremove.
  { intros l i. unfold removeCustomField.
    apply (removeCustomField_offset l 0 i). }
  split_and!.
  - unfold editFieldLabel. destruct (fields !! index) as [field|] eqn:Hf; [|done].
    rewrite list_fmap_insert. cbn. by apply list_insert_id, list_lookup_fmap_Some_2.
  - unfold editFieldPlaceholder.
    destruct (fields !! index) as [field|] eqn:Hf; [|done].
    rewrite list_fmap_insert. cbn. by apply list_insert_id, list_lookup_fmap_Some_2.
  - intros field Hf. unfold editFieldLabel. rewrite Hf.
    apply list_lookup_insert_eq. by eapply lookup_lt_Some.
  - intros other Hne. unfold editFieldLabel.
    destruct (fields !! index); [|done]. by apply list_lookup_insert_ne.
  - intros field Hf. unfold editFieldPlaceholder. rewrite Hf.
    apply list_lookup_insert_eq. by eapply lookup_lt_Some.
  - intros other Hne. unfold editFieldPlaceholder.
    destruct (fields !! index); [|done]. by apply list_lookup_insert_ne.
  - apply Hremove.
  - rewrite Hremove. unfold addCustomField.
    rewrite take_app_length, drop_ge; [by rewrite app_nil_r|].
    rewrite length_app. cbn. lia.
Qed.

(** ** The rest of the component on the running example *)

(** Carol, Alice, Bob is a possible result of shuffling Alice, Bob, Carol. *)
Lemma shuffle_reaches_every_arrangement_witness :
  ∃ outcomes : nat → nat,
    ∀ env w,
      (∀ k, env.(randomOutcome) (w.(randomCalls) + k) = outcomes k) →
      (shuffle env [lit "alice"; lit "bob"; lit "carol"] w).1
      = Returned [lit "carol"; lit "alice"; lit "bob"].
Proof.
  apply (shuffle_reaches_every_arrangement
           [lit "alice"; lit "bob"; lit "carol"]
           [lit "carol"; lit "alice"; lit "bob"]).
  change ([lit "carol"; lit "alice"; lit "bob"]
          ≡ₚ [lit "alice"; lit "bob"] ++ lit "carol" :: []).
  apply Permutation_cons_app. reflexivity.
Defined.

(** The office party can be drawn along Carol, Alice, Bob: Carol then gives
    to Alice, Alice to Bob and Bob to Carol. *)
Lemma runDraw_reaches_every_arrangement_witness :
  ∃ outcomes : nat → nat,
    ∀ env w,
      w.(ui).(UI.user) = Some alice →
      (∀ k, env.(randomOutcome) (w.(randomCalls) + k) = outcomes k) →
      ∃ assignments,
        (handleRunDraw env office w).2.(calls)
        = w.(calls)
          ++ [UpdateDoc officeId
                [AssignmentsSet assignments; DrawRunAtServerTimestamp]]
        ∧ recipientOf assignments (lit "carol") = Some (lit "alice")
        ∧ recipientOf assignments (lit "alice") = Some (lit "bob")
        ∧ recipientOf assignments (lit "bob") = Some (lit "carol").
Proof.
  destruct (runDraw_reaches_every_arrangement office alice
              [lit "carol"; lit "alice"; lit "bob"]) as [outcomes Hdraw].
  - reflexivity.
  - cbn. lia.
  - exact office_memberIds_NoDup.
  - change ([lit "carol"; lit "alice"; lit "bob"]
            ≡ₚ [lit "alice"; lit "bob"] ++ lit "carol" :: []).
    apply Permutation_cons_app. reflexivity.
  - exists outcomes. intros env w Hu Henv.
    destruct (Hdraw env w Hu Henv) as (assignments & Hcalls & Halong & _).
    exists assignments. split; [exact Hcalls|].
    destruct (Halong 0 (lit "carol") eq_refl) as (r0 & Hr0 & _ & H0).
    destruct (Halong 1 (lit "alice") eq_refl) as (r1 & Hr1 & _ & H1).
    destruct (Halong 2 (lit "bob") eq_refl) as (r2 & Hr2 & _ & H2).
    cbn in Hr0, Hr1, Hr2.
    injection Hr0 as <-. injection Hr1 as <-. injection Hr2 as <-.
    split; [exact H0|]. split; [exact H1|exact H2].
Defined.

(** The records of the office party's draw carry the names in its profiles. *)
Lemma runDraw_copies_profiles_witness :
  ∃ assignments,
    (handleRunDraw env0 office (signedIn alice)).2.(calls)
    = (signedIn alice).(calls)
      ++ [UpdateDoc office.(Group.id)
            [AssignmentsSet assignments; DrawRunAtServerTimestamp]]
    ∧ ∀ giver record profile,
        assignments !! giver = Some record →
        office.(Group.members) !! record.(Assignment.recipientId)
        = Some profile →
        record.(Assignment.recipientName)
        = profile.(MemberProfile.displayName)
        ∧ record.(Assignment.recipientPhotoURL)
          = profile.(MemberProfile.photoURL).
Proof.
  apply (runDraw_copies_profiles env0 office (signedIn alice) alice).
  - reflexivity.
  - reflexivity.
  - cbn. lia.
Defined.

(** Alice and Bob, alone in a group, draw each other. *)
Lemma runDraw_of_two_swaps_witness :
  ∃ assignments,
    (handleRunDraw env0 duo (signedIn alice)).2.(calls)
    = (signedIn alice).(calls)
      ++ [UpdateDoc duo.(Group.id)
            [AssignmentsSet assignments; DrawRunAtServerTimestamp]]
    ∧ recipientOf assignments (lit "alice") = Some (lit "bob")
    ∧ recipientOf assignments (lit "bob") = Some (lit "alice").
Proof.
  apply (runDraw_of_two_swaps env0 duo (signedIn alice) alice).
  - reflexivity.
  - reflexivity.
  - reflexivity.
  - discriminate.
Defined.

(** Alice's draw while the store rejects every call. *)
Lemma runDraw_store_failure_witness :
  (handleRunDraw envDown office (signedIn alice)).2.(db) = (signedIn alice).(db)
  ∧ (handleRunDraw envDown office (signedIn alice)).2.(ui).(UI.drawError)
    = Some (lit "Something went wrong running the draw. Please try again.")
  ∧ (handleRunDraw envDown office (signedIn alice)).2.(ui).(UI.drawSuccess)
    = None
  ∧ (handleRunDraw envDown office (signedIn alice)).2.(ui).(UI.isRunningDraw)
    = false.
Proof.
  apply (runDraw_store_failure envDown office (signedIn alice) alice).
  - reflexivity.
  - reflexivity.
  - cbn. lia.
  - left. reflexivity.
Defined.

(** After Alice's draw every member of the office party has a match. *)
Lemma every_member_sees_a_match_witness :
  ∃ drawn,
    (handleRunDraw env0 office (signedIn alice)).2.(db) !! office.(Group.id)
    = Some drawn
    ∧ (∀ m, m ∈ office.(Group.memberIds) →
            ∃ record,
              myAssignment (Some (toGroup office.(Group.id) drawn)) m
              = Some record
              ∧ record.(Assignment.recipientId) ≠ m
              ∧ record.(Assignment.recipientId) ∈ office.(Group.memberIds))
    ∧ (∀ m, m ∉ office.(Group.memberIds) →
            myAssignment (Some (toGroup office.(Group.id) drawn)) m = None).
Proof.
  apply (every_member_sees_a_match env0 office (signedIn alice) alice officeDoc).
  - reflexivity.
  - reflexivity.
  - cbn. lia.
  - exact office_memberIds_NoDup.
  - reflexivity.
  - reflexivity.
Defined.


(** The id the store would assign is not in use. *)
Lemma signedIn_autoId_unused user :
  (signedIn user).(db) !! env0.(autoId) (length (signedIn user).(calls)) = None.
Proof. reflexivity. Defined.

(** Dave's join leaves the office party with him added. *)
Lemma dave_joins_office :
  (perform env0 Join
     (joining dave "Gq7xT2mLw9ZbC4RkVh1s" daveResponses)).2.(db) !! officeId
  = Some (joinedDoc dave daveResponses officeDoc).
Proof. vm_compute. reflexivity. Defined.

(** Dave's join changes no identifying field of the office party. *)
Lemma documents_keep_their_identity_witness :
  (joinedDoc dave daveResponses officeDoc).(GroupDoc.name)
  = officeDoc.(GroupDoc.name)
  ∧ (joinedDoc dave daveResponses officeDoc).(GroupDoc.description)
    = officeDoc.(GroupDoc.description)
  ∧ (joinedDoc dave daveResponses officeDoc).(GroupDoc.ownerId)
    = officeDoc.(GroupDoc.ownerId)
  ∧ (joinedDoc dave daveResponses officeDoc).(GroupDoc.ownerName)
    = officeDoc.(GroupDoc.ownerName)
  ∧ (joinedDoc dave daveResponses officeDoc).(GroupDoc.ownerPhotoURL)
    = officeDoc.(GroupDoc.ownerPhotoURL)
  ∧ (joinedDoc dave daveResponses officeDoc).(GroupDoc.customFields)
    = officeDoc.(GroupDoc.customFields)
  ∧ (joinedDoc dave daveResponses officeDoc).(GroupDoc.createdAt)
    = officeDoc.(GroupDoc.createdAt).
Proof.
  apply (documents_keep_their_identity env0 Join
           (joining dave "Gq7xT2mLw9ZbC4RkVh1s" daveResponses) officeId).
  - reflexivity.
  - reflexivity.
  - exact dave_joins_office.
Defined.

(** Dave's join keeps Alice, Bob and Carol and what is stored for them. *)
Lemma members_are_never_removed_witness :
  default [] officeDoc.(GroupDoc.memberIds)
    `prefix_of`
    default [] (joinedDoc dave daveResponses officeDoc).(GroupDoc.memberIds)
  ∧ length (default []
              (joinedDoc dave daveResponses officeDoc).(GroupDoc.memberIds))
    ≤ S (length (default [] officeDoc.(GroupDoc.memberIds)))
  ∧ ∀ m, m ∈ default [] officeDoc.(GroupDoc.memberIds) →
         default ∅ (joinedDoc dave daveResponses officeDoc).(GroupDoc.members)
           !! m
         = default ∅ officeDoc.(GroupDoc.members) !! m
         ∧ default ∅ (joinedDoc dave daveResponses
                        officeDoc).(GroupDoc.memberResponses) !! m
           = default ∅ officeDoc.(GroupDoc.memberResponses) !! m.
Proof.
  apply (members_are_never_removed env0 Join
           (joining dave "Gq7xT2mLw9ZbC4RkVh1s" daveResponses) officeId).
  - reflexivity.
  - reflexivity.
  - exact dave_joins_office.
Defined.

(** Alice, alone in her group, has a profile. *)
Lemma solo_members_have_profiles user :
  MembersHaveProfiles (signedInSolo user).(db).
Proof.
  apply map_Forall_singleton. intros m Hm.
  apply list_elem_of_singleton in Hm. rewrite Hm. by eexists.
Defined.

(** Bob joining Alice's group keeps every member with a profile. *)
Lemma members_keep_profiles_witness :
  MembersHaveProfiles (signedInSolo bob).(db)
  ∧ MembersHaveProfiles
      (perform env0 Join
         (withUi (UI.setJoinCode soloId) (signedInSolo bob))).2.(db).
Proof.
  split; [apply solo_members_have_profiles|].
  apply (members_keep_profiles env0 Join
           (withUi (UI.setJoinCode soloId) (signedInSolo bob))).
  apply solo_members_have_profiles.
Defined.

(** The office party got a draw time: it was Alice, its owner, drawing. *)
Lemma only_the_owner_draws_or_deletes_witness :
  ∃ group user,
    (RunDraw office = RunDraw group ∨ RunDraw office = Delete group)
    ∧ group.(Group.id) = officeId
    ∧ (signedIn alice).(ui).(UI.user) = Some user
    ∧ user.(User.uid) = group.(Group.ownerId).
Proof.
  apply (only_the_owner_draws_or_deletes env0 (RunDraw office)
           (signedIn alice) officeId officeDoc).
  - reflexivity.
  - reflexivity.
  - intros data' Hdata'. right. vm_compute in Hdata'.
    injection Hdata' as <-. discriminate.
Defined.

(** Alice's profile has a name. *)
Lemma solo_profiles_named user :
  map_Forall (λ _ data,
                map_Forall (λ _ profile,
                              profile.(MemberProfile.displayName) ≠ [])
                  (default ∅ data.(GroupDoc.members)))
    (signedInSolo user).(db).
Proof.
  apply map_Forall_singleton. apply map_Forall_singleton. discriminate.
Defined.

(** Bob joining Alice's group keeps every profile named. *)
Lemma stored_profiles_are_named_witness :
  map_Forall (λ _ data,
                map_Forall (λ _ profile,
                              profile.(MemberProfile.displayName) ≠ [])
                  (default ∅ data.(GroupDoc.members)))
    (perform env0 Join
       (withUi (UI.setJoinCode soloId) (signedInSolo bob))).2.(db).
Proof.
  apply (stored_profiles_are_named env0 Join
           (withUi (UI.setJoinCode soloId) (signedInSolo bob))).
  apply solo_profiles_named.
Defined.

(** Alice deletes the office party: accepted, declined, and rejected by the
    store. *)
Lemma delete_group_witness :
  (handleDeleteGroup env0 office (signedIn alice)).2.(db)
  = delete officeId (signedIn alice).(db)
  ∧ (handleDeleteGroup env0 office (signedIn alice)).2.(ui).(UI.isDeletingGroup)
    = true
  ∧ handleDeleteGroup envDeclined office (signedIn alice)
    = (Returned (), signedIn alice)
  ∧ (handleDeleteGroup envDown office (signedIn alice)).2.(ui).(UI.deleteError)
    = Some (lit "Unable to delete the group. Please try again.").
Proof.
  destruct (delete_group env0 office (signedIn alice) alice eq_refl eq_refl)
    as (_ & Hdone & _).
  destruct (delete_group envDeclined office (signedIn alice) alice
              eq_refl eq_refl) as (Hdeclined & _ & _).
  destruct (delete_group envDown office (signedIn alice) alice eq_refl eq_refl)
    as (_ & _ & Hdown).
  destruct (Hdone eq_refl eq_refl) as (Hdb & _ & _ & _ & Hflag).
  destruct (Hdown eq_refl eq_refl) as (_ & _ & Herr & _).
  split_and!; [exact Hdb|exact Hflag|exact (Hdeclined eq_refl)|exact Herr].
Defined.

(** Alice creates 'Office Party', asking for a wish list, with the store
    down, then with the store up. *)
Lemma create_form_after_submit_witness :
  (handleCreateGroup envDown
     (withUi (UI.setCustomFields [wishList])
        (naming alice "Office Party"))).2.(ui).(UI.newGroupName)
  = lit "Office Party"
  ∧ (handleCreateGroup envDown
       (withUi (UI.setCustomFields [wishList])
          (naming alice "Office Party"))).2.(ui).(UI.createError)
    = Some (lit "Unable to create that group. Please try again.")
  ∧ (handleCreateGroup env0
       (withUi (UI.setCustomFields [wishList])
          (naming alice "Office Party"))).2.(ui).(UI.newGroupName) = [].
Proof.
  set (w := withUi (UI.setCustomFields [wishList])
              (naming alice "Office Party")).
  assert (trim w.(ui).(UI.newGroupName) ≠ []) as Hname by discriminate.
  destruct (create_form_after_submit envDown w alice eq_refl Hname)
    as [Hdown _].
  destruct (create_form_after_submit env0 w alice eq_refl Hname)
    as [_ Hok].
  destruct (Hdown eq_refl) as (_ & Herr & _ & Hkept & _).
  destruct (Hok eq_refl) as (_ & Hcleared & _).
  split; [exact Hkept|]. split; [exact Herr|exact Hcleared].
Defined.

(** Dave joins with a blank code, with an unknown code, and with the store
    down. *)
Lemma join_refusals_witness :
  (handleJoinGroup env0 (joining dave "   " ∅)).2.(ui).(UI.joinError)
  = Some (lit "Enter a join code.")
  ∧ (handleJoinGroup env0
       (joining dave "Xb1dQ6vGy8RtN3JkWe5z" ∅)).2.(ui).(UI.joinError)
    = Some (lit "No group found with that code.")
  ∧ (handleJoinGroup envDown
       (joining dave "Gq7xT2mLw9ZbC4RkVh1s" ∅)).2.(ui).(UI.joinError)
    = Some (lit "Could not join that group. Please double-check the code.").
Proof.
  destruct (join_refusals env0 (joining dave "   " ∅) dave eq_refl)
    as (Hempty & _).
  destruct (join_refusals env0 (joining dave "Xb1dQ6vGy8RtN3JkWe5z" ∅) dave
              eq_refl) as (_ & Hunknown & _).
  destruct (join_refusals envDown (joining dave "Gq7xT2mLw9ZbC4RkVh1s" ∅) dave
              eq_refl) as (_ & _ & Hdown & _).
  destruct (Hempty eq_refl) as (He & _).
  assert (namesGroupDocument
            (trim (joining dave "Xb1dQ6vGy8RtN3JkWe5z" ∅).(ui).(UI.joinCode)))
    as Hid.
  { split; [discriminate|]. by apply (bool_decide_unpack _). }
  destruct (Hunknown Hid eq_refl eq_refl) as (Hu & _).
  destruct (Hdown ltac:(discriminate) eq_refl) as (Hd & _).
  split_and!; [exact He|exact Hu|exact Hd].
Defined.

(** Dave's answers leave no field of the office party blank. *)
Lemma dave_answered_everything :
  Forall (λ field, ¬ blankResponse daveResponses field)
    (default [] officeDoc.(GroupDoc.customFields)).
Proof. by apply (bool_decide_unpack _). Defined.

(** Dave is not a member of the office party. *)
Lemma dave_is_new :
  dave.(User.uid) ∉ default [] officeDoc.(GroupDoc.memberIds).
Proof. by apply (bool_decide_unpack _). Defined.

(** Dave joins the office party. *)
Lemma join_adds_member_witness :
  (handleJoinGroup env0
     (joining dave " Gq7xT2mLw9ZbC4RkVh1s " daveResponses)).2.(db)
  = <[officeId := joinedDoc dave daveResponses officeDoc]> (signedIn dave).(db)
  ∧ (handleJoinGroup env0
       (joining dave " Gq7xT2mLw9ZbC4RkVh1s "
          daveResponses)).2.(ui).(UI.selectedGroupId)
    = Some officeId.
Proof.
  destruct (join_adds_member env0
              (joining dave " Gq7xT2mLw9ZbC4RkVh1s " daveResponses)
              dave officeDoc) as (Hdb & _ & _ & _ & Hsel & _).
  - reflexivity.
  - discriminate.
  - reflexivity.
  - reflexivity.
  - reflexivity.
  - exact dave_is_new.
  - exact dave_answered_everything.
  - split; [exact Hdb|exact Hsel].
Defined.

(** Dave joins the office party twice. *)
Lemma join_twice_is_refused_witness :
  (handleJoinGroup env0
     (withUi (UI.setJoinCode officeId)
        (handleJoinGroup env0
           (joining dave "Gq7xT2mLw9ZbC4RkVh1s"
              daveResponses)).2)).2.(ui).(UI.joinError)
  = Some (lit "You are already part of that group.").
Proof.
  destruct (join_twice_is_refused env0
              (joining dave "Gq7xT2mLw9ZbC4RkVh1s" daveResponses)
              dave officeDoc officeId) as (Herr & _).
  - reflexivity.
  - discriminate.
  - reflexivity.
  - reflexivity.
  - reflexivity.
  - exact dave_is_new.
  - exact dave_answered_everything.
  - reflexivity.
  - reflexivity.
  - exact Herr.
Defined.

(** Alice creates a book club with a wish list field and types its id as join
    code. *)
Lemma created_group_is_joinable_at_once_witness :
  (typeJoinCode env0 (lit "Zk3PfW8sYd0aHn5VtB2c")
     (handleCreateGroup env0
        (withUi (UI.setCustomFields [wishList])
           (naming alice "Book club"))).2).2.(ui).(UI.joinGroupFields)
  = [wishList]
  ∧ (handleJoinGroup env0
       (withUi (UI.setJoinCode (lit "Zk3PfW8sYd0aHn5VtB2c"))
          (handleCreateGroup env0
             (withUi (UI.setCustomFields [wishList])
                (naming alice "Book club"))).2)).2.(ui).(UI.joinError)
    = Some (lit "You are already part of that group.").
Proof.
  apply (created_group_is_joinable_at_once env0
           (withUi (UI.setCustomFields [wishList]) (naming alice "Book club"))
           alice).
  - reflexivity.
  - discriminate.
  - reflexivity.
  - reflexivity.
  - reflexivity.
  - vm_compute. lia.
  - discriminate.
Defined.

(** Dave loads the office party's schema and submits at once. *)
Lemma untouched_form_lists_every_field_witness :
  (handleJoinGroup env0
     (loadGroupFields env0
        (joining dave "Gq7xT2mLw9ZbC4RkVh1s" ∅)).2).2.(ui).(UI.joinError)
  = Some (lit "Please fill out all required fields: Wish list, Shirt size").
Proof.
  destruct (untouched_form_lists_every_field env0
              (joining dave "Gq7xT2mLw9ZbC4RkVh1s" ∅) dave officeDoc)
    as (Herr & _).
  - reflexivity.
  - vm_compute. lia.
  - reflexivity.
  - reflexivity.
  - reflexivity.
  - exact dave_is_new.
  - discriminate.
  - exact Herr.
Defined.

(** Dave loads the schema, answers 'Books' everywhere and joins. *)
Lemma answering_every_field_lets_you_join_witness :
  ∃ joined,
    (handleJoinGroup env0
       (answerAll (λ _, lit "Books")
          (loadGroupFields env0
             (joining dave "Gq7xT2mLw9ZbC4RkVh1s" ∅)).2).2).2.(db)
    = <[officeId := joined]> (signedIn dave).(db)
    ∧ joined.(GroupDoc.memberIds)
      = Some [lit "alice"; lit "bob"; lit "carol"; lit "dave"].
Proof.
  destruct (answering_every_field_lets_you_join env0
              (joining dave "Gq7xT2mLw9ZbC4RkVh1s" ∅) dave officeDoc
              (λ _, lit "Books")) as (joined & Hdb & Hids & _).
  - reflexivity.
  - vm_compute. lia.
  - reflexivity.
  - reflexivity.
  - reflexivity.
  - reflexivity.
  - exact dave_is_new.
  - intros field _. discriminate.
  - exists joined. split; [exact Hdb|exact Hids].
Defined.

(** Dave's answers as the roster shows them. *)
Lemma answers_are_shown_after_joining_witness :
  ∃ joined,
    (handleJoinGroup env0
       (joining dave "Gq7xT2mLw9ZbC4RkVh1s" daveResponses)).2.(db) !! officeId
    = Some joined
    ∧ shownResponses (toGroup officeId joined) (lit "dave")
      = [(lit "Wish list", lit "Books"); (lit "Shirt size", lit "M")].
Proof.
  destruct (answers_are_shown_after_joining env0
              (joining dave "Gq7xT2mLw9ZbC4RkVh1s" daveResponses)
              dave officeDoc) as (joined & Hdb & Hshown & _).
  - reflexivity.
  - discriminate.
  - reflexivity.
  - reflexivity.
  - reflexivity.
  - exact dave_is_new.
  - exact dave_answered_everything.
  - exists joined. split; [exact Hdb|exact Hshown].
Defined.

(** Dave completes the code after answering: the wish list is blank again. *)
Lemma changing_the_code_discards_answers_witness :
  (typeJoinCode env0 officeId
     (joining dave "Gq7xT2mLw9ZbC4RkVh1" daveResponses)).2.(ui).(UI.joinResponses)
    !! wishList.(CustomField.id) = Some []
  ∧ @nil N = [].
Proof.
  assert ((typeJoinCode env0 officeId
             (joining dave "Gq7xT2mLw9ZbC4RkVh1"
                daveResponses)).2.(ui).(UI.joinResponses)
            !! wishList.(CustomField.id) = Some []) as Hcleared
    by (vm_compute; reflexivity).
  split; [exact Hcleared|].
  assert (officeId
          ≠ (joining dave "Gq7xT2mLw9ZbC4RkVh1" daveResponses).(ui).(UI.joinCode))
    as Hchanged by discriminate.
  exact (changing_the_code_discards_answers env0 officeId
           (joining dave "Gq7xT2mLw9ZbC4RkVh1" daveResponses)
           wishList.(CustomField.id) [] Hchanged Hcleared).
Defined.

(** Alice's own group is newer than the office party and comes first. *)
Lemma nextGroups_newest_first_witness :
  nextGroups [(officeId, officeDoc); (soloId, soloDoc)] = [solo; office]
  ∧ nextGroups [(officeId, officeDoc); (soloId, soloDoc)]
    ≡ₚ [office; solo].
Proof.
  split; [reflexivity|].
  exact (proj1 (nextGroups_newest_first
                  [(officeId, officeDoc); (soloId, soloDoc)])).
Defined.

(** Relabelling the second field, giving the first a placeholder, removing
    the first. *)
Lemma custom_field_editor_witness :
  editFieldLabel 1 (lit "Size") [wishList; shirtSize] !! 1
  = Some {| CustomField.id := shirtSize.(CustomField.id);
            CustomField.label := lit "Size";
            CustomField.placeholder := None |}
  ∧ editFieldPlaceholder 0 (lit "Books, tea") [wishList; shirtSize]
    = [ {| CustomField.id := wishList.(CustomField.id);
           CustomField.label := wishList.(CustomField.label);
           CustomField.placeholder := Some (lit "Books, tea") |};
        shirtSize ]
  ∧ removeCustomField 0 [wishList; shirtSize] = [shirtSize].
Proof.
  destruct (custom_field_editor [wishList; shirtSize] 1 (lit "Size") [])
    as (_ & _ & Hedit & _ & _ & _ & _ & _).
  destruct (custom_field_editor [wishList; shirtSize] 0 (lit "Books, tea") [])
    as (_ & _ & _ & _ & Hhint & Hrest & Hremove & _).
  split; [exact (Hedit shirtSize eq_refl)|]. split; [|exact Hremove].
  apply list_eq. intros [|[|other]].
  - exact (Hhint wishList eq_refl).
  - exact (Hrest 1 ltac:(discriminate)).
  - exact (Hrest (S (S other)) ltac:(discriminate)).
Defined.
